(** * FullCarts Reddit scrapers: signal extraction, tiers, dedup and promotion

    A shallow embedding of [reddit_public_scraper.py] and [reddit_scraper.py].

    Character model.  A Python [str] is carried as a Rocq [string]: a sequence
    of bytes, with code points above 127 in their UTF-8 form (the arrows and
    dashes of the patterns are such literals).  On ASCII text the model and
    Python agree character by character.  A slice [s[:n]] and [len] count
    characters: a character is a byte that continues none, with the
    continuation bytes that follow it.  The classes [\d], [\s], [\w], the
    case mappings and [re.IGNORECASE] are those of the ASCII range; the
    Unicode members of these classes are outside the model.

    Number model.  Python floats are Rocq's primitive binary64 floats. *)

From Stdlib Require Import ZArith NArith Ascii String List Bool Lia.
From Stdlib Require Import PrimFloat SpecFloat FloatOps FloatAxioms.
From stdpp Require Import gmap strings list sorting.

Set Warnings "-inexact-float".

Local Open Scope string_scope.
Local Open Scope Z_scope.

(** ** Python strings *)

Module PyStr.

Definition code (c : ascii) : nat := nat_of_ascii c.

Definition between (lo hi : nat) (c : ascii) : bool :=
  (lo <=? code c)%nat && (code c <=? hi)%nat.

Definition is_digit : ascii -> bool := between 48 57.
Definition is_upper : ascii -> bool := between 65 90.
Definition is_lower : ascii -> bool := between 97 122.
Definition is_alpha (c : ascii) : bool := is_upper c || is_lower c.

(** [str.isspace] on the ASCII range: TAB, LF, VT, FF, CR, FS, GS, RS, US
    and the space. *)
Definition is_space (c : ascii) : bool :=
  between 9 13 c || between 28 32 c.

(** [\w]: letters, digits and the underscore. *)
Definition is_word (c : ascii) : bool :=
  is_alpha c || is_digit c || (code c =? 95)%nat.

Definition lower_char (c : ascii) : ascii :=
  if is_upper c then ascii_of_nat (code c + 32) else c.

Definition upper_char (c : ascii) : ascii :=
  if is_lower c then ascii_of_nat (code c - 32) else c.

Definition eq_char (c d : ascii) : bool := (code c =? code d)%nat.

(** Equality of two characters under [re.IGNORECASE]. *)
Definition eq_char_ci (c d : ascii) : bool :=
  eq_char (lower_char c) (lower_char d).

Fixpoint map_chars (f : ascii -> ascii) (s : string) : string :=
  match s with
  | EmptyString => EmptyString
  | String c s' => String (f c) (map_chars f s')
  end.

(** [s.lower()] *)
Definition lower : string -> string := map_chars lower_char.

(** [s.title()]: a letter that follows a letter is lowered, any other
    letter is raised. *)
Fixpoint title_from (previous_is_cased : bool) (s : string) : string :=
  match s with
  | EmptyString => EmptyString
  | String c s' =>
      if is_alpha c
      then String (if previous_is_cased then lower_char c else upper_char c)
                  (title_from true s')
      else String c (title_from false s')
  end.

Definition title : string -> string := title_from false.

Fixpoint drop_while (p : ascii -> bool) (s : string) : string :=
  match s with
  | EmptyString => EmptyString
  | String c s' => if p c then drop_while p s' else s
  end.

(** Removes the longest suffix whose characters all satisfy [p]. *)
Fixpoint drop_while_end (p : ascii -> bool) (s : string) : string :=
  match s with
  | EmptyString => EmptyString
  | String c s' =>
      match drop_while_end p s' with
      | EmptyString => if p c then EmptyString else String c EmptyString
      | t => String c t
      end
  end.

(** [s.strip()] *)
Definition strip (s : string) : string :=
  drop_while_end is_space (drop_while is_space s).

(** [s.rstrip(chars)] for a one-character [chars]: every trailing
    occurrence goes. *)
Definition rstrip_char (c : ascii) (s : string) : string :=
  drop_while_end (eq_char c) s.

Fixpoint starts_with (p s : string) : bool :=
  match p, s with
  | EmptyString, _ => true
  | String a p', String b s' => eq_char a b && starts_with p' s'
  | String _ _, EmptyString => false
  end.

(** [p in s] *)
Fixpoint contains (p s : string) : bool :=
  starts_with p s ||
  match s with
  | EmptyString => false
  | String _ s' => contains p s'
  end.

(** The first [n] bytes of [s]. *)
Fixpoint take (n : nat) (s : string) : string :=
  match n, s with
  | S n', String c s' => String c (take n' s')
  | _, _ => EmptyString
  end.

(** A byte that continues a character: [10xxxxxx]. *)
Definition is_continuation (c : ascii) : bool := between 128 191 c.

(** [len(s)]: the characters of [s]. *)
Fixpoint len (s : string) : nat :=
  match s with
  | EmptyString => O
  | String c s' => if is_continuation c then len s' else S (len s')
  end.

(** [s[:n]]: the first [n] characters of [s], each with its continuation
    bytes. *)
Fixpoint slice_to (n : nat) (s : string) : string :=
  match s with
  | EmptyString => EmptyString
  | String c s' =>
      if is_continuation c then String c (slice_to n s')
      else match n with
           | O => EmptyString
           | S n' => String c (slice_to n' s')
           end
  end.

Fixpoint drop (n : nat) (s : string) : string :=
  match n, s with
  | S n', String _ s' => drop n' s'
  | _, _ => s
  end.

(** [s.split("\n")[0]] *)
Fixpoint first_line (s : string) : string :=
  match s with
  | EmptyString => EmptyString
  | String c s' => if (code c =? 10)%nat then EmptyString else String c (first_line s')
  end.

Definition is_empty (s : string) : bool :=
  match s with EmptyString => true | _ => false end.

(** Truth value of an optional string: [None] and [""] are false. *)
Definition truthy (o : option string) : bool :=
  match o with
  | Some s => negb (is_empty s)
  | None => false
  end.

(** [o or d] for an optional string [o]. *)
Definition or_else (o : option string) (d : string) : string :=
  match o with
  | Some s => if is_empty s then d else s
  | None => d
  end.

End PyStr.

(** ** Python floats *)

Module PyFloat.

(** The double nearest to [n / d] (ties to even), as [strtod] and the
    IEEE division both deliver it. *)
Definition of_ratio (negative : bool) (n : N) (d : positive) : float :=
  match n with
  | N0 => SF2Prim (S754_zero negative)
  | Npos p =>
      SF2Prim (SFdiv prec emax (S754_finite negative p 0) (S754_finite false d 0))
  end.

Fixpoint digits_value (s : string) (acc : N) : option N :=
  match s with
  | EmptyString => Some acc
  | String c s' =>
      if PyStr.is_digit c
      then digits_value s' (10 * acc + N.of_nat (PyStr.code c - 48))%N
      else None
  end.

(** Splits at the first full stop. *)
Fixpoint split_point (s : string) : string * option string :=
  match s with
  | EmptyString => (EmptyString, None)
  | String c s' =>
      if (PyStr.code c =? 46)%nat then (EmptyString, Some s')
      else let '(i, f) := split_point s' in (String c i, f)
  end.

(** [float(s)] for a literal [s] of the form digits or digits.digits, the
    only form the patterns capture.  [None] stands for a string of any
    other form, where this model does not follow [float]. *)
Definition of_decimal (s : string) : option float :=
  let '(i, f) := split_point s in
  if PyStr.is_empty i then None
  else match f with
       | None => n ← digits_value i 0%N; Some (of_ratio false n 1)
       | Some f =>
           if PyStr.is_empty f then None
           else n ← digits_value (i ++ f) 0%N;
                Some (of_ratio false n (Pos.pow 10 (Pos.of_nat (String.length f))))
       end.

(** Truth value of an optional number: [None] and zero are false. *)
Definition truthy (o : option float) : bool :=
  match o with
  | Some x => negb (PrimFloat.eqb x 0)
  | None => false
  end.

(** [x / y]: Python raises [ZeroDivisionError] on a zero divisor. *)
Definition truediv (x y : float) : option float :=
  if PrimFloat.eqb y 0 then None else Some (PrimFloat.div x y).

(** The integer nearest to [n / d], ties to the even one. *)
Definition div_half_even (n d : Z) : Z :=
  let q := n / d in
  let r := n mod d in
  match (2 * r ?= d) with
  | Lt => q
  | Gt => q + 1
  | Eq => if Z.even q then q else q + 1
  end.

(** [round(x, 2)]: the exact value of [x] is rounded to two decimals, ties
    to even, and the double nearest to that decimal is returned; zeros,
    infinities and NaN round to themselves. *)
Definition round2 (x : float) : float :=
  match Prim2SF x with
  | S754_finite s m e =>
      if 0 <=? e then x
      else
        let k := div_half_even (Zpos m * 100) (2 ^ (- e)) in
        of_ratio s (Z.to_N k) 100
  | _ => x
  end.

End PyFloat.

(** ** Lines of text *)

Module PyLines.

(** [sep.join(items)] *)
Fixpoint join (sep : string) (items : list string) : string :=
  match items with
  | [] => EmptyString
  | [x] => x
  | x :: rest => x ++ sep ++ join sep rest
  end.

(** The line boundaries of [str.splitlines] in the ASCII range: LF, VT,
    FF, CR, FS, GS and RS. *)
Definition is_line_break (c : ascii) : bool :=
  PyStr.between 10 13 c || PyStr.between 28 30 c.

(** [s.splitlines()], with [line] the characters of the current line read
    so far and [after_cr] set just behind a CR, whose LF belongs to the
    same boundary.  A boundary at the very end opens no further line. *)
Fixpoint splitlines_from (after_cr : bool) (line : string) (s : string)
  : list string :=
  match s with
  | EmptyString => if PyStr.is_empty line then [] else [line]
  | String c s' =>
      if after_cr && (PyStr.code c =? 10)%nat
      then splitlines_from false line s'
      else if is_line_break c
      then line :: splitlines_from (PyStr.code c =? 13)%nat EmptyString s'
      else splitlines_from false (line ++ String c EmptyString) s'
  end.

Definition splitlines (s : string) : list string :=
  splitlines_from false EmptyString s.

(** The order of [sorted] on strings: by code point, the shorter of two
    strings first when it starts the other. *)
Definition le (a b : string) : Prop := String.leb a b = true.

#[global] Instance le_dec : RelDecision le.
Proof. intros a b. unfold le. apply _. Defined.

(** [sorted(items)] *)
Definition sorted (items : list string) : list string := merge_sort le items.

(** Printable characters of the ASCII range, the space included. *)
Definition is_printable (c : ascii) : bool := PyStr.between 32 126 c.

Fixpoint printable (s : string) : bool :=
  match s with
  | EmptyString => true
  | String c s' => is_printable c && printable s'
  end.

End PyLines.

(** ** Regular expressions, matched the way Python's [re] matches them

    A backtracking matcher in continuation-passing style: alternatives are
    tried in the order written, repetitions and options are greedy, and the
    first way through wins. *)

Module Re.

Inductive regex : Type :=
| Lit (s : string)                                    (* literal text *)
| Rep (cls : ascii -> bool) (lo : nat) (hi : option nat)
                                                      (* [c{lo,hi}], greedy *)
| Cat (r1 r2 : regex)
| Alt (r1 r2 : regex)                                 (* [r1|r2], ordered *)
| Opt (r : regex)                                     (* [r?], greedy *)
| Grp (n : nat) (r : regex)                           (* capturing group [n] *)
| Bnd                                                 (* [\b] *)
| Bos.                                                (* [^] *)

(** The text of each capturing group that took part in the match. *)
Definition groups : Type := list (nat * string).

Fixpoint group (g : groups) (n : nat) : option string :=
  match g with
  | [] => None
  | (m, w) :: g' => if (m =? n)%nat then Some w else group g' n
  end.

(** [m.group(n)] inside a [findall] tuple: a group that took no part
    reads as the empty string. *)
Definition group_text (g : groups) (n : nat) : string :=
  default EmptyString (group g n).

Definition below (n : nat) (hi : option nat) : bool :=
  match hi with
  | None => true
  | Some h => (n <? h)%nat
  end.

Definition word_before (prev : option ascii) : bool :=
  match prev with
  | Some c => PyStr.is_word c
  | None => false
  end.

Definition word_after (s : string) : bool :=
  match s with
  | String c _ => PyStr.is_word c
  | EmptyString => false
  end.

(** Where the matcher stands: [before] is the character just before the
    current position ([None] at the very start of the searched text),
    [taken] counts the characters consumed since the match began, and
    [rest] is the text still ahead. *)
Record cursor : Type := mkCursor {
  before : option ascii;
  taken : nat;
  rest : string
}.

Definition advance (b : ascii) (s' : string) (c : cursor) : cursor :=
  mkCursor (Some b) (S (taken c)) s'.

Section Matcher.

Context {R : Type}.

(** [ic] is the [re.IGNORECASE] flag. *)
Variable ic : bool.

Definition same_char (a b : ascii) : bool :=
  if ic then PyStr.eq_char_ci a b else PyStr.eq_char a b.

Fixpoint lit (l : string) (before : option ascii) (taken : nat) (s : string)
         (k : cursor -> option R) : option R :=
  match l with
  | EmptyString => k (mkCursor before taken s)
  | String a l' =>
      match s with
      | String b s' =>
          if same_char a b then lit l' (Some b) (S taken) s' k else None
      | EmptyString => None
      end
  end.

(** [n] counts the repetitions made so far. *)
Fixpoint rep (cls : ascii -> bool) (lo : nat) (hi : option nat) (n : nat)
         (before : option ascii) (taken : nat) (s : string)
         (k : cursor -> option R) : option R :=
  let stop := if (lo <=? n)%nat then k (mkCursor before taken s) else None in
  match s with
  | String c s' =>
      if cls c && below n hi
      then match rep cls lo hi (S n) (Some c) (S taken) s' k with
           | Some x => Some x
           | None => stop
           end
      else stop
  | EmptyString => stop
  end.

Fixpoint run (r : regex) (c : cursor) (g : groups)
         (k : cursor -> groups -> option R) : option R :=
  match r with
  | Lit l => lit l (before c) (taken c) (rest c) (fun c' => k c' g)
  | Rep cls lo hi =>
      rep cls lo hi 0 (before c) (taken c) (rest c) (fun c' => k c' g)
  | Cat r1 r2 => run r1 c g (fun c' g' => run r2 c' g' k)
  | Alt r1 r2 =>
      match run r1 c g k with
      | Some x => Some x
      | None => run r2 c g k
      end
  | Opt r1 =>
      match run r1 c g k with
      | Some x => Some x
      | None => k c g
      end
  | Grp n r1 =>
      run r1 c g
          (fun c' g' =>
             k c' ((n, PyStr.take (taken c' - taken c) (rest c)) :: g'))
  | Bnd =>
      if xorb (word_before (before c)) (word_after (rest c)) then k c g
      else None
  | Bos =>
      match before c with
      | None => k c g
      | Some _ => None
      end
  end.

End Matcher.

(** A compiled pattern: the expression and its [IGNORECASE] flag. *)
Record pattern : Type := compile { expr : regex; ignorecase : bool }.

(** A match that starts exactly at [s]: its groups and where it ends. *)
Definition match_here (p : pattern) (prev : option ascii) (s : string)
  : option (groups * cursor) :=
  run (ignorecase p) (expr p) (mkCursor prev 0 s) []
      (fun c g => Some (g, c)).

(** [p.search(text)]: the match at the leftmost position that has one. *)
Fixpoint search_from (p : pattern) (prev : option ascii) (s : string)
  : option (groups * cursor) :=
  match match_here p prev s with
  | Some m => Some m
  | None =>
      match s with
      | EmptyString => None
      | String c s' => search_from p (Some c) s'
      end
  end.

Definition search (p : pattern) (text : string) : option groups :=
  fst <$> search_from p None text.

(** [p.findall(text)]: the matches from left to right, each search
    resuming where the previous match ended.  [skip] counts the characters
    of the current match still to step over. *)
Fixpoint findall_from (p : pattern) (skip : nat) (prev : option ascii)
         (s : string) : list groups :=
  let next (n : nat) : list groups :=
    match s with
    | EmptyString => []
    | String c s' => findall_from p n (Some c) s'
    end in
  match skip with
  | S n => next n
  | O =>
      match match_here p prev s with
      | Some (g, c) => g :: next (taken c - 1)%nat
      | None => next O
      end
  end.

Definition findall (p : pattern) (text : string) : list groups :=
  findall_from p 0 None text.

(** [re.sub(p, "", s)] for a pattern anchored by [^]: the match at the
    start of [s], if there is one, is cut off. *)
Definition sub_prefix (p : pattern) (s : string) : string :=
  match match_here p None s with
  | Some (_, c) => rest c
  | None => s
  end.

(** *** Pattern notation *)

Definition digit : ascii -> bool := PyStr.is_digit.
Definition space : ascii -> bool := PyStr.is_space.

Definition many (cls : ascii -> bool) : regex := Rep cls 0 None.      (* [c*] *)
Definition many1 (cls : ascii -> bool) : regex := Rep cls 1 None.    (* [c+] *)

Fixpoint seq (rs : list regex) : regex :=
  match rs with
  | [] => Lit EmptyString
  | [r] => r
  | r :: rs' => Cat r (seq rs')
  end.

Fixpoint alt (rs : list regex) : regex :=
  match rs with
  | [] => Rep (fun _ => false) 1 None
  | [r] => r
  | r :: rs' => Alt r (alt rs')
  end.

(** [word[s]?] *)
Definition plural (w : string) : regex := Cat (Lit w) (Opt (Lit "s")).

(** [\d+(?:\.\d+)?] *)
Definition number : regex :=
  Cat (many1 digit) (Opt (Cat (Lit ".") (many1 digit))).

End Re.

(** ** The signal record both scrapers fill in

    The dict [result] of [parse_text], with [None] for Python's [None]. *)

Record ExtractedSignals : Type := mkSignals {
  brand : option string;
  product_hint : option string;
  old_size : option float;
  new_size : option float;
  old_unit : option string;
  new_unit : option string;
  old_price : option float;
  new_price : option float;
  fields_found : Z;
  explicit_from_to : bool
}.

Definition empty_signals : ExtractedSignals :=
  mkSignals None None None None None None None None 0 false.

Definition set_brand (b : option string) (r : ExtractedSignals) :=
  mkSignals b (product_hint r) (old_size r) (new_size r) (old_unit r)
            (new_unit r) (old_price r) (new_price r) (fields_found r)
            (explicit_from_to r).

Definition set_product_hint (h : option string) (r : ExtractedSignals) :=
  mkSignals (brand r) h (old_size r) (new_size r) (old_unit r)
            (new_unit r) (old_price r) (new_price r) (fields_found r)
            (explicit_from_to r).

Definition set_old_size (v : option float) (r : ExtractedSignals) :=
  mkSignals (brand r) (product_hint r) v (new_size r) (old_unit r)
            (new_unit r) (old_price r) (new_price r) (fields_found r)
            (explicit_from_to r).

Definition set_new_size (v : option float) (r : ExtractedSignals) :=
  mkSignals (brand r) (product_hint r) (old_size r) v (old_unit r)
            (new_unit r) (old_price r) (new_price r) (fields_found r)
            (explicit_from_to r).

Definition set_old_unit (u : option string) (r : ExtractedSignals) :=
  mkSignals (brand r) (product_hint r) (old_size r) (new_size r) u
            (new_unit r) (old_price r) (new_price r) (fields_found r)
            (explicit_from_to r).

Definition set_new_unit (u : option string) (r : ExtractedSignals) :=
  mkSignals (brand r) (product_hint r) (old_size r) (new_size r) (old_unit r)
            u (old_price r) (new_price r) (fields_found r)
            (explicit_from_to r).

Definition set_old_price (v : option float) (r : ExtractedSignals) :=
  mkSignals (brand r) (product_hint r) (old_size r) (new_size r) (old_unit r)
            (new_unit r) v (new_price r) (fields_found r)
            (explicit_from_to r).

Definition set_new_price (v : option float) (r : ExtractedSignals) :=
  mkSignals (brand r) (product_hint r) (old_size r) (new_size r) (old_unit r)
            (new_unit r) (old_price r) v (fields_found r)
            (explicit_from_to r).

Definition set_explicit_from_to (b : bool) (r : ExtractedSignals) :=
  mkSignals (brand r) (product_hint r) (old_size r) (new_size r) (old_unit r)
            (new_unit r) (old_price r) (new_price r) (fields_found r) b.

(** [result["fields_found"] += n] *)
Definition add_fields_found (n : Z) (r : ExtractedSignals) :=
  mkSignals (brand r) (product_hint r) (old_size r) (new_size r) (old_unit r)
            (new_unit r) (old_price r) (new_price r) (fields_found r + n)
            (explicit_from_to r).

(** The four size fields at once, in the order the code assigns them. *)
Definition set_sizes (os ns : float) (ou nu : string) (r : ExtractedSignals) :=
  set_new_unit (Some nu) (set_old_unit (Some ou)
    (set_new_size (Some ns) (set_old_size (Some os) r))).

(** The confidence tiers, ordered [discard < review < auto]. *)
Inductive Tier : Type := Discard | Review | Auto.

Definition tier_rank (t : Tier) : nat :=
  match t with Discard => 0 | Review => 1 | Auto => 2 end.

Definition tier_name (t : Tier) : string :=
  match t with Discard => "discard" | Review => "review" | Auto => "auto" end.

(** A [datetime] value, by what the scrapers ask of it: its [isoformat()]
    and its [strftime("%Y-%m-01")]. *)
Record DateTime : Type := mkDateTime {
  isoformat : string;
  month_start : string
}.

(** [float(units[i][0])] and the like: the first failure aborts the call. *)
Definition float_of_group (g : Re.groups) (n : nat) : option float :=
  w ← Re.group g n; PyFloat.of_decimal w.

(** ** reddit_public_scraper.py *)

Module RedditPublicScraper.

Import Re.

Definition TIER_AUTO_THRESHOLD : Z := 3.
Definition TIER_REVIEW_THRESHOLD : Z := 1.

Definition KNOWN_BRANDS : list string := [
  "tropicana"; "lays"; "lay's"; "doritos"; "gatorade"; "pepsi"; "coca-cola"; "coke";
  "hellmann's"; "hellmanns"; "unilever"; "general mills"; "cheerios"; "nature valley";
  "tide"; "dawn"; "bounty"; "charmin"; "folgers"; "maxwell house"; "starbucks";
  "oreo"; "nabisco"; "mondelez"; "campbell's"; "campbells"; "kraft"; "heinz";
  "heinz ketchup"; "kellogg's"; "kelloggs"; "special k"; "frosted flakes";
  "quaker"; "pepsico"; "post"; "planters"; "skippy"; "jif"; "peanut butter";
  "trader joe's"; "trader joes"; "costco"; "kirkland"; "whole foods"; "365";
  "ben & jerry's"; "haagen-dazs"; "breyers"; "blue bell";
  "tyson"; "perdue"; "oscar mayer"; "ball park"; "hebrew national";
  "minute maid"; "simply orange"; "florida's natural";
  "colgate"; "crest"; "oral-b"; "listerine";
  "febreze"; "glad"; "ziploc"; "scotch-brite";
  "stouffer's"; "lean cuisine"; "marie callender's";
  "progresso"; "amy's"; "annie's"; "horizon";
  "tostitos"; "ruffles"; "cheetos"; "fritos"; "sun chips";
  "pringles"; "wheat thins"; "triscuit"; "ritz"; "goldfish";
  "hershey"; "reese's"; "kit kat"; "snickers"; "m&m's"; "twix";
  "nestle"; "nescafe"; "coffee mate"; "dreyer's"; "edy's";
  "tillamook"; "chobani"; "yoplait"; "dannon"; "oikos";
  "oscar mayer"; "jimmy dean"; "johnsonville"; "hillshire";
  "goya"; "old el paso"; "taco bell"; "mission";
  "barilla"; "ragu"; "prego"; "classico"; "bertolli";
  "hidden valley"; "ranch"; "french's"; "grey poupon";
  "velveeta"; "philadelphia"; "sargento"; "borden";
  "totino's"; "digiorno"; "red baron"; "tombstone";
  "hot pocket"; "hot pockets"; "bagel bites";
  "frito-lay"; "frito lay"; "pepperidge farm";
  "smucker's"; "smuckers"; "welch's"; "welchs";
  "aunt jemima"; "pearl milling"; "mrs butterworth";
  "wonder bread"; "sara lee"; "arnold"; "dave's killer bread";
  "thomas'"; "thomas"; "entenmann's"; "entenmanns";
  "little debbie"; "hostess"; "drake's";
  "scott"; "cottonelle"; "viva"; "kleenex"; "puffs";
  "huggies"; "pampers"; "luvs";
  "downy"; "gain"; "all"; "arm & hammer"; "oxiclean";
  "clorox"; "lysol"; "pine-sol"; "mr clean";
  "dial"; "irish spring"; "dove"; "ivory"; "olay";
  "pantene"; "head & shoulders"; "suave"; "tresemme";
  "toblerone"; "cadbury"; "lindt"; "ghirardelli"; "godiva"
].

(** [fl\.?\s*oz] and [sq\.?\s*ft] *)
Definition fl_oz : regex := seq [Lit "fl"; Opt (Lit "."); many space; Lit "oz"].
Definition sq_ft : regex := seq [Lit "sq"; Opt (Lit "."); many space; Lit "ft"].

Definition UNIT_PATTERN : pattern := compile
  (seq [Grp 1 number; many space;
        Grp 2 (alt [Lit "oz"; fl_oz; plural "ounce"; plural "lb"; plural "pound";
                    Lit "g"; plural "gram"; Lit "kg"; Lit "ml"; plural "liter";
                    Lit "l"; Lit "ct"; Lit "count"; Lit "pack"; plural "piece";
                    plural "sheet"; plural "roll"; sq_ft; Lit "pt"; plural "pint";
                    Lit "qt"; plural "quart"; Lit "gal"; plural "gallon"])])
  true.

(** [\$\s*(\d+(?:\.\d{1,2})?)] *)
Definition PRICE_PATTERN : pattern := compile
  (seq [Lit "$"; many space;
        Grp 1 (Cat (many1 digit) (Opt (Cat (Lit ".") (Rep digit 1 (Some 2%nat)))))])
  true.

Definition from_to_unit : regex :=
  alt [Lit "oz"; fl_oz; plural "ounce"; plural "lb"; plural "pound";
       Lit "g"; plural "gram"; Lit "kg"; Lit "ml"; Lit "ct"; Lit "count";
       Lit "pack"; plural "sheet"; plural "roll"; Lit "pt"; plural "pint";
       Lit "qt"; plural "quart"; Lit "gal"; plural "gallon"].

Definition FROM_TO_PATTERN : pattern := compile
  (seq [alt [Lit "from"; Lit "was"; Lit "went from"; Lit "used to be";
             Lit "previously"; Cat (Lit "old") (Opt (Lit ":"));
             Lit "originally"; Lit "started at"];
        many1 space;
        Grp 1 number; many space; Opt (Grp 2 from_to_unit);
        many space;
        alt [Lit "to"; Lit "now"; Lit "→"; Lit "->"; Lit "-->"; Lit "–";
             Lit "—"; Lit "-"; Lit "down to"; Lit "reduced to";
             Lit "shrunk to"; Lit "changed to"];
        many space;
        Grp 3 number; many space; Opt (Grp 4 from_to_unit)])
  true.

Definition arrow_unit : regex :=
  alt [Lit "oz"; fl_oz; Lit "g"; plural "gram"; Lit "ml"; plural "lb";
       Lit "ct"; Lit "count"; plural "sheet"; plural "roll"].

Definition ARROW_PATTERN : pattern := compile
  (seq [Grp 1 number; many space; Grp 2 arrow_unit;
        many space;
        alt [Lit "→"; Lit "->"; Lit "-->"; Lit "⟶"; Lit "to";
             Cat (Lit "vs") (Opt (Lit ".")); Lit "versus"; Lit "down to"];
        many space;
        Grp 3 number; many space; Opt (Grp 4 arrow_unit)])
  true.

Definition SHRINK_KEYWORDS : pattern := compile
  (seq [Bnd;
        Grp 1 (alt [Lit "shrinkflation"; Lit "shrunk"; Lit "smaller"; Lit "reduced";
                    Lit "less"; Lit "shrank"; Lit "downsized"; Lit "downsizing";
                    Lit "size cut"; Lit "weight cut"; Lit "ounces less";
                    Lit "fewer ounces"; Lit "net weight"; Lit "same price";
                    Lit "price increase"; Lit "got smaller"; Lit "getting smaller";
                    Lit "they reduced"; Lit "they cut"; Lit "less product";
                    seq [Lit "rip"; Opt (Alt (Lit "-") (Lit " ")); Lit "off"];
                    Lit "same box"; Lit "same package"; Lit "smaller amount";
                    Lit "used to be"; Lit "went from"; Lit "half the size";
                    seq [Lit "thin"; Opt (Lit "n"); Lit "er"]; Lit "narrower";
                    Lit "shorter"; Lit "lighter"; Lit "watered down"; Lit "diluted";
                    Lit "fewer count"; Lit "less sheets"; Lit "less rolls";
                    Lit "family size"; Lit "not as big"; Lit "getting ripped off"]);
        Bnd])
  true.

(** [re.search(alternatives, t)] of [guess_category], compiled without
    flags. *)
Definition mentions (alternatives : list regex) (t : string) : bool :=
  bool_decide (is_Some (search (compile (alt alternatives) false) t)).

Definition guess_category (text : string) : string :=
  let t := PyStr.lower text in
  if mentions [Lit "juice"; Lit "soda"; Lit "water"; Lit "drink"; Lit "coffee";
               Lit "tea"; Lit "milk"; Lit "creamer"; Lit "gatorade"; Lit "powerade";
               Lit "lemonade"; Lit "beer"; Lit "wine"; Lit "energy drink"] t
  then "Beverages"
  else if mentions [plural "chip"; Lit "cookie"; Lit "cracker"; Lit "pretzel";
                    Lit "popcorn"; Lit "candy"; Lit "chocolate"; Lit "gum";
                    Lit "snack"; Lit "goldfish"; Lit "cheeto"; Lit "dorito";
                    Lit "frito"; Lit "pringles"; Lit "oreo"; Lit "ritz";
                    Lit "wheat thin"] t
  then "Snacks"
  else if mentions [Lit "cereal"; Lit "oat"; Lit "granola"; Lit "cheerio";
                    Lit "frosted flake"; Lit "special k"; Lit "raisin bran"] t
  then "Cereal"
  else if mentions [Lit "paper towel"; Lit "toilet paper"; Lit "tissue";
                    Lit "napkin"; Lit "bounty"; Lit "charmin"; Lit "scott";
                    Lit "cottonelle"; Lit "kleenex"] t
  then "Paper Goods"
  else if mentions [Lit "soap"; Lit "shampoo"; Lit "conditioner"; Lit "detergent";
                    Lit "cleaner"; Lit "dish"; Lit "laundry"; Lit "tide"; Lit "dawn";
                    Lit "lysol"; Lit "clorox"; Lit "toothpaste"; Lit "deodorant"] t
  then "Household"
  else if mentions [Lit "ice cream"; Lit "frozen"; Lit "pizza"; Lit "bagel bite";
                    Lit "hot pocket"; Lit "totino"; Lit "digiorno"; Lit "stouffer";
                    Lit "lean cuisine"] t
  then "Frozen"
  else if mentions [Lit "bread"; Lit "bagel"; Lit "muffin"; Lit "roll"; Lit "bun";
                    Lit "tortilla"; Lit "wrap"; Lit "pita"; Lit "croissant";
                    Lit "english muffin"] t
  then "Bakery"
  else if mentions [Lit "yogurt"; Lit "cheese"; Lit "butter"; Lit "cream cheese";
                    Lit "sour cream"; Lit "cottage cheese"; Lit "milk"; Lit "egg"] t
  then "Dairy"
  else if mentions [Lit "sauce"; Lit "ketchup"; Lit "mustard"; Lit "mayo";
                    Lit "dressing"; Lit "salsa"; Lit "soup"; Lit "broth"; Lit "pasta";
                    Lit "rice"; Lit "bean"; Lit "canned"] t
  then "Pantry"
  else if mentions [Lit "chicken"; Lit "beef"; Lit "pork"; Lit "turkey"; Lit "bacon";
                    Lit "sausage"; Lit "hot dog"; Lit "deli"; Lit "meat"; Lit "fish";
                    Lit "shrimp"; Lit "salmon"] t
  then "Meat"
  else if mentions [Lit "peanut butter"; Lit "jam"; Lit "jelly"; Lit "honey";
                    Lit "syrup"; Lit "spread"; Lit "nutella"] t
  then "Spreads"
  else "Other".

(** The dict [mapping] of [normalize_unit]. *)
Definition mapping : gmap string string :=
  list_to_map [
    ("fl oz", "fl oz"); ("fl. oz", "fl oz"); ("ounce", "oz");
    ("pound", "lb"); ("gram", "g"); ("liter", "l");
    ("pint", "pt"); ("quart", "qt"); ("gallon", "gal");
    ("sheet", "sheets"); ("roll", "rolls"); ("piece", "ct");
    ("sq ft", "sq ft"); ("sq. ft", "sq ft")
  ].

(** [u.lower().strip().rstrip("s")] *)
Definition unit_token (u : string) : string :=
  PyStr.rstrip_char "s"%char (PyStr.strip (PyStr.lower u)).

(** [u] is [None] for Python's [None]. *)
Definition normalize_unit (u : option string) : string :=
  if negb (PyStr.truthy u) then "oz"
  else
    let t := unit_token (default EmptyString u) in
    default t (mapping !! t).

(** *** [parse_text], one definition per step of its body *)

Fixpoint first_brand (brands : list string) (text_lower : string) : option string :=
  match brands with
  | [] => None
  | b :: rest =>
      if PyStr.contains b text_lower then Some b else first_brand rest text_lower
  end.

(** Brand detection: the loop over [KNOWN_BRANDS] up to its [break]. *)
Definition brand_step (text : string) (r : ExtractedSignals) : ExtractedSignals :=
  match first_brand KNOWN_BRANDS (PyStr.lower text) with
  | Some b => add_fields_found 1 (set_brand (Some (PyStr.title b)) r)
  | None => r
  end.

(** [m = FROM_TO_PATTERN.search(text)], then [ARROW_PATTERN] if that
    found nothing. *)
Definition explicit_match (text : string) : option groups :=
  match search FROM_TO_PATTERN text with
  | Some m => Some m
  | None => search ARROW_PATTERN text
  end.

(** Explicit from->to size change. *)
Definition explicit_step (text : string) (r : ExtractedSignals)
  : option ExtractedSignals :=
  match explicit_match text with
  | None => Some r
  | Some m =>
      old_val ← float_of_group m 1;
      new_val ← float_of_group m 3;
      let old_unit := normalize_unit (Some (PyStr.or_else (group m 2) "oz")) in
      let new_unit := normalize_unit (Some (PyStr.or_else (group m 4) old_unit)) in
      if PrimFloat.ltb new_val old_val
      then Some (add_fields_found 2 (set_explicit_from_to true
                   (set_sizes old_val new_val old_unit new_unit r)))
      else if PrimFloat.ltb old_val new_val
      then Some (add_fields_found 2 (set_explicit_from_to true
                   (set_sizes new_val old_val new_unit old_unit r)))
      else Some r
  end.

(** The fallback over all unit mentions, first and last. *)
Definition implicit_step (text : string) (r : ExtractedSignals)
  : option ExtractedSignals :=
  if explicit_from_to r then Some r
  else
    let units := findall UNIT_PATTERN text in
    match units with
    | [] => Some r
    | [u] =>
        v ← PyFloat.of_decimal (group_text u 1);
        Some (set_new_unit (Some (normalize_unit (Some (group_text u 2))))
                (set_new_size (Some v) r))
    | first :: _ :: _ =>
        old_val ← PyFloat.of_decimal (group_text first 1);
        let old_unit := normalize_unit (Some (group_text first 2)) in
        final ← last units;
        new_val ← PyFloat.of_decimal (group_text final 1);
        let new_unit := normalize_unit (Some (group_text final 2)) in
        if negb (PrimFloat.eqb old_val new_val) && String.eqb old_unit new_unit
        then
          let r1 := if PrimFloat.ltb new_val old_val
                    then set_new_size (Some new_val) (set_old_size (Some old_val) r)
                    else set_new_size (Some old_val) (set_old_size (Some new_val) r) in
          Some (add_fields_found 1
                  (set_new_unit (Some new_unit) (set_old_unit (Some old_unit) r1)))
        else Some r
    end.

(** Price mentions. *)
Definition price_step (text : string) (r : ExtractedSignals)
  : option ExtractedSignals :=
  let prices := findall PRICE_PATTERN text in
  match prices with
  | [] => Some r
  | [p] =>
      v ← PyFloat.of_decimal (group_text p 1);
      Some (set_new_price (Some v) r)
  | first :: _ :: _ =>
      old ← PyFloat.of_decimal (group_text first 1);
      final ← last prices;
      new ← PyFloat.of_decimal (group_text final 1);
      Some (add_fields_found 1
              (set_new_price (Some new) (set_old_price (Some old) r)))
  end.

(** [^\[?META\]?\s*] and [^\[?Discussion\]?\s*] *)
Definition META_PREFIX : pattern := compile
  (seq [Bos; Opt (Lit "["); Lit "META"; Opt (Lit "]"); many space]) true.
Definition DISCUSSION_PREFIX : pattern := compile
  (seq [Bos; Opt (Lit "["); Lit "Discussion"; Opt (Lit "]"); many space]) true.

(** The product hint: the first line, 120 characters at most, without the
    common prefixes. *)
Definition hint_step (text : string) (r : ExtractedSignals) : ExtractedSignals :=
  let first_line := PyStr.slice_to 120 (PyStr.first_line (PyStr.strip text)) in
  let cleaned := sub_prefix META_PREFIX first_line in
  let cleaned := sub_prefix DISCUSSION_PREFIX cleaned in
  set_product_hint (Some (PyStr.strip cleaned)) r.

(** [None] stands for an exception raised by [float]. *)
Definition parse_text (text : string) : option ExtractedSignals :=
  r ← explicit_step text (brand_step text empty_signals);
  r ← implicit_step text r;
  r ← price_step text r;
  Some (hint_step text r).

Definition confidence_tier (parsed : ExtractedSignals) : Tier :=
  let f := fields_found parsed in
  if (TIER_AUTO_THRESHOLD <=? f) && PyStr.truthy (brand parsed)
     && explicit_from_to parsed
  then Auto
  else if TIER_REVIEW_THRESHOLD <=? f then Review
  else Discard.

(** *** Posts, staging entries and the scraping loop *)

(** A post as the JSON listing gives it; [None] is a key the dict lacks. *)
Record Post : Type := mkPost {
  post_id : option string;
  post_permalink : option string;
  post_title : option string;
  post_selftext : option string;
  post_subreddit : option string;
  post_created_utc : option Z;
  post_score : option Z;
  post_num_comments : option Z
}.

(** What [datetime] answers during a run.  [utcfromtimestamp ts] is [None]
    where the call raises, which it does on a timestamp out of the range of
    [datetime]; the answer depends on the timestamp only.  [now n] is the
    answer of the call of [datetime.now(tz=timezone.utc)] that [n] such
    calls have gone before. *)
Record Clock : Type := mkClock {
  utcfromtimestamp : Z -> option DateTime;
  now : nat -> DateTime
}.

Inductive Status : Type := pending | promoted.

Record StagingEntry : Type := mkEntry {
  source_url : string;
  subreddit : string;
  posted_utc : option string;
  scraped_utc : string;
  tier : Tier;
  status : Status;
  title : string;
  signals : ExtractedSignals;
  score : Z;
  num_comments : Z;
  date_noticed : option string
}.

Definition newline : string := String (ascii_of_nat 10) EmptyString.

(** [f"https://reddit.com{permalink}" if permalink.startswith("/") else permalink] *)
Definition post_url (post : Post) : string :=
  let permalink := default EmptyString (post_permalink post) in
  if PyStr.starts_with "/" permalink then "https://reddit.com" ++ permalink
  else permalink.

(** [calls] counts the calls of [datetime.now] made so far; the result is
    the entry with the count after the call, and [None] where
    [utcfromtimestamp] raises.  A timestamp that is set is converted for
    [date_noticed] and again for [posted_utc], with the same answer. *)
Definition build_entry (clock : Clock) (calls : nat) (post : Post)
           (parsed : ExtractedSignals) (t : Tier) : option (StagingEntry * nat) :=
  let created_utc := default 0 (post_created_utc post) in
  let entry (posted_utc : option string) (scraped_utc date_noticed : string) :=
    {| source_url := post_url post;
       subreddit := default "shrinkflation" (post_subreddit post);
       posted_utc := posted_utc;
       scraped_utc := scraped_utc;
       tier := t;
       status := pending;
       title := PyStr.slice_to 200 (PyStr.or_else (post_title post) "");
       signals := parsed;
       score := default 0 (post_score post);
       num_comments := default 0 (post_num_comments post);
       date_noticed := Some date_noticed |} in
  if negb (created_utc =? 0)
  then
    post_date ← utcfromtimestamp clock created_utc;
    Some (entry (Some (isoformat post_date)) (isoformat (now clock calls))
                (month_start post_date),
          S calls)
  else
    Some (entry None (isoformat (now clock (S calls)))
                (month_start (now clock calls)),
          S (S calls)).

(** The counters of a run, a dict from counter name to count. *)
Abbreviation Stats := (gmap string Z).

Definition initial_stats : Stats :=
  list_to_map [("seen", 0); ("skipped_dup", 0); ("auto", 0); ("review", 0);
               ("discard", 0); ("no_keyword", 0)].

(** [stats[key] += 1] *)
Definition bump (key : string) (stats : Stats) : Stats :=
  <[key := default 0 (stats !! key) + 1]> stats.

Definition has_keyword (full_text : string) : bool :=
  bool_decide (is_Some (search SHRINK_KEYWORDS full_text)).

Definition full_text_of (post : Post) : string :=
  default EmptyString (post_title post) ++ newline
    ++ PyStr.or_else (post_selftext post) "".

(** A post is kept when it comes from r/shrinkflation or shows a keyword. *)
Definition relevant (post : Post) : bool :=
  String.eqb (PyStr.lower (default EmptyString (post_subreddit post))) "shrinkflation"
  || has_keyword (full_text_of post).

(** The state of the loop of [process_posts]: [(entries, new_urls, stats)]. *)
Definition Scan : Type := list StagingEntry * gset string * Stats.

(** One turn of the loop of [process_posts], with the calls of
    [datetime.now] counted; [None] is an exception, which ends the run.
    The line logged for an entry converts the timestamp once more, which
    [build_entry] has converted by then. *)
Definition process_post (clock : Clock) (known_urls : gset string) (post : Post)
           (st : Scan) (calls : nat) : option (Scan * nat) :=
  let '(entries, new_urls, stats) := st in
  let stats := bump "seen" stats in
  let url := post_url post in
  if bool_decide (url ∈ known_urls)
  then Some ((entries, new_urls, bump "skipped_dup" stats), calls)
  else if negb (relevant post)
  then Some ((entries, {[url]} ∪ new_urls, bump "no_keyword" stats), calls)
  else
    parsed ← parse_text (full_text_of post);
    let t := confidence_tier parsed in
    let stats := bump (tier_name t) stats in
    '(entries, calls) ←
      match t with
      | Discard => Some (entries, calls)
      | _ =>
          '(entry, calls) ← build_entry clock calls post parsed t;
          Some ((entries ++ [entry])%list, calls)
      end;
    Some ((entries, {[url]} ∪ new_urls, stats), calls).

Fixpoint process_loop (clock : Clock) (known_urls : gset string)
         (posts : list Post) (st : Scan) (calls : nat) : option (Scan * nat) :=
  match posts with
  | [] => Some (st, calls)
  | post :: rest =>
      '(st', calls') ← process_post clock known_urls post st calls;
      process_loop clock known_urls rest st' calls'
  end.

Definition process_posts (clock : Clock) (posts : list Post)
           (known_urls : gset string) : option Scan :=
  '(st, _) ← process_loop clock known_urls posts ([], ∅, initial_stats) 0%nat;
  Some st.

(** The registry [run_recent] and [run_backfill] save after a run:
    [known_urls |= new_urls]. *)
Definition updated_known_urls (known_urls new_urls : gset string) : gset string :=
  known_urls ∪ new_urls.

(** *** Promotion of staged entries to products and events *)

(** A row of [reddit_staging]: the entry and the id the table gave it. *)
Record StagingRow : Type := mkRow { id : string; entry : StagingEntry }.

Record Product : Type := mkProduct {
  product_upc : string;
  product_name : string;
  product_brand : option string;
  product_category : string;
  product_current_size : float;
  product_unit : string;
  product_type : string;
  product_repeat_offender : bool;
  product_source : string
}.

Record Event : Type := mkEvent {
  event_upc : string;
  event_date : string;
  event_old_size : float;
  event_new_size : float;
  event_unit : string;
  event_pct : float;
  event_price_before : option float;
  event_price_after : option float;
  event_type : string;
  event_notes : string;
  event_source : string
}.

(** The three tables; [products] is keyed by [upc], the conflict column of
    its upsert. *)
Record Db : Type := mkDb {
  reddit_staging : list StagingRow;
  products : gmap string Product;
  events : list Event
}.

(** [select("*").eq("tier", "auto").eq("status", "pending")] *)
Definition pending_auto (row : StagingRow) : bool :=
  match tier (entry row), status (entry row) with
  | Auto, pending => true
  | _, _ => false
  end.

(** [round(((old_s - new_s) / old_s) * 100, 2) if old_s > 0 else 0];
    [None] stands for [ZeroDivisionError]. *)
Definition shrink_pct (old_s new_s : float) : option float :=
  if PrimFloat.ltb 0 old_s
  then q ← PyFloat.truediv (old_s - new_s) old_s;
       Some (PyFloat.round2 (q * 100))
  else Some 0%float.

(** [entry.get("new_unit") or entry.get("old_unit") or "oz"] *)
Definition record_unit (e : StagingEntry) : string :=
  PyStr.or_else (new_unit (signals e))
    (PyStr.or_else (old_unit (signals e)) "oz").

(** The guard at the head of the promotion loop: both sizes are truthy. *)
Definition has_sizes (e : StagingEntry) : bool :=
  PyFloat.truthy (old_size (signals e)) && PyFloat.truthy (new_size (signals e)).

(** [entry.get("date_noticed") or entry.get("posted_utc", "")[:10]];
    slicing a null [posted_utc] raises. *)
Definition event_date_of (e : StagingEntry) : option string :=
  if PyStr.truthy (date_noticed e) then date_noticed e
  else PyStr.slice_to 10 <$> posted_utc e.

Definition set_status (s : Status) (e : StagingEntry) : StagingEntry :=
  mkEntry (source_url e) (subreddit e) (posted_utc e) (scraped_utc e) (tier e) s
          (title e) (signals e) (score e) (num_comments e) (date_noticed e).

(** [update({"status": "promoted"}).eq("id", i)] *)
Definition mark_promoted (i : string) (rows : list StagingRow) : list StagingRow :=
  (fun row => if String.eqb (id row) i
              then mkRow (id row) (set_status promoted (entry row))
              else row) <$> rows.

(** The product and the event written for a row that passed the guard. *)
Definition records_of (row : StagingRow) : option (Product * Event) :=
  let e := entry row in
  let upc := "REDDIT-" ++ PyStr.slice_to 8 (id row) in
  old_s ← old_size (signals e);
  new_s ← new_size (signals e);
  let unit := record_unit e in
  pct ← shrink_pct old_s new_s;
  let name := PyStr.slice_to 100 (PyStr.or_else (product_hint (signals e)) "Unknown Product") in
  let brand := brand (signals e) in
  date ← event_date_of e;
  let category := guess_category (name ++ " " ++ PyStr.or_else brand "") in
  Some (mkProduct upc name brand category new_s unit "shrinkflation" false "reddit_bot",
        mkEvent upc date old_s new_s unit pct
                (old_price (signals e)) (new_price (signals e)) "shrinkflation"
                ("Auto-imported from r/shrinkflation: " ++ source_url e)
                "reddit_bot").

(** The three writes of the loop, as the store carries them out. *)
Definition upsert_product (product : Product) (db : Db) : Db :=
  mkDb (reddit_staging db) (<[product_upc product := product]> (products db))
       (events db).

Definition insert_event (event : Event) (db : Db) : Db :=
  mkDb (reddit_staging db) (products db) (events db ++ [event])%list.

Definition update_status (i : string) (db : Db) : Db :=
  mkDb (mark_promoted i (reddit_staging db)) (products db) (events db).

(** The store may refuse a request: [execute()] then raises and the tables
    stay as they are.  The requests of a run are counted in the order
    sent, from 0, and [refused n] tells whether request [n] is refused.
    The result is the store, the count of requests sent and whether the
    request returned. *)
Definition execute (refused : nat -> bool) (write : Db -> Db) (db : Db)
           (sent : nat) : Db * nat * bool :=
  if refused sent then (db, S sent, false) else (write db, S sent, true).

(** One turn of the promotion loop: the store after it, whether the entry
    was promoted and the requests sent so far; [None] is an exception
    raised before the [try], which leaves the loop.  A request refused
    inside the [try] ends the turn: the writes before it stay, the entry
    is not counted, and the loop goes on. *)
Definition promote_entry (refused : nat -> bool) (row : StagingRow) (db : Db)
           (sent : nat) : option (Db * Z * nat) :=
  if negb (has_sizes (entry row)) then Some (db, 0, sent)
  else
    '(product, event) ← records_of row;
    let '(db, sent, ok) := execute refused (upsert_product product) db sent in
    if negb ok then Some (db, 0, sent)
    else
      let '(db, sent, ok) := execute refused (insert_event event) db sent in
      if negb ok then Some (db, 0, sent)
      else
        let '(db, sent, ok) :=
          execute refused (update_status (id row)) db sent in
        if negb ok then Some (db, 0, sent)
        else Some (db, 1, sent).

(** The loop; an exception ends it and keeps what was written so far. *)
Fixpoint promote_loop (refused : nat -> bool) (entries : list StagingRow)
         (db : Db) (count : Z) (sent : nat) : Db * option Z :=
  match entries with
  | [] => (db, Some count)
  | row :: rest =>
      match promote_entry refused row db sent with
      | Some (db', n, sent') => promote_loop refused rest db' (count + n) sent'
      | None => (db, None)
      end
  end.

(** The select is request 0; refused, it raises before the loop. *)
Definition promote_auto_entries (refused : nat -> bool) (db : Db)
  : Db * option Z :=
  if refused 0%nat then (db, None)
  else
    promote_loop refused
                 (filter (fun row => pending_auto row = true) (reddit_staging db))
                 db 0 1%nat.

(** *** The registry file *)

(** [load_known_urls]: the lines of the file as a set, or the empty set
    when there is no file ([None]).  Reading in text mode turns CR and
    CR LF into LF, which leaves the lines the same. *)
Definition load_known_urls (file : option string) : gset string :=
  match file with
  | Some text => list_to_set (PyLines.splitlines text)
  | None => ∅
  end.

(** [save_known_urls]: the text written to the file. *)
Definition save_known_urls (urls : gset string) : string :=
  PyLines.join newline (PyLines.sorted (elements urls)).

(** *** [run_recent]: one post per id *)

(** The loop of [run_recent] that keeps the first post of each [id]; a
    post whose [id] is missing or empty is dropped. *)
Fixpoint unique_loop (all_posts : list Post) (seen_ids : gset string)
         (unique_posts : list Post) : list Post :=
  match all_posts with
  | [] => unique_posts
  | p :: rest =>
      let pid := post_id p in
      if PyStr.truthy pid
         && negb (bool_decide (default EmptyString pid ∈ seen_ids))
      then unique_loop rest ({[default EmptyString pid]} ∪ seen_ids)
                       (unique_posts ++ [p])%list
      else unique_loop rest seen_ids unique_posts
  end.

Definition unique_posts (all_posts : list Post) : list Post :=
  unique_loop all_posts ∅ [].

(** *** [upsert_to_supabase] *)

(** The client of the staging table, as the function sees it: a request
    with a batch or with a single entry leaves the store in some state and
    either returns or raises. *)
Record Client (S : Type) : Type := mkClient {
  upsert_batch : S -> list StagingEntry -> S * bool;
  upsert_entry : S -> StagingEntry -> S * bool
}.
Arguments upsert_batch {S}.
Arguments upsert_entry {S}.

(** [entries[i:i + 50] for i in range(0, len(entries), 50)] *)
Definition batches (entries : list StagingEntry) : list (list StagingEntry) :=
  (fun k : nat => take 50%nat (drop (50 * k)%nat entries))
    <$> List.seq 0 ((length entries + 49) / 50)%nat.

(** The entries of a refused batch, one by one. *)
Fixpoint upsert_singles {S : Type} (client : Client S)
         (batch : list StagingEntry) (st : S) (upserted : Z) : S * Z :=
  match batch with
  | [] => (st, upserted)
  | e :: rest =>
      let '(st', ok) := upsert_entry client st e in
      upsert_singles client rest st' (if ok then upserted + 1 else upserted)
  end.

Fixpoint upsert_batches {S : Type} (client : Client S)
         (todo : list (list StagingEntry)) (st : S) (upserted : Z) : S * Z :=
  match todo with
  | [] => (st, upserted)
  | batch :: rest =>
      let '(st', ok) := upsert_batch client st batch in
      let '(st'', n) :=
        if ok then (st', upserted + Z.of_nat (length batch))
        else upsert_singles client batch st' upserted in
      upsert_batches client rest st'' n
  end.

(** The store after the requests and the count returned. *)
Definition upsert_to_supabase {S : Type} (client : Client S)
           (entries : list StagingEntry) (st : S) : S * Z :=
  match entries with
  | [] => (st, 0)
  | _ => upsert_batches client (batches entries) st 0
  end.

End RedditPublicScraper.

(** ** reddit_scraper.py *)

Module RedditScraper.

Import Re.

Definition TIER_AUTO_THRESHOLD : Z := 3.
Definition TIER_REVIEW_THRESHOLD : Z := 1.

Definition KNOWN_BRANDS : list string := [
  "tropicana"; "lays"; "lay's"; "doritos"; "gatorade"; "pepsi"; "coca-cola"; "coke";
  "hellmann's"; "hellmanns"; "unilever"; "general mills"; "cheerios"; "nature valley";
  "tide"; "dawn"; "bounty"; "charmin"; "folgers"; "maxwell house"; "starbucks";
  "oreo"; "nabisco"; "mondelez"; "campbell's"; "campbells"; "kraft"; "heinz";
  "heinz ketchup"; "kellogg's"; "kelloggs"; "special k"; "frosted flakes";
  "quaker"; "pepsico"; "post"; "planters"; "skippy"; "jif"; "peanut butter";
  "trader joe's"; "trader joes"; "costco"; "kirkland"; "whole foods"; "365";
  "ben & jerry's"; "haagen-dazs"; "breyers"; "blue bell";
  "tyson"; "perdue"; "oscar mayer"; "ball park"; "hebrew national";
  "minute maid"; "simply orange"; "florida's natural";
  "colgate"; "crest"; "oral-b"; "listerine";
  "febreze"; "glad"; "ziploc"; "scotch-brite";
  "stouffer's"; "lean cuisine"; "marie callender's";
  "progresso"; "amy's"; "annie's"; "horizon"
].

Definition fl_oz : regex := seq [Lit "fl"; Opt (Lit "."); many space; Lit "oz"].

Definition UNIT_PATTERN : pattern := compile
  (seq [Grp 1 number; many space;
        Grp 2 (alt [Lit "oz"; fl_oz; plural "ounce"; plural "lb"; plural "pound";
                    Lit "g"; plural "gram"; Lit "ml"; plural "liter"; Lit "ct";
                    Lit "count"; Lit "pack"; plural "piece"; plural "sheet"])])
  true.

Definition PRICE_PATTERN : pattern := compile
  (seq [Lit "$"; many space;
        Grp 1 (Cat (many1 digit) (Opt (Cat (Lit ".") (Rep digit 1 (Some 2%nat)))))])
  true.

Definition from_to_unit : regex :=
  alt [Lit "oz"; fl_oz; plural "ounce"; plural "lb"; plural "pound";
       Lit "g"; plural "gram"; Lit "ml"; Lit "ct"; Lit "count"].

Definition FROM_TO_PATTERN : pattern := compile
  (seq [alt [Lit "from"; Lit "was"; Lit "went from"; Lit "used to be";
             Lit "previously"; Cat (Lit "old") (Opt (Lit ":"))];
        many1 space;
        Grp 1 number; many space; Opt (Grp 2 from_to_unit);
        many space;
        alt [Lit "to"; Lit "now"; Lit "→"; Lit "->"; Lit "–"; Lit "-"];
        many space;
        Grp 3 number; many space; Opt (Grp 4 from_to_unit)])
  true.

Definition SHRINK_KEYWORDS : pattern := compile
  (seq [Bnd;
        Grp 1 (alt [Lit "shrinkflation"; Lit "shrunk"; Lit "smaller"; Lit "reduced";
                    Lit "less"; Lit "shrank"; Lit "downsized"; Lit "downsizing";
                    Lit "size cut"; Lit "weight cut"; Lit "ounces less";
                    Lit "fewer ounces"; Lit "net weight"; Lit "same price";
                    Lit "price increase"; Lit "got smaller"; Lit "getting smaller";
                    Lit "they reduced"; Lit "they cut"; Lit "less product";
                    seq [Lit "rip"; Opt (Alt (Lit "-") (Lit " ")); Lit "off"];
                    Lit "same box"; Lit "same package"; Lit "smaller amount"]);
        Bnd])
  true.

(** [u.lower().rstrip("s")] *)
Definition unit_token (u : string) : string :=
  PyStr.rstrip_char "s"%char (PyStr.lower u).

Fixpoint first_brand (brands : list string) (text_lower : string) : option string :=
  match brands with
  | [] => None
  | b :: rest =>
      if PyStr.contains b text_lower then Some b else first_brand rest text_lower
  end.

Definition brand_step (text : string) (r : ExtractedSignals) : ExtractedSignals :=
  match first_brand KNOWN_BRANDS (PyStr.lower text) with
  | Some b => add_fields_found 1 (set_brand (Some (PyStr.title b)) r)
  | None => r
  end.

(** The branch taken when [FROM_TO_PATTERN] matched. *)
Definition explicit_branch (m : groups) (r : ExtractedSignals)
  : option ExtractedSignals :=
  old_val ← float_of_group m 1;
  let old_unit := unit_token (PyStr.or_else (group m 2) "oz") in
  new_val ← float_of_group m 3;
  let new_unit := unit_token (PyStr.or_else (group m 4) old_unit) in
  Some (add_fields_found 2 (set_explicit_from_to true
          (set_new_unit (Some new_unit) (set_new_size (Some new_val)
             (set_old_unit (Some old_unit) (set_old_size (Some old_val) r)))))).

(** The [else] branch: first and last unit mention. *)
Definition implicit_branch (text : string) (r : ExtractedSignals)
  : option ExtractedSignals :=
  let units := findall UNIT_PATTERN text in
  match units with
  | [] => Some r
  | [u] =>
      v ← PyFloat.of_decimal (group_text u 1);
      Some (set_new_unit (Some (unit_token (group_text u 2)))
              (set_new_size (Some v) r))
  | first :: _ :: _ =>
      old_val ← PyFloat.of_decimal (group_text first 1);
      final ← last units;
      new_val ← PyFloat.of_decimal (group_text final 1);
      let r1 := set_new_unit (Some (unit_token (group_text final 2)))
                  (set_new_size (Some new_val)
                     (set_old_unit (Some (unit_token (group_text first 2)))
                        (set_old_size (Some old_val) r))) in
      if negb (PrimFloat.eqb old_val new_val)
      then Some (add_fields_found 1 r1)
      else Some r1
  end.

Definition size_step (text : string) (r : ExtractedSignals)
  : option ExtractedSignals :=
  match search FROM_TO_PATTERN text with
  | Some m => explicit_branch m r
  | None => implicit_branch text r
  end.

Definition price_step (text : string) (r : ExtractedSignals)
  : option ExtractedSignals :=
  let prices := findall PRICE_PATTERN text in
  match prices with
  | [] => Some r
  | [p] =>
      v ← PyFloat.of_decimal (group_text p 1);
      Some (set_new_price (Some v) r)
  | first :: _ :: _ =>
      old ← PyFloat.of_decimal (group_text first 1);
      final ← last prices;
      new ← PyFloat.of_decimal (group_text final 1);
      Some (add_fields_found 1
              (set_new_price (Some new) (set_old_price (Some old) r)))
  end.

Definition hint_step (text : string) (r : ExtractedSignals) : ExtractedSignals :=
  set_product_hint
    (Some (PyStr.slice_to 120 (PyStr.first_line (PyStr.strip text)))) r.

(** [None] stands for an exception raised by [float]. *)
Definition parse_text (text : string) : option ExtractedSignals :=
  r ← size_step text (brand_step text empty_signals);
  r ← price_step text r;
  Some (hint_step text r).

Definition confidence_tier (parsed : ExtractedSignals) : Tier :=
  let f := fields_found parsed in
  if (TIER_AUTO_THRESHOLD <=? f) && PyStr.truthy (brand parsed)
     && explicit_from_to parsed
  then Auto
  else if TIER_REVIEW_THRESHOLD <=? f then Review
  else Discard.

(** *** The scraping loop of [run_scraper] *)

(** A PRAW submission, by the attributes the scraper reads. *)
Record Post : Type := mkPost {
  post_permalink : string;
  post_title : string;
  post_selftext : option string;
  post_subreddit : string;
  post_created_utc : Z;
  post_score : Z;
  post_num_comments : Z
}.

(** What [datetime] answers during a run.  [fromtimestamp ts] stands for
    [datetime.fromtimestamp(ts, tz=timezone.utc)] and is [None] where the
    call raises, which it does on a timestamp out of the range of
    [datetime].  [now n] is the answer of the call of
    [datetime.now(tz=timezone.utc)] that [n] such calls have gone before. *)
Record Clock : Type := mkClock {
  fromtimestamp : Z -> option DateTime;
  now : nat -> DateTime
}.

Record StagingEntry : Type := mkEntry {
  source_url : string;
  subreddit : string;
  posted_utc : string;
  scraped_utc : string;
  tier : Tier;
  title : string;
  signals : ExtractedSignals;
  score : Z;
  num_comments : Z
}.

Definition newline : string := String (ascii_of_nat 10) EmptyString.

Definition post_url (post : Post) : string :=
  "https://reddit.com" ++ post_permalink post.

(** [calls] counts the calls of [datetime.now] made so far; the result is
    the entry with the count after the call, and [None] where
    [fromtimestamp] raises. *)
Definition build_entry (clock : Clock) (calls : nat) (post : Post)
           (parsed : ExtractedSignals) (t : Tier) : option (StagingEntry * nat) :=
  posted ← fromtimestamp clock (post_created_utc post);
  Some ({| source_url := post_url post;
           subreddit := post_subreddit post;
           posted_utc := isoformat posted;
           scraped_utc := isoformat (now clock calls);
           tier := t;
           title := PyStr.slice_to 200 (post_title post);
           signals := parsed;
           score := post_score post;
           num_comments := post_num_comments post |},
        S calls).

(** The staging queue: its two tier lists; the [meta] entry is
    bookkeeping of the run and is left out. *)
Record Queue : Type := mkQueue {
  queue_auto : list StagingEntry;
  queue_review : list StagingEntry
}.

(** [queue[tier].append(entry)] *)
Definition queue_append (t : Tier) (e : StagingEntry) (q : Queue) : Queue :=
  match t with
  | Auto => mkQueue (queue_auto q ++ [e])%list (queue_review q)
  | Review => mkQueue (queue_auto q) (queue_review q ++ [e])%list
  | Discard => q
  end.

Abbreviation Stats := (gmap string Z).

Definition initial_stats : Stats :=
  list_to_map [("seen", 0); ("skipped_dup", 0); ("auto", 0); ("review", 0);
               ("discard", 0); ("no_keyword", 0)].

Definition bump (key : string) (stats : Stats) : Stats :=
  <[key := default 0 (stats !! key) + 1]> stats.

Definition full_text_of (post : Post) : string :=
  post_title post ++ newline ++ PyStr.or_else (post_selftext post) "".

Definition has_keyword (full_text : string) : bool :=
  bool_decide (is_Some (search SHRINK_KEYWORDS full_text)).

(** The state of the loop: [(queue, new_urls, stats)]. *)
Definition Scan : Type := Queue * gset string * Stats.

(** One turn of the loop over the posts of a subreddit, with the calls of
    [datetime.now] counted; [None] is an exception, which ends the run. *)
Definition process_post (clock : Clock) (dry_run : bool) (known_urls : gset string)
           (post : Post) (st : Scan) (calls : nat) : option (Scan * nat) :=
  let '(queue, new_urls, stats) := st in
  let stats := bump "seen" stats in
  let url := post_url post in
  if bool_decide (url ∈ known_urls)
  then Some ((queue, new_urls, bump "skipped_dup" stats), calls)
  else if negb (has_keyword (full_text_of post))
  then Some ((queue, {[url]} ∪ new_urls, bump "no_keyword" stats), calls)
  else
    parsed ← parse_text (full_text_of post);
    let t := confidence_tier parsed in
    let stats := bump (tier_name t) stats in
    '(queue, calls) ←
      (if dry_run then Some (queue, calls)
       else match t with
            | Discard => Some (queue, calls)
            | _ =>
                '(entry, calls) ← build_entry clock calls post parsed t;
                Some (queue_append t entry queue, calls)
            end);
    Some ((queue, {[url]} ∪ new_urls, stats), calls).

Fixpoint process_loop (clock : Clock) (dry_run : bool) (known_urls : gset string)
         (posts : list Post) (st : Scan) (calls : nat) : option (Scan * nat) :=
  match posts with
  | [] => Some (st, calls)
  | post :: rest =>
      '(st', calls') ← process_post clock dry_run known_urls post st calls;
      process_loop clock dry_run known_urls rest st' calls'
  end.

(** The loops of [run_scraper] over what each subreddit returned (nothing
    for a subreddit whose fetch failed), and the registry it then holds:
    [known_urls |= new_urls]. *)
Definition run_scraper (clock : Clock) (dry_run : bool)
           (fetched : list (list Post)) (known_urls : gset string)
           (queue : Queue) : option (Queue * gset string * Stats) :=
  '((queue', new_urls, stats), _) ←
    process_loop clock dry_run known_urls (concat fetched)
                 (queue, ∅, initial_stats) 0%nat;
  Some (queue', known_urls ∪ new_urls, stats).

End RedditScraper.

(** ** What a match can look like

    A declarative reading of the expressions, used to show that the text a
    group captures has the form the code relies on (a number that [float]
    accepts). *)

Module ReShape.

Import Re.

Fixpoint all_chars (cls : ascii -> bool) (w : string) : bool :=
  match w with
  | EmptyString => true
  | String c w' => cls c && all_chars cls w'
  end.

(** [w] is the literal [l], up to case when [ic] is set. *)
Fixpoint lit_eq (ic : bool) (l w : string) : bool :=
  match l, w with
  | EmptyString, EmptyString => true
  | String a l', String b w' => same_char ic a b && lit_eq ic l' w'
  | _, _ => false
  end.

(** The words an expression can consume (the context conditions of [\b]
    and [^] and the upper bound of a repetition are not recorded). *)
Fixpoint shape (ic : bool) (r : regex) (w : string) : Prop :=
  match r with
  | Lit l => lit_eq ic l w = true
  | Rep cls lo _ => all_chars cls w = true /\ (lo <= String.length w)%nat
  | Cat r1 r2 => exists w1 w2, w = w1 ++ w2 /\ shape ic r1 w1 /\ shape ic r2 w2
  | Alt r1 r2 => shape ic r1 w \/ shape ic r2 w
  | Opt r1 => w = EmptyString \/ shape ic r1 w
  | Grp _ r1 => shape ic r1 w
  | Bnd | Bos => w = EmptyString
  end.

(** The expressions that stand under group [n]. *)
Fixpoint subgroups (r : regex) (n : nat) : list regex :=
  match r with
  | Cat r1 r2 | Alt r1 r2 => subgroups r1 n ++ subgroups r2 n
  | Opt r1 => subgroups r1 n
  | Grp m r1 => (if (m =? n)%nat then [r1] else []) ++ subgroups r1 n
  | _ => []
  end.

(** Group [n] takes part in every match of [r]. *)
Fixpoint sets (r : regex) (n : nat) : bool :=
  match r with
  | Cat r1 r2 => sets r1 n || sets r2 n
  | Alt r1 r2 => sets r1 n && sets r2 n
  | Grp m r1 => (m =? n)%nat || sets r1 n
  | _ => false
  end.

(** What a successful run hands to its continuation: it consumed a word
    [w] of the shape of [r], and put [new] in front of the groups, each
    new group holding a word of one of the expressions under it, and
    every group that [r] always sets being among them. *)
Definition handed {R : Type} (ic : bool) (r : regex) (c : cursor) (g : groups)
           (k : cursor -> groups -> option R) (x : R) : Prop :=
  exists w c' new,
    rest c = w ++ rest c' /\ taken c' = (taken c + String.length w)%nat
    /\ shape ic r w
    /\ k c' (new ++ g)%list = Some x
    /\ (forall n v, In (n, v) new ->
                    exists r', In r' (subgroups r n) /\ shape ic r' v)
    /\ (forall n, sets r n = true -> exists v, In (n, v) new).

(** Digits, or digits, a full stop and digits. *)
Definition is_decimal (w : string) : Prop :=
  (all_chars PyStr.is_digit w = true /\ w <> EmptyString) \/
  exists i f, w = i ++ "." ++ f
              /\ all_chars PyStr.is_digit i = true /\ i <> EmptyString
              /\ all_chars PyStr.is_digit f = true /\ f <> EmptyString.

(** Every group of [g] that is listed in [decimal_groups] holds a
    decimal, and each of [required] is there. *)
Definition groups_ok (required decimal_groups : list nat) (g : groups) : Prop :=
  (forall n, In n required -> is_Some (group g n)) /\
  (forall n w, In n decimal_groups -> group g n = Some w -> is_decimal w).

End ReShape.

(** ** Vocabulary of the statements *)

Module Pub := RedditPublicScraper.
Module Leg := RedditScraper.

(** No match of [p] starts inside [pre], the text read being [pre ++ rest]
    with [prev] just before it. *)
Fixpoint starts_none (p : Re.pattern) (prev : option ascii) (pre rest : string) : bool :=
  match pre with
  | EmptyString => true
  | String c pre' =>
      match Re.match_here p prev (pre ++ rest) with
      | None => starts_none p (Some c) pre' rest
      | Some _ => false
      end
  end.

(** The last character of [s], or [prev] when [s] is empty. *)
Fixpoint last_char (prev : option ascii) (s : string) : option ascii :=
  match s with
  | EmptyString => prev
  | String c s' => last_char (Some c) s'
  end.

(** The last character of [s] satisfies [p]. *)
Definition ends_with (p : ascii -> bool) (s : string) : bool :=
  match last_char None s with
  | Some c => p c
  | None => false
  end.

(** The phrase of the specification's first testable property. *)
Definition phrase : string := "from 52oz to 46oz".

(** How [fields_found] splits over the steps: one point for a brand, one
    for a pair of prices, the rest for the size step. *)
Definition brand_points (r : ExtractedSignals) : Z :=
  match brand r with Some _ => 1 | None => 0 end.

Definition price_points (r : ExtractedSignals) : Z :=
  match old_price r with Some _ => 1 | None => 0 end.

Definition size_points (r : ExtractedSignals) : Z :=
  fields_found r - brand_points r - price_points r.

(** The size step gave 2 points exactly when the change is explicit and at
    most 1 otherwise, and the counter lies in 0..4. *)
Definition fields_accounted (r : ExtractedSignals) : Prop :=
  (if explicit_from_to r then size_points r = 2
   else size_points r = 0 \/ size_points r = 1)
  /\ 0 <= fields_found r <= 4.

(** The four size fields are unset. *)
Definition no_size_signal (r : ExtractedSignals) : Prop :=
  old_size r = None /\ new_size r = None /\ old_unit r = None /\ new_unit r = None.

Module PubTerms.

Import Re RedditPublicScraper.

(** The unit pair of an explicit match, normalised as [parse_text] does. *)
Definition matched_old_unit (m : groups) : string :=
  normalize_unit (Some (PyStr.or_else (group m 2) "oz")).

Definition matched_new_unit (m : groups) : string :=
  normalize_unit (Some (PyStr.or_else (group m 4) (matched_old_unit m))).

(** The unit of a mention, normalised. *)
Definition mention_unit (u : groups) : string :=
  normalize_unit (Some (group_text u 2)).

(** The record the implicit step leaves for a first and a last mention
    that differ in value and agree in unit. *)
Definition implicit_pair (v1 v2 : float) (u1 u2 : string) (r : ExtractedSignals)
  : ExtractedSignals :=
  add_fields_found 1
    (set_new_unit (Some u2) (set_old_unit (Some u1)
       (if PrimFloat.ltb v2 v1
        then set_new_size (Some v2) (set_old_size (Some v1) r)
        else set_new_size (Some v1) (set_old_size (Some v2) r)))).

(** What the implicit step leaves in the result, by the first and the
    last of the mentions found. *)
Definition implicit_outcome (units : list groups) (r : ExtractedSignals) : Prop :=
  match units with
  | [] => no_size_signal r /\ size_points r = 0
  | [u] =>
      exists v, PyFloat.of_decimal (group_text u 1) = Some v
        /\ new_size r = Some v /\ new_unit r = Some (mention_unit u)
        /\ old_size r = None /\ old_unit r = None /\ size_points r = 0
  | first :: _ :: _ =>
      exists final v1 v2,
        last units = Some final
        /\ PyFloat.of_decimal (group_text first 1) = Some v1
        /\ PyFloat.of_decimal (group_text final 1) = Some v2
        /\ if negb (PrimFloat.eqb v1 v2)
              && String.eqb (mention_unit first) (mention_unit final)
           then old_size r = Some (if PrimFloat.ltb v2 v1 then v1 else v2)
                /\ new_size r = Some (if PrimFloat.ltb v2 v1 then v2 else v1)
                /\ old_unit r = Some (mention_unit first)
                /\ new_unit r = Some (mention_unit final)
                /\ size_points r = 1
           else no_size_signal r /\ size_points r = 0
  end.

(** One trailing [c] is removed, if there is one. *)
Fixpoint rstrip_one (c : ascii) (s : string) : string :=
  match s with
  | EmptyString => EmptyString
  | String a EmptyString => if PyStr.eq_char c a then EmptyString else s
  | String a s' => String a (rstrip_one c s')
  end.

(** The normalizer as the specification words it: a single trailing [s]
    is stripped. *)
Definition normalize_unit_single_suffix (u : option string) : string :=
  if negb (PyStr.truthy u) then "oz"
  else
    let t := rstrip_one "s"%char
               (PyStr.strip (PyStr.lower (default EmptyString u))) in
    default t (mapping !! t).

(** The posts of a batch that the registry already holds. *)
Definition duplicates (known_urls : gset string) (posts : list Post) : list Post :=
  filter (fun p => post_url p ∈ known_urls) posts.

(** The rows the promotion loop writes records for: pending, auto tier,
    both sizes truthy. *)
Definition promoted_rows (db : Db) : list StagingRow :=
  filter (fun row => has_sizes (entry row) = true)
         (filter (fun row => pending_auto row = true) (reddit_staging db)).

(** [upsert(..., on_conflict="upc")] of each product in turn. *)
Definition upsert_all (ps : list Product) (table : gmap string Product)
  : gmap string Product :=
  foldl (fun m p => <[product_upc p := p]> m) table ps.

(** The status update of each promoted row in turn. *)
Definition mark_all (rows table : list StagingRow) : list StagingRow :=
  foldl (fun t row => mark_promoted (id row) t) table rows.

End PubTerms.

Module LegTerms.

Import Re RedditScraper.

Definition matched_old_unit (m : groups) : string :=
  unit_token (PyStr.or_else (group m 2) "oz").

Definition matched_new_unit (m : groups) : string :=
  unit_token (PyStr.or_else (group m 4) (matched_old_unit m)).

Definition mention_unit (u : groups) : string := unit_token (group_text u 2).

(** The record after the explicit branch. *)
Definition explicit_record (v1 v3 : float) (u1 u3 : string) (r : ExtractedSignals)
  : ExtractedSignals :=
  add_fields_found 2 (set_explicit_from_to true
    (set_new_unit (Some u3) (set_new_size (Some v3)
       (set_old_unit (Some u1) (set_old_size (Some v1) r))))).

(** The record after the implicit branch found two mentions or more. *)
Definition implicit_record (v1 v2 : float) (u1 u2 : string) (r : ExtractedSignals)
  : ExtractedSignals :=
  let r1 := set_new_unit (Some u2) (set_new_size (Some v2)
              (set_old_unit (Some u1) (set_old_size (Some v1) r))) in
  if negb (PrimFloat.eqb v1 v2) then add_fields_found 1 r1 else r1.

(** What the size step leaves in the result when no explicit pattern
    matched: the first mention is the old size and the last the new one,
    whatever their units and order. *)
Definition implicit_outcome (units : list groups) (r : ExtractedSignals) : Prop :=
  match units with
  | [] => no_size_signal r /\ size_points r = 0
  | [u] =>
      exists v, PyFloat.of_decimal (group_text u 1) = Some v
        /\ new_size r = Some v /\ new_unit r = Some (mention_unit u)
        /\ old_size r = None /\ old_unit r = None /\ size_points r = 0
  | first :: _ :: _ =>
      exists final v1 v2,
        last units = Some final
        /\ PyFloat.of_decimal (group_text first 1) = Some v1
        /\ PyFloat.of_decimal (group_text final 1) = Some v2
        /\ old_size r = Some v1 /\ new_size r = Some v2
        /\ old_unit r = Some (mention_unit first)
        /\ new_unit r = Some (mention_unit final)
        /\ size_points r = (if PrimFloat.eqb v1 v2 then 0 else 1)
  end.

Definition queue_entries (q : Queue) : list StagingEntry :=
  queue_auto q ++ queue_review q.

Definition duplicates (known_urls : gset string) (posts : list Post) : list Post :=
  filter (fun p => post_url p ∈ known_urls) posts.

End LegTerms.

(** ** Vocabulary of the further properties *)

(** [stats[key]] *)
Definition counter (key : string) (stats : gmap string Z) : Z :=
  default 0 (stats !! key).

(** The six counters of a run. *)
Definition counter_names : gset string :=
  {["seen"; "skipped_dup"; "auto"; "review"; "discard"; "no_keyword"]}.

(** How many elements of [l] satisfy [P]. *)
Definition count_of {A : Type} (P : A -> Prop) `{!forall x, Decision (P x)}
           (l : list A) : Z :=
  Z.of_nat (length (filter P l)).

(** What the price step leaves in the result, by the price mentions found:
    the first mention is the old price and the last the new one, in the
    order of the text, and a pair counts as a field whatever the two
    values. *)
Definition price_outcome (prices : list Re.groups) (r : ExtractedSignals) : Prop :=
  match prices with
  | [] => old_price r = None /\ new_price r = None /\ price_points r = 0
  | [p] =>
      exists v, PyFloat.of_decimal (Re.group_text p 1) = Some v
        /\ new_price r = Some v /\ old_price r = None /\ price_points r = 0
  | first :: _ :: _ =>
      exists final v1 v2,
        last prices = Some final
        /\ PyFloat.of_decimal (Re.group_text first 1) = Some v1
        /\ PyFloat.of_decimal (Re.group_text final 1) = Some v2
        /\ old_price r = Some v1 /\ new_price r = Some v2
        /\ price_points r = 1
  end.

(** The fields of a record come in pairs: a size with its unit, an old
    value only beside a new one, and an explicit change with its sizes. *)
Definition paired (r : ExtractedSignals) : Prop :=
  (is_Some (old_size r) <-> is_Some (old_unit r))
  /\ (is_Some (new_size r) <-> is_Some (new_unit r))
  /\ (is_Some (old_size r) -> is_Some (new_size r))
  /\ (is_Some (old_price r) -> is_Some (new_price r))
  /\ (explicit_from_to r = true -> is_Some (old_size r)).

#[global] Instance Tier_eq_dec : EqDecision Tier.
Proof. solve_decision. Defined.

Module PubRun.

Import RedditPublicScraper.

(** What the loop of [process_posts] does with a post: the counter it
    increments besides [seen]. *)
Definition outcome (known_urls : gset string) (post : Post) : string :=
  if bool_decide (post_url post ∈ known_urls) then "skipped_dup"
  else if negb (relevant post) then "no_keyword"
  else match parse_text (full_text_of post) with
       | Some parsed => tier_name (confidence_tier parsed)
       | None => EmptyString
       end.

(** The signals and the tier with which the loop calls [build_entry] for
    a post, if it calls it: the post is not in the registry, is relevant
    and is not classified discard. *)
Definition to_stage (known_urls : gset string) (post : Post)
  : option (ExtractedSignals * Tier) :=
  if bool_decide (post_url post ∈ known_urls) then None
  else if negb (relevant post) then None
  else
    parsed ← parse_text (full_text_of post);
    match confidence_tier parsed with
    | Discard => None
    | t => Some (parsed, t)
    end.

(** The post has no timestamp, or one that [datetime] converts. *)
Definition in_range (clock : Clock) (post : Post) : Prop :=
  default 0 (post_created_utc post) = 0
  \/ is_Some (utcfromtimestamp clock (default 0 (post_created_utc post))).

(** The posts of the batch for which an entry is built have timestamps
    that [datetime] converts. *)
Definition timestamps_in_range (clock : Clock) (known_urls : gset string)
           (posts : list Post) : Prop :=
  forall p, p ∈ posts -> is_Some (to_stage known_urls p) -> in_range clock p.

(** The entries built for the posts of a batch, in order, after [calls]
    calls of [datetime.now], with the calls made by the end; [None] where
    a timestamp is out of range. *)
Fixpoint staged_from (clock : Clock) (known_urls : gset string) (calls : nat)
         (posts : list Post) : option (list StagingEntry * nat) :=
  match posts with
  | [] => Some ([], calls)
  | p :: rest =>
      match to_stage known_urls p with
      | None => staged_from clock known_urls calls rest
      | Some (parsed, t) =>
          '(e, calls') ← build_entry clock calls p parsed t;
          '(es, n) ← staged_from clock known_urls calls' rest;
          Some (e :: es, n)
      end
  end.

(** The posts of a batch that the registry does not hold. *)
Definition fresh_posts (known_urls : gset string) (posts : list Post) : list Post :=
  filter (fun p => post_url p ∉ known_urls) posts.

(** The words of the patterns of [guess_category], pattern by pattern in
    the order tried, each with the category it stands for; [chip[s]?] is
    listed by its word [chip]. *)
Definition category_words : list (list string * string) := [
  (["juice"; "soda"; "water"; "drink"; "coffee"; "tea"; "milk"; "creamer";
    "gatorade"; "powerade"; "lemonade"; "beer"; "wine"; "energy drink"],
   "Beverages");
  (["chip"; "cookie"; "cracker"; "pretzel"; "popcorn"; "candy"; "chocolate";
    "gum"; "snack"; "goldfish"; "cheeto"; "dorito"; "frito"; "pringles";
    "oreo"; "ritz"; "wheat thin"],
   "Snacks");
  (["cereal"; "oat"; "granola"; "cheerio"; "frosted flake"; "special k";
    "raisin bran"],
   "Cereal");
  (["paper towel"; "toilet paper"; "tissue"; "napkin"; "bounty"; "charmin";
    "scott"; "cottonelle"; "kleenex"],
   "Paper Goods");
  (["soap"; "shampoo"; "conditioner"; "detergent"; "cleaner"; "dish";
    "laundry"; "tide"; "dawn"; "lysol"; "clorox"; "toothpaste"; "deodorant"],
   "Household");
  (["ice cream"; "frozen"; "pizza"; "bagel bite"; "hot pocket"; "totino";
    "digiorno"; "stouffer"; "lean cuisine"],
   "Frozen");
  (["bread"; "bagel"; "muffin"; "roll"; "bun"; "tortilla"; "wrap"; "pita";
    "croissant"; "english muffin"],
   "Bakery");
  (["yogurt"; "cheese"; "butter"; "cream cheese"; "sour cream";
    "cottage cheese"; "milk"; "egg"],
   "Dairy");
  (["sauce"; "ketchup"; "mustard"; "mayo"; "dressing"; "salsa"; "soup";
    "broth"; "pasta"; "rice"; "bean"; "canned"],
   "Pantry");
  (["chicken"; "beef"; "pork"; "turkey"; "bacon"; "sausage"; "hot dog";
    "deli"; "meat"; "fish"; "shrimp"; "salmon"],
   "Meat");
  (["peanut butter"; "jam"; "jelly"; "honey"; "syrup"; "spread"; "nutella"],
   "Spreads")
].

(** The category of the first row of [table] one of whose words occurs
    in [t]. *)
Fixpoint category_by_words (table : list (list string * string)) (t : string)
  : string :=
  match table with
  | [] => "Other"
  | (words, category) :: rows =>
      if existsb (fun w => PyStr.contains w t) words then category
      else category_by_words rows t
  end.

(** An expression that matches exactly where the word [w] starts,
    whatever follows. *)
Definition anchored (r : Re.regex) (w : string) : Prop :=
  forall (c : Re.cursor) (g : Re.groups)
         (k : Re.cursor -> Re.groups -> option (Re.groups * Re.cursor)),
    (forall c' g', is_Some (k c' g')) ->
    (is_Some (Re.run false r c g k) <-> PyStr.starts_with w (Re.rest c) = true).

(** The alternatives [units] stop at [g] where the text begins with g or
    G, when what follows them always matches. *)
Definition takes_g (units : Re.regex) : Prop :=
  forall a t b n g
         (k : Re.cursor -> Re.groups -> option (Re.groups * Re.cursor)),
    a = "g"%char \/ a = "G"%char ->
    (forall c' g', is_Some (k c' g')) ->
    Re.run true units (Re.mkCursor b n (String a t)) g k
    = k (Re.mkCursor (Some a) (S n) t) g.

(** A clock whose [strftime("%Y-%m-01")] answers are not empty, as those
    of [datetime] are. *)
Definition dates_months (clock : Clock) : Prop :=
  (forall ts d, utcfromtimestamp clock ts = Some d -> month_start d <> EmptyString)
  /\ (forall n, month_start (now clock n) <> EmptyString).

(** An entry as [build_entry] makes it. *)
Definition built (e : StagingEntry) : Prop :=
  exists clock calls post parsed t calls',
    dates_months clock
    /\ build_entry clock calls post parsed t = Some (e, calls').

(** The row with its status set to promoted. *)
Definition marked (row : StagingRow) : StagingRow :=
  mkRow (id row) (set_status promoted (entry row)).

End PubRun.

Module LegRun.

Import RedditScraper.

Definition outcome (known_urls : gset string) (post : Post) : string :=
  if bool_decide (post_url post ∈ known_urls) then "skipped_dup"
  else if negb (has_keyword (full_text_of post)) then "no_keyword"
  else match parse_text (full_text_of post) with
       | Some parsed => tier_name (confidence_tier parsed)
       | None => EmptyString
       end.

(** The signals and the tier with which a run that writes calls
    [build_entry] for a post, if it calls it. *)
Definition to_stage (known_urls : gset string) (post : Post)
  : option (ExtractedSignals * Tier) :=
  if bool_decide (post_url post ∈ known_urls) then None
  else if negb (has_keyword (full_text_of post)) then None
  else
    parsed ← parse_text (full_text_of post);
    match confidence_tier parsed with
    | Discard => None
    | t => Some (parsed, t)
    end.

(** The timestamp of the post is one that [datetime] converts. *)
Definition in_range (clock : Clock) (post : Post) : Prop :=
  is_Some (fromtimestamp clock (post_created_utc post)).

Definition timestamps_in_range (clock : Clock) (known_urls : gset string)
           (posts : list Post) : Prop :=
  forall p, p ∈ posts -> is_Some (to_stage known_urls p) -> in_range clock p.

(** The entries a run that writes builds for the posts fetched, in order,
    after [calls] calls of [datetime.now], with the calls made by the end;
    [None] where a timestamp is out of range. *)
Fixpoint staged_from (clock : Clock) (known_urls : gset string) (calls : nat)
         (posts : list Post) : option (list StagingEntry * nat) :=
  match posts with
  | [] => Some ([], calls)
  | p :: rest =>
      match to_stage known_urls p with
      | None => staged_from clock known_urls calls rest
      | Some (parsed, t) =>
          '(e, calls') ← build_entry clock calls p parsed t;
          '(es, n) ← staged_from clock known_urls calls' rest;
          Some (e :: es, n)
      end
  end.

(** The queue after a run that staged [staged_entries]: each list of the
    queue receives the entries of its tier, in order; a dry run leaves the
    queue as it was. *)
Definition queue_after (dry_run : bool) (queue : Queue)
           (staged_entries : list StagingEntry) : Queue :=
  if dry_run then queue
  else mkQueue (queue_auto queue ++ filter (fun e => tier e = Auto) staged_entries)
               (queue_review queue
                  ++ filter (fun e => tier e = Review) staged_entries)%list.

Definition fresh_posts (known_urls : gset string) (posts : list Post) : list Post :=
  filter (fun p => post_url p ∉ known_urls) posts.

End LegRun.

(** ** Example data *)

Module Examples.

Import RedditPublicScraper.

(** A clock that converts the timestamps of the years 1 to 9999. *)
Definition clock : Clock :=
  mkClock (fun ts => if (-62135596800 <=? ts) && (ts <=? 253402300799)
                     then Some (mkDateTime "2026-02-13T16:26:40" "2026-02-01")
                     else None)
          (fun _ => mkDateTime "2026-02-20T06:00:01+00:00" "2026-02-01").

(** The post of the specification's end-to-end scenario. *)
Definition tropicana_post : Post :=
  mkPost (Some "1r5abc") (Some "/r/shrinkflation/comments/1r5abc/tropicana/")
         (Some "Tropicana OJ went from 52oz to 46oz, same price!") (Some "")
         (Some "shrinkflation") (Some 1771000000) (Some 847) (Some 142).

Definition tropicana_signals : ExtractedSignals :=
  mkSignals (Some "Tropicana")
            (Some "Tropicana OJ went from 52oz to 46oz, same price!")
            (Some 52%float) (Some 46%float) (Some "oz") (Some "oz")
            None None 3 true.

(** A post whose new size is zero. *)
Definition tide_post : Post :=
  mkPost (Some "1r5xyz") (Some "/r/shrinkflation/comments/1r5xyz/tide/")
         (Some "Tide went from 5oz to 0oz") (Some "")
         (Some "shrinkflation") (Some 1771000000) (Some 10) (Some 2).

Definition tide_signals : ExtractedSignals :=
  mkSignals (Some "Tide") (Some "Tide went from 5oz to 0oz")
            (Some 5%float) (Some 0%float) (Some "oz") (Some "oz")
            None None 3 true.

(** The entries [build_entry] makes of the two posts. *)
Definition tropicana_entry : StagingEntry :=
  mkEntry "https://reddit.com/r/shrinkflation/comments/1r5abc/tropicana/"
          "shrinkflation" (Some "2026-02-13T16:26:40")
          "2026-02-20T06:00:01+00:00" Auto pending
          "Tropicana OJ went from 52oz to 46oz, same price!"
          tropicana_signals 847 142 (Some "2026-02-01").

Definition tide_entry : StagingEntry :=
  mkEntry "https://reddit.com/r/shrinkflation/comments/1r5xyz/tide/"
          "shrinkflation" (Some "2026-02-13T16:26:40")
          "2026-02-20T06:00:01+00:00" Auto pending
          "Tide went from 5oz to 0oz" tide_signals 10 2 (Some "2026-02-01").

Definition tropicana_row : StagingRow :=
  mkRow "0a1b2c3d-0000-4000-8000-000000000001" tropicana_entry.

Definition tide_row : StagingRow :=
  mkRow "0a1b2c3d-0000-4000-8000-000000000002" tide_entry.

(** A post whose timestamp lies beyond the year 9999, and a store that
    accepts every request. *)
Definition late_post : Post :=
  mkPost (Some "1r5late") (Some "/r/shrinkflation/comments/1r5late/tropicana/")
         (Some "Tropicana OJ went from 52oz to 46oz, same price!") (Some "")
         (Some "shrinkflation") (Some 990000000000) (Some 3) (Some 0).

Definition accepting : nat -> bool := fun _ => false.

(** A store that refuses its third request and no other: the first
    insert of an event. *)
Definition refusing_insert : nat -> bool := fun n => (n =? 2)%nat.

(** A row as another writer may have left it: sizes, but neither a
    [date_noticed] nor a [posted_utc]. *)
Definition undated_row : StagingRow :=
  mkRow "0a1b2c3d-0000-4000-8000-000000000003"
        (mkEntry "https://reddit.com/r/shrinkflation/comments/1r5abc/tropicana/"
                 "shrinkflation" None "2026-02-20T06:00:01+00:00" Auto pending
                 "Tropicana OJ went from 52oz to 46oz, same price!"
                 tropicana_signals 847 142 None).

Definition db_of (rows : list StagingRow) : Db := mkDb rows ∅ [].

Definition tropicana_product : Product :=
  mkProduct "REDDIT-0a1b2c3d"
            "Tropicana OJ went from 52oz to 46oz, same price!"
            (Some "Tropicana") "Pantry" 46 "oz" "shrinkflation" false "reddit_bot".

Definition tropicana_event : Event :=
  mkEvent "REDDIT-0a1b2c3d" "2026-02-01" 52 46 "oz" 11.54 None None
          "shrinkflation"
          "Auto-imported from r/shrinkflation: https://reddit.com/r/shrinkflation/comments/1r5abc/tropicana/"
          "reddit_bot".

End Examples.

Module LegExamples.

Import RedditScraper.

Definition clock : Clock :=
  mkClock (fun ts => if (-62135596800 <=? ts) && (ts <=? 253402300799)
                     then Some (mkDateTime "2026-02-13T16:26:40+00:00" "2026-02-01")
                     else None)
          (fun _ => mkDateTime "2026-02-20T06:00:01+00:00" "2026-02-01").

Definition tropicana_post : Post :=
  mkPost "/r/shrinkflation/comments/1r5abc/tropicana/"
         "Tropicana OJ went from 52oz to 46oz, same price!" (Some "")
         "shrinkflation" 1771000000 847 142.

(** A post whose timestamp lies beyond the year 9999. *)
Definition late_post : Post :=
  mkPost "/r/shrinkflation/comments/1r5late/tropicana/"
         "Tropicana OJ went from 52oz to 46oz, same price!" (Some "")
         "shrinkflation" 990000000000 3 0.

Definition empty_queue : Queue := mkQueue [] [].

End LegExamples.

(** * Properties *)

(** ** Strings *)

Section StringFacts.

Implicit Types (a b c s w : string).

Lemma append_nil s : "" ++ s = s.
Proof. reflexivity. Qed.

Lemma append_cons (x : ascii) a b : String x a ++ b = String x (a ++ b).
Proof. reflexivity. Qed.

Lemma append_empty_r s : s ++ "" = s.
Proof.
  induction s as [|x s IH]; [reflexivity|]. now rewrite append_cons, IH.
Qed.

Lemma append_assoc a b c : (a ++ b) ++ c = a ++ (b ++ c).
Proof.
  induction a as [|x a IH]; [reflexivity|]. now rewrite !append_cons, IH.
Qed.

Lemma length_append a b :
  String.length (a ++ b) = (String.length a + String.length b)%nat.
Proof.
  induction a as [|x a IH]; [reflexivity|].
  rewrite append_cons. simpl. now rewrite IH.
Qed.

Lemma take_append w s : PyStr.take (String.length w) (w ++ s) = w.
Proof.
  induction w as [|x w IH]; [now destruct s|].
  rewrite append_cons. simpl. now rewrite IH.
Qed.

Lemma not_empty w : w <> "" -> PyStr.is_empty w = false.
Proof. now destruct w. Qed.

(** [rstrip] splits a string into what it keeps and a run of the
    stripped character, and what it keeps does not end in it. *)
Lemma drop_while_end_spec (p : ascii -> bool) s :
  exists trailing,
    s = PyStr.drop_while_end p s ++ trailing
    /\ ReShape.all_chars p trailing = true
    /\ ends_with p (PyStr.drop_while_end p s) = false.
Proof.
  induction s as [|x s (trailing & Hs & Hall & Hend)].
  - exists "". auto.
  - simpl. destruct (PyStr.drop_while_end p s) as [|d t] eqn:E.
    + rewrite append_nil in Hs. subst trailing.
      destruct (p x) eqn:Ex.
      * exists (String x s). simpl. rewrite Ex. auto.
      * exists s. unfold ends_with. simpl. auto.
    + exists trailing. rewrite !append_cons in *. rewrite <- Hs.
      repeat split; auto.
Qed.

Lemma title_from_not_empty (cased : bool) s :
  s <> "" -> PyStr.title_from cased s <> "".
Proof.
  destruct s as [|x s]; [congruence|]. intros _. simpl.
  destruct (PyStr.is_alpha x); discriminate.
Qed.

End StringFacts.

(** ** The matcher is sound for the shapes *)

Section MatcherFacts.

Import Re ReShape.

Context {R : Type}.

Lemma lit_sound ic l : forall b t s (k : cursor -> option R) x,
  lit ic l b t s k = Some x ->
  exists w s' b', s = w ++ s' /\ lit_eq ic l w = true
                  /\ k (mkCursor b' (t + String.length w) s') = Some x.
Proof.
  induction l as [|a l IH]; intros b t s k x H; simpl in H.
  - exists "", s, b. rewrite Nat.add_0_r. auto.
  - destruct s as [|c s]; [discriminate|].
    destruct (same_char ic a c) eqn:E; [|discriminate].
    apply IH in H as (w & s' & b' & -> & Hw & Hk).
    exists (String c w), s', b'. simpl. rewrite E, Hw.
    replace (t + S (String.length w))%nat with (S t + String.length w)%nat by lia.
    auto.
Qed.

Lemma rep_stop_sound cls lo s n b t (k : cursor -> option R) x :
  (if (lo <=? n)%nat then k (mkCursor b t s) else None) = Some x ->
  exists w s' b', s = w ++ s' /\ all_chars cls w = true
                  /\ (lo <= n + String.length w)%nat
                  /\ k (mkCursor b' (t + String.length w) s') = Some x.
Proof.
  intros H. destruct (lo <=? n)%nat eqn:E; [|discriminate].
  apply Nat.leb_le in E. exists "", s, b. simpl. rewrite !Nat.add_0_r. auto.
Qed.

Lemma rep_sound cls lo hi : forall s n b t (k : cursor -> option R) x,
  rep cls lo hi n b t s k = Some x ->
  exists w s' b', s = w ++ s' /\ all_chars cls w = true
                  /\ (lo <= n + String.length w)%nat
                  /\ k (mkCursor b' (t + String.length w) s') = Some x.
Proof.
  induction s as [|c s IH]; intros n b t k x H; simpl in H.
  - eapply rep_stop_sound; eassumption.
  - destruct (cls c && below n hi) eqn:E; [|eapply rep_stop_sound; eassumption].
    destruct (rep cls lo hi (S n) (Some c) (S t) s k) as [y|] eqn:E2;
      [|eapply rep_stop_sound; eassumption].
    injection H as ->. apply andb_prop in E as [Ec _].
    apply IH in E2 as (w & s' & b' & -> & Hw & Hlo & Hk).
    exists (String c w), s', b'. simpl. rewrite Ec, Hw.
    replace (t + S (String.length w))%nat with (S t + String.length w)%nat by lia.
    repeat split; auto. lia.
Qed.

Lemma run_sound ic r : forall c g (k : cursor -> groups -> option R) x,
  run ic r c g k = Some x -> handed ic r c g k x.
Proof.
  unfold handed.
  induction r as [l|cls lo hi|r1 IH1 r2 IH2|r1 IH1 r2 IH2|r1 IH1|m r1 IH1| |];
    intros c g k x H; simpl in H.
  - apply lit_sound in H as (w & s' & b' & Hs & Hw & Hk).
    exists w, (mkCursor b' (taken c + String.length w) s'), []. simpl.
    repeat split; auto; try easy.
  - apply rep_sound in H as (w & s' & b' & Hs & Hw & Hlo & Hk).
    exists w, (mkCursor b' (taken c + String.length w) s'), []. simpl.
    repeat split; auto; try easy.
  - apply IH1 in H as (w1 & c1 & new1 & Hs1 & Ht1 & Hw1 & Hk1 & Hg1 & Hm1).
    apply IH2 in Hk1 as (w2 & c2 & new2 & Hs2 & Ht2 & Hw2 & Hk2 & Hg2 & Hm2).
    exists (w1 ++ w2), c2, (new2 ++ new1)%list. simpl.
    rewrite append_assoc, <- Hs2, length_append, <- app_assoc.
    repeat split; auto; try lia.
    + exists w1, w2. auto.
    + intros n v Hin. apply in_app_or in Hin as [Hin|Hin].
      * apply Hg2 in Hin as (r' & ? & ?). exists r'. split; auto.
        apply in_or_app; auto.
      * apply Hg1 in Hin as (r' & ? & ?). exists r'. split; auto.
        apply in_or_app; auto.
    + intros n Hn. apply orb_prop in Hn as [Hn|Hn].
      * apply Hm1 in Hn as [v ?]. exists v. apply in_or_app; auto.
      * apply Hm2 in Hn as [v ?]. exists v. apply in_or_app; auto.
  - destruct (run ic r1 c g k) as [y|] eqn:E.
    + injection H as ->.
      apply IH1 in E as (w & c' & new & ? & ? & ? & ? & Hg & Hm).
      exists w, c', new. simpl. repeat split; auto.
      * intros n v Hin. apply Hg in Hin as (r' & ? & ?). exists r'.
        split; auto. apply in_or_app; auto.
      * intros n Hn. apply andb_prop in Hn as [Hn _]. auto.
    + apply IH2 in H as (w & c' & new & ? & ? & ? & ? & Hg & Hm).
      exists w, c', new. simpl. repeat split; auto.
      * intros n v Hin. apply Hg in Hin as (r' & ? & ?). exists r'.
        split; auto. apply in_or_app; auto.
      * intros n Hn. apply andb_prop in Hn as [_ Hn]. auto.
  - destruct (run ic r1 c g k) as [y|] eqn:E.
    + injection H as ->.
      apply IH1 in E as (w & c' & new & ? & ? & ? & ? & Hg & Hm).
      exists w, c', new. simpl. repeat split; auto. discriminate.
    + exists "", c, []. simpl. rewrite Nat.add_0_r.
      repeat split; auto; try easy.
  - apply IH1 in H as (w & c' & new & Hs & Ht & Hw & Hk & Hg & Hm).
    rewrite Ht, Hs in Hk.
    replace (taken c + String.length w - taken c)%nat
      with (String.length w) in Hk by lia.
    rewrite take_append in Hk.
    exists w, c', ((m, w) :: new). simpl. repeat split; auto.
    + intros n v [Hin|Hin].
      * injection Hin as -> ->. exists r1. rewrite Nat.eqb_refl. simpl. auto.
      * apply Hg in Hin as (r' & ? & ?). exists r'. split; auto.
        apply in_or_app; auto.
    + intros n Hn. apply orb_prop in Hn as [Hn|Hn].
      * apply Nat.eqb_eq in Hn as ->. exists w. auto.
      * apply Hm in Hn as [v ?]. exists v. auto.
  - destruct (xorb _ _); [|discriminate].
    exists "", c, []. simpl. rewrite Nat.add_0_r. repeat split; auto; try easy.
  - destruct (before c); [discriminate|].
    exists "", c, []. simpl. rewrite Nat.add_0_r. repeat split; auto; try easy.
Qed.

End MatcherFacts.

(** ** Groups of a match *)

Section GroupFacts.

Import Re ReShape.

Lemma group_in (g : groups) n w : group g n = Some w -> In (n, w) g.
Proof.
  induction g as [|[m v] g IH]; simpl; [discriminate|].
  destruct (m =? n)%nat eqn:E; intros H.
  - apply Nat.eqb_eq in E as ->. injection H as ->. auto.
  - auto.
Qed.

Lemma in_group (g : groups) n w : In (n, w) g -> is_Some (group g n).
Proof.
  induction g as [|[m v] g IH]; simpl; [tauto|].
  intros [H|H].
  - injection H as -> ->. rewrite Nat.eqb_refl. eauto.
  - destruct (m =? n)%nat; eauto.
Qed.

Lemma match_here_sound p prev s g c :
  match_here p prev s = Some (g, c) ->
  (forall n v, group g n = Some v ->
     exists r', In r' (subgroups (expr p) n) /\ shape (ignorecase p) r' v)
  /\ (forall n, sets (expr p) n = true -> is_Some (group g n)).
Proof.
  unfold match_here. intros H.
  apply run_sound in H as (w & c' & new & _ & _ & _ & Hk & Hg & Hm).
  rewrite app_nil_r in Hk. injection Hk as -> ->. split.
  - intros n v Hv. apply Hg. now apply group_in.
  - intros n Hn. apply Hm in Hn as [v Hv]. eapply in_group; eauto.
Qed.

Lemma search_from_match p : forall s prev g c,
  search_from p prev s = Some (g, c) ->
  exists prev' s', match_here p prev' s' = Some (g, c).
Proof.
  induction s as [|a s IH]; intros prev g c H; simpl in H.
  - destruct (match_here p prev "") as [m|] eqn:E; [|discriminate].
    injection H as ->. eauto.
  - destruct (match_here p prev (String a s)) as [m|] eqn:E.
    + injection H as ->. eauto.
    + eauto.
Qed.

Lemma search_match p text g :
  search p text = Some g -> exists prev s c, match_here p prev s = Some (g, c).
Proof.
  unfold search. destruct (search_from p None text) as [[g' c]|] eqn:E;
    [|discriminate].
  simpl. intros H. injection H as ->.
  apply search_from_match in E as (prev & s & E). eauto.
Qed.

Lemma findall_from_match p : forall s skip prev g,
  In g (findall_from p skip prev s) ->
  exists prev' s' c, match_here p prev' s' = Some (g, c).
Proof.
  induction s as [|a s IH]; intros skip prev g H; simpl in H.
  - destruct skip; [|contradiction].
    destruct (match_here p prev "") as [[g' c]|] eqn:E; [|contradiction].
    destruct H as [->|[]]. eauto.
  - destruct skip; [|eauto].
    destruct (match_here p prev (String a s)) as [[g' c]|] eqn:E; [|eauto].
    destruct H as [->|H]; eauto.
Qed.

Lemma findall_match p text g :
  In g (findall p text) -> exists prev s c, match_here p prev s = Some (g, c).
Proof. apply findall_from_match. Qed.

(** A match found at the first position is the one [search] returns. *)
Lemma search_from_here p prev s m :
  match_here p prev s = Some m -> search_from p prev s = Some m.
Proof. intros H. destruct s; simpl; now rewrite H. Qed.

(** [search] steps over a prefix in which no match starts. *)
Lemma search_from_skip p : forall pre prev rest,
  starts_none p prev pre rest = true ->
  search_from p prev (pre ++ rest) = search_from p (last_char prev pre) rest.
Proof.
  induction pre as [|c pre IH]; intros prev rest H; [reflexivity|].
  simpl in H. rewrite append_cons in *. simpl.
  destruct (match_here p prev (String c (pre ++ rest))); [discriminate|].
  now apply IH.
Qed.

(** *** Decimals *)

Lemma digit_not_point c :
  PyStr.is_digit c = true -> (PyStr.code c =? 46)%nat = false.
Proof.
  unfold PyStr.is_digit, PyStr.between. intros H.
  apply andb_prop in H as [H _]. apply Nat.leb_le in H.
  apply Nat.eqb_neq. lia.
Qed.

Lemma point_only ic c : same_char ic "." c = true -> c = "."%char.
Proof.
  destruct ic; destruct c as [[] [] [] [] [] [] [] []];
    vm_compute; intros H; try discriminate H; reflexivity.
Qed.

Lemma lit_point ic w : lit_eq ic "." w = true -> w = ".".
Proof.
  destruct w as [|c [|d w]]; simpl; try discriminate.
  - intros H. apply andb_prop in H as [H _]. now apply point_only in H as ->.
  - rewrite andb_false_r. discriminate.
Qed.

Lemma digits_value_some w : forall acc,
  all_chars PyStr.is_digit w = true -> is_Some (PyFloat.digits_value w acc).
Proof.
  induction w as [|c w IH]; intros acc H; simpl in *; [eauto|].
  apply andb_prop in H as [Hc Hw]. rewrite Hc. auto.
Qed.

Lemma all_chars_append cls a b :
  all_chars cls a = true -> all_chars cls b = true ->
  all_chars cls (a ++ b) = true.
Proof.
  induction a as [|c a IH]; [auto|]. rewrite append_cons. simpl.
  intros H Hb. apply andb_prop in H as [-> Ha]. simpl. auto.
Qed.

Lemma split_point_digits w :
  all_chars PyStr.is_digit w = true -> PyFloat.split_point w = (w, None).
Proof.
  induction w as [|c w IH]; simpl; [reflexivity|].
  intros H. apply andb_prop in H as [Hc Hw].
  now rewrite (digit_not_point c Hc), (IH Hw).
Qed.

Lemma split_point_decimal i f :
  all_chars PyStr.is_digit i = true ->
  PyFloat.split_point (i ++ "." ++ f) = (i, Some f).
Proof.
  induction i as [|c i IH]; [reflexivity|].
  rewrite append_cons. simpl.
  intros H. apply andb_prop in H as [Hc Hi].
  now rewrite (digit_not_point c Hc), (IH Hi).
Qed.

(** [float] accepts every decimal. *)
Lemma of_decimal_some w : is_decimal w -> is_Some (PyFloat.of_decimal w).
Proof.
  unfold PyFloat.of_decimal.
  intros [[Hd Hne]|(i & f & -> & Hi & Hine & Hf & Hfne)].
  - rewrite (split_point_digits w Hd), (not_empty w Hne).
    destruct (digits_value_some w 0%N Hd) as [n ->]. simpl. eauto.
  - rewrite (split_point_decimal i f Hi), (not_empty i Hine), (not_empty f Hfne).
    destruct (digits_value_some (i ++ f) 0%N (all_chars_append _ _ _ Hi Hf))
      as [n ->].
    simpl. eauto.
Qed.

(** The shape of [\d+(?:\.\d+)?] and of its bounded variants. *)
Lemma number_shape ic h1 h2 w :
  shape ic (Cat (Rep digit 1 h1) (Opt (Cat (Lit ".") (Rep digit 1 h2)))) w ->
  is_decimal w.
Proof.
  simpl. intros (w1 & w2 & -> & [Hd1 Hl1] & [->|(p & f & -> & Hp & Hd2 & Hl2)]).
  - left. rewrite append_empty_r. split; [exact Hd1|].
    intros ->. simpl in Hl1. lia.
  - right. apply lit_point in Hp as ->. exists w1, f.
    repeat split; auto; intros ->; simpl in *; lia.
Qed.

Lemma groups_ok_of_match p prev s g c required decs :
  match_here p prev s = Some (g, c) ->
  forallb (sets (expr p)) required = true ->
  (forall n r' w, In n decs -> In r' (subgroups (expr p) n) ->
                  shape (ignorecase p) r' w -> is_decimal w) ->
  groups_ok required decs g.
Proof.
  intros H Hreq Hdec. apply match_here_sound in H as [Hg Hm]. split.
  - intros n Hn. apply Hm. rewrite forallb_forall in Hreq. auto.
  - intros n w Hn Hw. apply Hg in Hw as (r' & Hin & Hs). eauto.
Qed.

Lemma float_of_group_some required decs g n :
  groups_ok required decs g -> In n required -> In n decs ->
  is_Some (float_of_group g n).
Proof.
  intros [Hreq Hdec] Hr Hd. unfold float_of_group.
  destruct (Hreq n Hr) as [w Hw]. rewrite Hw. simpl.
  apply of_decimal_some. eauto.
Qed.

Lemma group_text_decimal required decs g n :
  groups_ok required decs g -> In n required -> In n decs ->
  is_Some (PyFloat.of_decimal (group_text g n)).
Proof.
  intros [Hreq Hdec] Hr Hd. unfold group_text.
  destruct (Hreq n Hr) as [w Hw]. rewrite Hw. simpl.
  apply of_decimal_some. eauto.
Qed.

End GroupFacts.

(** Closes the side condition of [groups_ok_of_match] for a pattern whose
    numeric groups are all of the form [\d+(?:\.\d+)?]. *)
Ltac numeric_groups :=
  let n := fresh "n" in
  let r' := fresh "r" in
  let w := fresh "w" in
  let Hn := fresh "Hn" in
  let Hin := fresh "Hin" in
  let Hs := fresh "Hs" in
  intros n r' w Hn Hin Hs; simpl in Hn;
  repeat (destruct Hn as [<-|Hn]; [simpl in Hin;
    repeat (destruct Hin as [<-|Hin]; [eapply number_shape; exact Hs|]);
    contradiction|]);
  contradiction.

(** The projections of a record built by the setters. *)
Ltac fields :=
  unfold size_points, brand_points, price_points in *;
  cbn [brand product_hint old_size new_size old_unit new_unit old_price
       new_price fields_found explicit_from_to
       set_brand set_product_hint set_old_size set_new_size set_old_unit
       set_new_unit set_old_price set_new_price set_explicit_from_to
       add_fields_found set_sizes empty_signals] in *.

(** Steps through [x ← Some v; k]. *)
Ltac bind := cbn [mbind option_bind] in *.

(** ** reddit_public_scraper: the steps of [parse_text] *)

Section PublicSteps.

Import Re ReShape RedditPublicScraper PubTerms.

Lemma public_from_to_groups prev s g c :
  match_here FROM_TO_PATTERN prev s = Some (g, c) ->
  groups_ok [1; 3]%nat [1; 3]%nat g.
Proof.
  intros H. eapply groups_ok_of_match; [exact H|reflexivity|numeric_groups].
Qed.

Lemma public_arrow_groups prev s g c :
  match_here ARROW_PATTERN prev s = Some (g, c) ->
  groups_ok [1; 3]%nat [1; 3]%nat g.
Proof.
  intros H. eapply groups_ok_of_match; [exact H|reflexivity|numeric_groups].
Qed.

Lemma public_unit_groups prev s g c :
  match_here UNIT_PATTERN prev s = Some (g, c) ->
  groups_ok [1; 2]%nat [1]%nat g.
Proof.
  intros H. eapply groups_ok_of_match; [exact H|reflexivity|numeric_groups].
Qed.

Lemma public_price_groups prev s g c :
  match_here PRICE_PATTERN prev s = Some (g, c) ->
  groups_ok [1]%nat [1]%nat g.
Proof.
  intros H. eapply groups_ok_of_match; [exact H|reflexivity|numeric_groups].
Qed.

Lemma public_explicit_match_groups text m :
  explicit_match text = Some m -> groups_ok [1; 3]%nat [1; 3]%nat m.
Proof.
  unfold explicit_match.
  destruct (search FROM_TO_PATTERN text) as [m'|] eqn:E.
  - intros H. injection H as ->.
    apply search_match in E as (prev & s & c & E).
    eapply public_from_to_groups; eauto.
  - intros H. apply search_match in H as (prev & s & c & H).
    eapply public_arrow_groups; eauto.
Qed.

Lemma public_unit_mention_value text u :
  In u (findall UNIT_PATTERN text) ->
  is_Some (PyFloat.of_decimal (group_text u 1)).
Proof.
  intros H. apply findall_match in H as (prev & s & c & H).
  eapply group_text_decimal; [eapply public_unit_groups; eauto|simpl; auto..].
Qed.

Lemma public_price_mention_value text u :
  In u (findall PRICE_PATTERN text) ->
  is_Some (PyFloat.of_decimal (group_text u 1)).
Proof.
  intros H. apply findall_match in H as (prev & s & c & H).
  eapply group_text_decimal; [eapply public_price_groups; eauto|simpl; auto..].
Qed.

Lemma public_brand_step_cases text r :
  (first_brand KNOWN_BRANDS (PyStr.lower text) = None /\ brand_step text r = r)
  \/ exists b, first_brand KNOWN_BRANDS (PyStr.lower text) = Some b
               /\ brand_step text r =
                  add_fields_found 1 (set_brand (Some (PyStr.title b)) r).
Proof.
  unfold brand_step.
  destruct (first_brand KNOWN_BRANDS (PyStr.lower text)) as [b|]; eauto.
Qed.

Lemma public_explicit_step_cases text r :
  (explicit_match text = None /\ explicit_step text r = Some r) \/
  exists m v1 v3,
    explicit_match text = Some m
    /\ float_of_group m 1 = Some v1 /\ float_of_group m 3 = Some v3
    /\ ((PrimFloat.ltb v3 v1 = true
         /\ explicit_step text r =
            Some (add_fields_found 2 (set_explicit_from_to true
                    (set_sizes v1 v3 (matched_old_unit m) (matched_new_unit m) r))))
        \/ (PrimFloat.ltb v3 v1 = false /\ PrimFloat.ltb v1 v3 = true
            /\ explicit_step text r =
               Some (add_fields_found 2 (set_explicit_from_to true
                       (set_sizes v3 v1 (matched_new_unit m) (matched_old_unit m) r))))
        \/ (PrimFloat.ltb v3 v1 = false /\ PrimFloat.ltb v1 v3 = false
            /\ explicit_step text r = Some r)).
Proof.
  unfold explicit_step.
  destruct (explicit_match text) as [m|] eqn:E; [right|left; auto].
  pose proof (public_explicit_match_groups text m E) as Hok.
  destruct (float_of_group_some _ _ m 1%nat Hok) as [v1 H1]; [simpl; auto..|].
  destruct (float_of_group_some _ _ m 3%nat Hok) as [v3 H3]; [simpl; auto..|].
  exists m, v1, v3. rewrite H1, H3. bind.
  fold (matched_old_unit m). fold (matched_new_unit m).
  repeat split; auto.
  destruct (PrimFloat.ltb v3 v1); [auto|].
  destruct (PrimFloat.ltb v1 v3); auto.
Qed.

Lemma public_implicit_step_explicit text r :
  explicit_from_to r = true -> implicit_step text r = Some r.
Proof. unfold implicit_step. now intros ->. Qed.

Lemma public_implicit_step_cases text r :
  explicit_from_to r = false ->
  (findall UNIT_PATTERN text = [] /\ implicit_step text r = Some r)
  \/ (exists u v,
        findall UNIT_PATTERN text = [u]
        /\ PyFloat.of_decimal (group_text u 1) = Some v
        /\ implicit_step text r =
           Some (set_new_unit (Some (mention_unit u)) (set_new_size (Some v) r)))
  \/ (exists first second others final v1 v2,
        findall UNIT_PATTERN text = first :: second :: others
        /\ last (first :: second :: others) = Some final
        /\ PyFloat.of_decimal (group_text first 1) = Some v1
        /\ PyFloat.of_decimal (group_text final 1) = Some v2
        /\ implicit_step text r =
           Some (if negb (PrimFloat.eqb v1 v2)
                    && String.eqb (mention_unit first) (mention_unit final)
                 then implicit_pair v1 v2 (mention_unit first) (mention_unit final) r
                 else r)).
Proof.
  intros He. unfold implicit_step. rewrite He.
  pose proof (public_unit_mention_value text) as Hval.
  destruct (findall UNIT_PATTERN text) as [|first [|second others]] eqn:E.
  - left. auto.
  - right; left. destruct (Hval first) as [v Hv]; [simpl; auto|].
    exists first, v. rewrite Hv. auto.
  - right; right.
    destruct (Hval first) as [v1 Hv1]; [simpl; auto|].
    destruct (last (first :: second :: others)) as [final|] eqn:El;
      [|apply last_None in El; discriminate].
    destruct (Hval final) as [v2 Hv2].
    { apply list_elem_of_In. eapply last_Some_elem_of; eauto. }
    exists first, second, others, final, v1, v2.
    rewrite Hv1. bind. rewrite Hv2. bind.
    fold (mention_unit first). fold (mention_unit final).
    repeat split; auto. unfold implicit_pair.
    destruct (negb (PrimFloat.eqb v1 v2)
              && String.eqb (mention_unit first) (mention_unit final)); auto.
Qed.

Lemma public_price_step_cases text r :
  (findall PRICE_PATTERN text = [] /\ price_step text r = Some r)
  \/ (exists p v,
        findall PRICE_PATTERN text = [p]
        /\ PyFloat.of_decimal (group_text p 1) = Some v
        /\ price_step text r = Some (set_new_price (Some v) r))
  \/ (exists first second others final v1 v2,
        findall PRICE_PATTERN text = first :: second :: others
        /\ last (first :: second :: others) = Some final
        /\ PyFloat.of_decimal (group_text first 1) = Some v1
        /\ PyFloat.of_decimal (group_text final 1) = Some v2
        /\ price_step text r =
           Some (add_fields_found 1
                   (set_new_price (Some v2) (set_old_price (Some v1) r)))).
Proof.
  unfold price_step.
  pose proof (public_price_mention_value text) as Hval.
  destruct (findall PRICE_PATTERN text) as [|first [|second others]] eqn:E.
  - left. auto.
  - right; left. destruct (Hval first) as [v Hv]; [simpl; auto|].
    exists first, v. rewrite Hv. auto.
  - right; right.
    destruct (Hval first) as [v1 Hv1]; [simpl; auto|].
    destruct (last (first :: second :: others)) as [final|] eqn:El;
      [|apply last_None in El; discriminate].
    destruct (Hval final) as [v2 Hv2].
    { apply list_elem_of_In. eapply last_Some_elem_of; eauto. }
    exists first, second, others, final, v1, v2.
    rewrite Hv1. bind. rewrite Hv2. bind. auto.
Qed.

(** The steps of [parse_text], none of which fails. *)
Lemma public_parse_text_steps text :
  exists r1 r2 r3,
    explicit_step text (brand_step text empty_signals) = Some r1
    /\ implicit_step text r1 = Some r2
    /\ price_step text r2 = Some r3
    /\ parse_text text = Some (hint_step text r3).
Proof.
  unfold parse_text.
  set (r0 := brand_step text empty_signals).
  assert (H1 : is_Some (explicit_step text r0)).
  { destruct (public_explicit_step_cases text r0)
      as [[_ H]|(m & v1 & v3 & _ & _ & _ & [[_ H]|[(_ & _ & H)|(_ & _ & H)]])];
      rewrite H; eauto. }
  destruct H1 as [r1 H1]. exists r1. rewrite H1. bind.
  assert (H2 : is_Some (implicit_step text r1)).
  { destruct (explicit_from_to r1) eqn:He.
    - rewrite public_implicit_step_explicit; eauto.
    - destruct (public_implicit_step_cases text r1 He)
        as [[_ H]|[(u & v & _ & _ & H)
                  |(f & s & o & l & v1 & v2 & _ & _ & _ & _ & H)]];
        rewrite H; eauto. }
  destruct H2 as [r2 H2]. exists r2. rewrite H2. bind.
  assert (H3 : is_Some (price_step text r2)).
  { destruct (public_price_step_cases text r2)
      as [[_ H]|[(u & v & _ & _ & H)
                |(f & s & o & l & v1 & v2 & _ & _ & _ & _ & H)]];
      rewrite H; eauto. }
  destruct H3 as [r3 H3]. exists r3. rewrite H3. bind. auto.
Qed.

(** [parse_text] never raises. *)
Lemma public_parse_text_total text : is_Some (parse_text text).
Proof.
  destruct (public_parse_text_steps text) as (? & ? & ? & _ & _ & _ & ->). eauto.
Qed.

End PublicSteps.

Ltac public_price_cases text H3 :=
  let H := fresh in
  match type of H3 with
  | RedditPublicScraper.price_step _ ?r2 = _ =>
      destruct (public_price_step_cases text r2)
        as [[_ H]|[(? & ? & _ & _ & H)
                  |(? & ? & ? & ? & ? & ? & _ & _ & _ & _ & H)]]
  end;
  rewrite H in H3; injection H3 as <-; clear H.

Ltac public_brand_cases text :=
  let H := fresh in
  destruct (public_brand_step_cases text empty_signals) as [[_ H]|(? & _ & H)];
  rewrite H in *; clear H.

Ltac float_cases :=
  repeat match goal with
         | |- context [negb (PrimFloat.eqb ?a ?b) && ?c] =>
             destruct (negb (PrimFloat.eqb a b) && c)
         | |- context [negb (PrimFloat.eqb ?a ?b)] =>
             destruct (negb (PrimFloat.eqb a b))
         | |- context [PrimFloat.ltb ?a ?b] => destruct (PrimFloat.ltb a b)
         end.

(** ** reddit_scraper: the steps of [parse_text] *)

Section LegacySteps.

Import Re ReShape RedditScraper LegTerms.

Lemma legacy_from_to_groups prev s g c :
  match_here FROM_TO_PATTERN prev s = Some (g, c) ->
  groups_ok [1; 3]%nat [1; 3]%nat g.
Proof.
  intros H. eapply groups_ok_of_match; [exact H|reflexivity|numeric_groups].
Qed.

Lemma legacy_unit_groups prev s g c :
  match_here UNIT_PATTERN prev s = Some (g, c) ->
  groups_ok [1; 2]%nat [1]%nat g.
Proof.
  intros H. eapply groups_ok_of_match; [exact H|reflexivity|numeric_groups].
Qed.

Lemma legacy_price_groups prev s g c :
  match_here PRICE_PATTERN prev s = Some (g, c) ->
  groups_ok [1]%nat [1]%nat g.
Proof.
  intros H. eapply groups_ok_of_match; [exact H|reflexivity|numeric_groups].
Qed.

Lemma legacy_unit_mention_value text u :
  In u (findall UNIT_PATTERN text) ->
  is_Some (PyFloat.of_decimal (group_text u 1)).
Proof.
  intros H. apply findall_match in H as (prev & s & c & H).
  eapply group_text_decimal; [eapply legacy_unit_groups; eauto|simpl; auto..].
Qed.

Lemma legacy_price_mention_value text u :
  In u (findall PRICE_PATTERN text) ->
  is_Some (PyFloat.of_decimal (group_text u 1)).
Proof.
  intros H. apply findall_match in H as (prev & s & c & H).
  eapply group_text_decimal; [eapply legacy_price_groups; eauto|simpl; auto..].
Qed.

Lemma legacy_brand_step_cases text r :
  (first_brand KNOWN_BRANDS (PyStr.lower text) = None /\ brand_step text r = r)
  \/ exists b, first_brand KNOWN_BRANDS (PyStr.lower text) = Some b
               /\ brand_step text r =
                  add_fields_found 1 (set_brand (Some (PyStr.title b)) r).
Proof.
  unfold brand_step.
  destruct (first_brand KNOWN_BRANDS (PyStr.lower text)) as [b|]; eauto.
Qed.

Lemma legacy_size_step_cases text r :
  (exists m v1 v3,
      search FROM_TO_PATTERN text = Some m
      /\ float_of_group m 1 = Some v1 /\ float_of_group m 3 = Some v3
      /\ size_step text r =
         Some (explicit_record v1 v3 (matched_old_unit m) (matched_new_unit m) r))
  \/ (search FROM_TO_PATTERN text = None
      /\ ((findall UNIT_PATTERN text = [] /\ size_step text r = Some r)
          \/ (exists u v,
                findall UNIT_PATTERN text = [u]
                /\ PyFloat.of_decimal (group_text u 1) = Some v
                /\ size_step text r =
                   Some (set_new_unit (Some (mention_unit u))
                           (set_new_size (Some v) r)))
          \/ (exists first second others final v1 v2,
                findall UNIT_PATTERN text = first :: second :: others
                /\ last (first :: second :: others) = Some final
                /\ PyFloat.of_decimal (group_text first 1) = Some v1
                /\ PyFloat.of_decimal (group_text final 1) = Some v2
                /\ size_step text r =
                   Some (implicit_record v1 v2 (mention_unit first)
                           (mention_unit final) r)))).
Proof.
  unfold size_step.
  destruct (search FROM_TO_PATTERN text) as [m|] eqn:E.
  - left. pose proof E as E'.
    apply search_match in E' as (prev & s & c & E').
    apply legacy_from_to_groups in E'.
    destruct (float_of_group_some _ _ m 1%nat E') as [v1 H1]; [simpl; auto..|].
    destruct (float_of_group_some _ _ m 3%nat E') as [v3 H3]; [simpl; auto..|].
    exists m, v1, v3. unfold explicit_branch. rewrite H1, H3. auto.
  - right. split; [reflexivity|]. unfold implicit_branch.
    pose proof (legacy_unit_mention_value text) as Hval.
    destruct (findall UNIT_PATTERN text) as [|first [|second others]] eqn:Eu.
    + left. auto.
    + right; left. destruct (Hval first) as [v Hv]; [simpl; auto|].
      exists first, v. rewrite Hv. auto.
    + right; right.
      destruct (Hval first) as [v1 Hv1]; [simpl; auto|].
      destruct (last (first :: second :: others)) as [final|] eqn:El;
        [|apply last_None in El; discriminate].
      destruct (Hval final) as [v2 Hv2].
      { apply list_elem_of_In. eapply last_Some_elem_of; eauto. }
      exists first, second, others, final, v1, v2.
      rewrite Hv1. bind. rewrite Hv2. bind.
      repeat split; auto. unfold implicit_record.
      destruct (negb (PrimFloat.eqb v1 v2)); reflexivity.
Qed.

Lemma legacy_price_step_cases text r :
  (findall PRICE_PATTERN text = [] /\ price_step text r = Some r)
  \/ (exists p v,
        findall PRICE_PATTERN text = [p]
        /\ PyFloat.of_decimal (group_text p 1) = Some v
        /\ price_step text r = Some (set_new_price (Some v) r))
  \/ (exists first second others final v1 v2,
        findall PRICE_PATTERN text = first :: second :: others
        /\ last (first :: second :: others) = Some final
        /\ PyFloat.of_decimal (group_text first 1) = Some v1
        /\ PyFloat.of_decimal (group_text final 1) = Some v2
        /\ price_step text r =
           Some (add_fields_found 1
                   (set_new_price (Some v2) (set_old_price (Some v1) r)))).
Proof.
  unfold price_step.
  pose proof (legacy_price_mention_value text) as Hval.
  destruct (findall PRICE_PATTERN text) as [|first [|second others]] eqn:E.
  - left. auto.
  - right; left. destruct (Hval first) as [v Hv]; [simpl; auto|].
    exists first, v. rewrite Hv. auto.
  - right; right.
    destruct (Hval first) as [v1 Hv1]; [simpl; auto|].
    destruct (last (first :: second :: others)) as [final|] eqn:El;
      [|apply last_None in El; discriminate].
    destruct (Hval final) as [v2 Hv2].
    { apply list_elem_of_In. eapply last_Some_elem_of; eauto. }
    exists first, second, others, final, v1, v2.
    rewrite Hv1. bind. rewrite Hv2. bind. auto.
Qed.

Lemma legacy_parse_text_steps text :
  exists r1 r2,
    size_step text (brand_step text empty_signals) = Some r1
    /\ price_step text r1 = Some r2
    /\ parse_text text = Some (hint_step text r2).
Proof.
  unfold parse_text.
  set (r0 := brand_step text empty_signals).
  assert (H1 : is_Some (size_step text r0)).
  { destruct (legacy_size_step_cases text r0)
      as [(m & v1 & v3 & _ & _ & _ & H)
         |[_ [[_ H]|[(u & v & _ & _ & H)
                    |(f & s & o & l & v1 & v2 & _ & _ & _ & _ & H)]]]];
      rewrite H; eauto. }
  destruct H1 as [r1 H1]. exists r1. rewrite H1. bind.
  assert (H2 : is_Some (price_step text r1)).
  { destruct (legacy_price_step_cases text r1)
      as [[_ H]|[(u & v & _ & _ & H)
                |(f & s & o & l & v1 & v2 & _ & _ & _ & _ & H)]];
      rewrite H; eauto. }
  destruct H2 as [r2 H2]. exists r2. rewrite H2. bind. auto.
Qed.

Lemma legacy_parse_text_total text : is_Some (parse_text text).
Proof.
  destruct (legacy_parse_text_steps text) as (? & ? & _ & _ & ->). eauto.
Qed.

End LegacySteps.

Ltac legacy_price_cases text H3 :=
  let H := fresh in
  match type of H3 with
  | RedditScraper.price_step _ ?r2 = _ =>
      destruct (legacy_price_step_cases text r2)
        as [[_ H]|[(? & ? & _ & _ & H)
                  |(? & ? & ? & ? & ? & ? & _ & _ & _ & _ & H)]]
  end;
  rewrite H in H3; injection H3 as <-; clear H.

Ltac legacy_brand_cases text :=
  let H := fresh in
  destruct (legacy_brand_step_cases text empty_signals) as [[_ H]|(? & _ & H)];
  rewrite H in *; clear H.

(** ** The scraping loops *)

Section Counters.

Lemma counter_bump_public key k (stats : Pub.Stats) :
  counter k (Pub.bump key stats)
  = counter k stats + (if bool_decide (k = key) then 1 else 0).
Proof.
  unfold counter, Pub.bump. case_bool_decide as Hk.
  - subst k. now rewrite lookup_insert_eq.
  - rewrite lookup_insert_ne by congruence. lia.
Qed.

Lemma counter_bump_legacy key k (stats : Leg.Stats) :
  counter k (Leg.bump key stats)
  = counter k stats + (if bool_decide (k = key) then 1 else 0).
Proof. apply counter_bump_public. Qed.

Lemma dom_bump key (stats : gmap string Z) :
  dom (Pub.bump key stats) = {[key]} ∪ dom stats.
Proof. unfold Pub.bump. apply dom_insert_L. Qed.

Lemma count_of_cons {A} (P : A -> Prop) `{!forall x, Decision (P x)} x l :
  count_of P (x :: l) = (if bool_decide (P x) then 1 else 0) + count_of P l.
Proof.
  unfold count_of. case_bool_decide.
  - rewrite filter_cons_True by assumption. rewrite length_cons. lia.
  - rewrite filter_cons_False by assumption. lia.
Qed.

Lemma tier_name_counter t : tier_name t ∈ counter_names.
Proof. destruct t; vm_compute; reflexivity. Qed.

Lemma tier_name_not_dup t : tier_name t <> "skipped_dup".
Proof. destruct t; discriminate. Qed.


End Counters.

Section PublicLoop.

Import RedditPublicScraper PubTerms PubRun.

(** Each post has one of five outcomes. *)
Lemma public_outcome_cases known post :
  outcome known post = "skipped_dup" \/ outcome known post = "no_keyword"
  \/ outcome known post = "auto" \/ outcome known post = "review"
  \/ outcome known post = "discard".
Proof.
  unfold outcome. case_bool_decide; [auto|].
  destruct (relevant post); cbn [negb]; [|auto].
  destruct (public_parse_text_total (full_text_of post)) as [parsed ->].
  destruct (confidence_tier parsed); cbn; auto.
Qed.

(** [build_entry] returns exactly where the timestamp is in range. *)
Lemma public_build_entry_some clock calls post parsed t :
  in_range clock post <-> is_Some (build_entry clock calls post parsed t).
Proof.
  unfold in_range, build_entry.
  destruct (default 0 (post_created_utc post) =? 0) eqn:E; cbn [negb].
  - apply Z.eqb_eq in E. split; eauto.
  - apply Z.eqb_neq in E.
    destruct (utcfromtimestamp clock (default 0 (post_created_utc post)));
      bind; split; eauto.
    + intros [?|[? [=]]]. contradiction.
    + intros [? [=]].
Qed.

(** What [build_entry] puts in the entry. *)
Lemma public_build_entry_facts clock calls post parsed t e n :
  build_entry clock calls post parsed t = Some (e, n) ->
  source_url e = post_url post /\ status e = pending /\ tier e = t
  /\ signals e = parsed /\ is_Some (date_noticed e) /\ (calls < n)%nat.
Proof.
  unfold build_entry.
  destruct (default 0 (post_created_utc post) =? 0); cbn [negb].
  - intros [= <- <-]. cbn. repeat split; eauto; lia.
  - destruct (utcfromtimestamp clock (default 0 (post_created_utc post)));
      bind; [|discriminate].
    intros [= <- <-]. cbn. repeat split; eauto; lia.
Qed.

(** The posts for which an entry is built, by their outcome. *)
Lemma public_to_stage_facts known post :
  (forall parsed t,
      to_stage known post = Some (parsed, t) ->
      (post_url post ∉ known) /\ relevant post = true
      /\ parse_text (full_text_of post) = Some parsed
      /\ t = confidence_tier parsed /\ t <> Discard
      /\ outcome known post = tier_name t)
  /\ (to_stage known post = None ->
      outcome known post <> "auto" /\ outcome known post <> "review").
Proof.
  unfold to_stage, outcome. case_bool_decide as Hk.
  { split; [discriminate|split; discriminate]. }
  destruct (relevant post); cbn [negb].
  2: { split; [discriminate|split; discriminate]. }
  destruct (public_parse_text_total (full_text_of post)) as [parsed ->]. bind.
  destruct (confidence_tier parsed) eqn:Ht; cbn.
  - split; [discriminate|split; discriminate].
  - split; [|discriminate]. intros p t [= <- <-]. rewrite Ht.
    repeat split; auto; discriminate.
  - split; [|discriminate]. intros p t [= <- <-]. rewrite Ht.
    repeat split; auto; discriminate.
Qed.

Lemma public_to_stage_outcome known post :
  is_Some (to_stage known post)
  <-> outcome known post = "auto" \/ outcome known post = "review".
Proof.
  destruct (public_to_stage_facts known post) as [Hs Hn].
  destruct (to_stage known post) as [[parsed t]|].
  - destruct (Hs parsed t eq_refl) as (_ & _ & _ & _ & Ht & ->).
    split; [|eauto]. intros _. destruct t; [congruence|auto..].
  - destruct (Hn eq_refl). split; [intros [? [=]]|tauto].
Qed.

(** The posts counted as duplicates are those the registry holds. *)
Lemma public_outcome_dup known post :
  outcome known post = "skipped_dup" <-> post_url post ∈ known.
Proof.
  unfold outcome. case_bool_decide as Hk; [tauto|].
  split; [|contradiction]. intros H. exfalso.
  destruct (relevant post); cbn [negb] in H; [|discriminate].
  destruct (parse_text (full_text_of post)); [|discriminate].
  now apply tier_name_not_dup in H.
Qed.


(** One turn of the loop, exactly. *)
Lemma public_process_post_exact clock known post entries new_urls stats calls :
  process_post clock known post (entries, new_urls, stats) calls
  = ('(es, n) ← staged_from clock known calls [post];
     Some ((entries ++ es)%list,
           (if bool_decide (post_url post ∈ known) then new_urls
            else {[post_url post]} ∪ new_urls),
           bump (outcome known post) (bump "seen" stats), n)).
Proof.
  unfold process_post, outcome. cbn [staged_from]. unfold to_stage.
  case_bool_decide; [bind; now rewrite app_nil_r|].
  destruct (relevant post); cbn [negb]; [|bind; now rewrite app_nil_r].
  destruct (public_parse_text_total (full_text_of post)) as [parsed ->]. bind.
  destruct (confidence_tier parsed); bind; [now rewrite app_nil_r|..];
    (destruct (build_entry clock calls post parsed _) as [[e n]|]; bind;
     reflexivity).
Qed.

(** The loop, exactly: the entries built are appended, the urls of the
    posts that the registry lacks are recorded, and the counters follow the
    outcomes; the loop raises where an entry cannot be built. *)
Lemma public_process_loop_exact clock known :
  forall posts entries new_urls stats calls,
    process_loop clock known posts (entries, new_urls, stats) calls
    = ('(es, n) ← staged_from clock known calls posts;
       Some ((entries ++ es)%list,
             new_urls ∪ list_to_set (post_url <$> fresh_posts known posts),
             foldl (fun s p => bump (outcome known p) (bump "seen" s)) stats posts,
             n)).
Proof.
  induction posts as [|post posts IH]; intros entries new_urls stats calls.
  - cbn [process_loop staged_from foldl]. bind. unfold fresh_posts.
    rewrite filter_nil, fmap_nil, list_to_set_nil.
    now rewrite app_nil_r, (right_id_L ∅ (∪)).
  - cbn [process_loop]. rewrite public_process_post_exact.
    cbn [staged_from foldl].
    assert (Hurls : (if bool_decide (post_url post ∈ known) then new_urls
                     else {[post_url post]} ∪ new_urls)
                    ∪ list_to_set (post_url <$> fresh_posts known posts)
                    = new_urls
                      ∪ list_to_set (post_url <$> fresh_posts known (post :: posts))).
    { unfold fresh_posts. case_bool_decide as Hk.
      - rewrite filter_cons_False by (intros Hn; apply Hn; exact Hk).
        reflexivity.
      - rewrite filter_cons_True by exact Hk.
        rewrite fmap_cons, list_to_set_cons.
        now rewrite (comm_L (∪) _ new_urls), (assoc_L (∪)). }
    destruct (to_stage known post) as [[parsed t]|]; bind.
    + destruct (build_entry clock calls post parsed t) as [[e c]|]; bind;
        [|reflexivity].
      rewrite IH.
      destruct (staged_from clock known c posts) as [[es n]|]; bind;
        [|reflexivity].
      rewrite Hurls, <- app_assoc. reflexivity.
    + rewrite IH.
      destruct (staged_from clock known calls posts) as [[es n]|]; bind;
        [|reflexivity].
      rewrite Hurls, app_nil_r. reflexivity.
Qed.

(** The counters after the loop. *)
Lemma public_loop_counters known : forall posts (stats : Stats),
  (forall k, counter k (foldl (fun s p => bump (outcome known p) (bump "seen" s))
                              stats posts)
             = counter k stats
               + (if bool_decide (k = "seen") then Z.of_nat (length posts) else 0)
               + count_of (fun p => outcome known p = k) posts)
  /\ dom stats ⊆ dom (foldl (fun s p => bump (outcome known p) (bump "seen" s))
                            stats posts)
  /\ dom (foldl (fun s p => bump (outcome known p) (bump "seen" s)) stats posts)
     ⊆ dom stats ∪ counter_names.
Proof.
  induction posts as [|post posts IH]; intros stats.
  - cbn [foldl]. split; [|split].
    + intros k. unfold count_of. rewrite filter_nil. cbn [length].
      case_bool_decide; lia.
    + reflexivity.
    + apply union_subseteq_l.
  - cbn [foldl].
    destruct (IH (bump (outcome known post) (bump "seen" stats)))
      as (Hc & Hd1 & Hd2).
    split; [|split].
    + intros k. rewrite Hc, !counter_bump_public, count_of_cons, length_cons.
      pose proof (public_outcome_cases known post) as Ho.
      repeat case_bool_decide; subst; try lia;
        try (exfalso; destruct Ho as [Ho|[Ho|[Ho|[Ho|Ho]]]]; congruence).
    + etrans; [|exact Hd1]. rewrite !dom_bump.
      etrans; [|apply union_subseteq_r]. apply union_subseteq_r.
    + etrans; [exact Hd2|]. rewrite !dom_bump.
      assert (outcome known post ∈ counter_names).
      { destruct (public_outcome_cases known post) as [->|[->|[->|[->| ->]]]];
          vm_compute; reflexivity. }
      assert ("seen" ∈ counter_names) by (vm_compute; reflexivity).
      repeat apply union_least; try apply singleton_subseteq_l;
        try (apply elem_of_union_r; assumption);
        solve [apply union_subseteq_l | apply union_subseteq_r].
Qed.

(** The five outcomes split the batch. *)
Lemma public_outcomes_split known posts :
  Z.of_nat (length posts)
  = count_of (fun p => outcome known p = "skipped_dup") posts
    + count_of (fun p => outcome known p = "no_keyword") posts
    + count_of (fun p => outcome known p = "auto") posts
    + count_of (fun p => outcome known p = "review") posts
    + count_of (fun p => outcome known p = "discard") posts.
Proof.
  induction posts as [|post posts IH]; [reflexivity|].
  rewrite !count_of_cons, length_cons.
  destruct (public_outcome_cases known post) as [H|[H|[H|[H|H]]]]; rewrite H;
    repeat case_bool_decide; try discriminate; try congruence; lia.
Qed.

(** The entries are built exactly where the timestamps are in range. *)
Lemma public_staged_from_some clock known : forall posts calls,
  timestamps_in_range clock known posts
  <-> is_Some (staged_from clock known calls posts).
Proof.
  unfold timestamps_in_range.
  induction posts as [|post posts IH]; intros calls.
  - cbn. split; [eauto|]. intros _ p Hp. inversion Hp.
  - cbn [staged_from].
    destruct (to_stage known post) as [[parsed t]|] eqn:Es.
    + pose proof (public_build_entry_some clock calls post parsed t) as Hb.
      destruct (build_entry clock calls post parsed t) as [[e c]|]; bind.
      * specialize (IH c).
        destruct (staged_from clock known c posts) as [[es n]|]; bind.
        -- split; [eauto|]. intros _ p Hp Hs.
           apply elem_of_cons in Hp as [->|Hp]; [apply Hb; eauto|].
           apply IH; eauto.
        -- split; [|intros [? [=]]]. intros H.
           assert (is_Some (@None (list StagingEntry * nat))) as [? [=]].
           apply IH. intros p Hp. apply H. now right.
      * split; [|intros [? [=]]]. intros H.
        assert (is_Some (@None (StagingEntry * nat))) as [? [=]].
        apply Hb, H; [left|rewrite Es; eauto].
    + rewrite <- IH. split.
      * intros H p Hp. apply H. now right.
      * intros H p Hp Hs. apply elem_of_cons in Hp as [->|Hp]; [|eauto].
        rewrite Es in Hs. destruct Hs as [? [=]].
Qed.

(** The entries built, post by post. *)
Lemma public_staged_from_entries clock known : forall posts calls es n,
  staged_from clock known calls posts = Some (es, n) ->
  Forall2 (fun p e =>
             exists c c',
               to_stage known p = Some (signals e, tier e)
               /\ build_entry clock c p (signals e) (tier e) = Some (e, c'))
          (filter (fun p => is_Some (to_stage known p)) posts) es.
Proof.
  induction posts as [|post posts IH]; intros calls es n.
  - intros [= <- _]. constructor.
  - cbn [staged_from].
    destruct (to_stage known post) as [[parsed t]|] eqn:Es.
    + destruct (build_entry clock calls post parsed t) as [[e c]|] eqn:Eb; bind;
        [|discriminate].
      destruct (staged_from clock known c posts) as [[es' n']|] eqn:E; bind;
        [|discriminate].
      intros [= <- <-]. rewrite filter_cons_True by (rewrite Es; eauto).
      constructor; [|eauto].
      destruct (public_build_entry_facts _ _ _ _ _ _ _ Eb)
        as (_ & _ & Ht & Hs & _).
      exists calls, c. rewrite Hs, Ht. auto.
    + intros H. rewrite filter_cons_False by (rewrite Es; intros [? [=]]).
      eauto.
Qed.

(** The entries are as many as the posts counted auto or review. *)
Lemma public_staged_count known posts :
  Z.of_nat (length (filter (fun p => is_Some (to_stage known p)) posts))
  = count_of (fun p => outcome known p = "auto") posts
    + count_of (fun p => outcome known p = "review") posts.
Proof.
  induction posts as [|post posts IH]; [reflexivity|].
  rewrite !count_of_cons.
  pose proof (public_to_stage_outcome known post) as Hs.
  destruct (decide (is_Some (to_stage known post))) as [H|H].
  - rewrite filter_cons_True, length_cons by exact H.
    destruct (proj1 Hs H) as [Ho|Ho]; rewrite Ho;
      repeat case_bool_decide; try discriminate; try congruence; lia.
  - rewrite filter_cons_False by exact H.
    repeat case_bool_decide; try lia; exfalso; apply H, Hs; auto.
Qed.

Lemma counter_initial_public k : counter k initial_stats = 0.
Proof.
  unfold counter. destruct (initial_stats !! k) as [z|] eqn:E; [|reflexivity].
  apply elem_of_list_to_map_2 in E. cbn.
  repeat (apply elem_of_cons in E as [[= _ <-]|E]; [reflexivity|]).
  inversion E.
Qed.

Lemma dom_initial_public : dom initial_stats = counter_names.
Proof. vm_compute. reflexivity. Qed.

(** A run of [process_posts]: it returns where the timestamps are in
    range, and raises elsewhere. *)
Lemma public_process_posts_exact posts known :
  exists stats,
    (forall clock,
        process_posts clock posts known
        = ('(es, _) ← staged_from clock known 0 posts;
           Some (es, list_to_set (post_url <$> fresh_posts known posts), stats)))
    /\ dom stats = counter_names
    /\ counter "seen" stats = Z.of_nat (length posts)
    /\ (forall k, k <> "seen" ->
                  counter k stats = count_of (fun p => outcome known p = k) posts).
Proof.
  destruct (public_loop_counters known posts initial_stats) as (Hc & Hd1 & Hd2).
  eexists. split; [|split; [|split]].
  - intros clock. unfold process_posts. rewrite public_process_loop_exact.
    destruct (staged_from clock known 0 posts) as [[es n]|]; bind; [|reflexivity].
    rewrite (left_id_L ∅ (∪)). reflexivity.
  - rewrite dom_initial_public in *. apply (anti_symm (⊆)); [|exact Hd1].
    etrans; [exact Hd2|]. now apply union_least.
  - rewrite Hc, counter_initial_public.
    rewrite bool_decide_eq_true_2 by reflexivity.
    assert (count_of (fun p => outcome known p = "seen") posts = 0) as ->; [|lia].
    unfold count_of. clear. induction posts as [|post posts IH]; [reflexivity|].
    rewrite filter_cons_False; [exact IH|].
    destruct (public_outcome_cases known post) as [->|[->|[->|[->| ->]]]];
      discriminate.
  - intros k Hk. rewrite Hc, counter_initial_public.
    rewrite bool_decide_eq_false_2 by exact Hk. lia.
Qed.

(** The urls recorded for the registry. *)
Lemma public_fresh_urls known posts u :
  u ∈ (list_to_set (post_url <$> fresh_posts known posts) : gset string)
  <-> (u ∉ known) /\ exists p, p ∈ posts /\ u = post_url p.
Proof.
  rewrite elem_of_list_to_set, list_elem_of_fmap. unfold fresh_posts. split.
  - intros (p & -> & Hp). apply list_elem_of_filter in Hp as [Hp1 Hp2]. eauto.
  - intros (Hu & p & Hp & ->). exists p. split; [reflexivity|].
    apply list_elem_of_filter. auto.
Qed.

(** The example clock converts the timestamps of the example posts. *)
Lemma example_timestamps_in_range known :
  timestamps_in_range Examples.clock known
                      [Examples.tide_post; Examples.tropicana_post]
  /\ timestamps_in_range Examples.clock known [Examples.tropicana_post].
Proof.
  assert (H : forall p, p ∈ [Examples.tide_post; Examples.tropicana_post] ->
                        in_range Examples.clock p).
  { intros p Hp. right.
    apply elem_of_cons in Hp as [->|Hp];
      [|apply list_elem_of_singleton in Hp as ->]; vm_compute; eauto. }
  split; intros p Hp _; apply H; [exact Hp|now right].
Qed.

End PublicLoop.

Section LegacyLoop.

Import RedditScraper LegTerms LegRun.

Lemma legacy_outcome_cases known post :
  outcome known post = "skipped_dup" \/ outcome known post = "no_keyword"
  \/ outcome known post = "auto" \/ outcome known post = "review"
  \/ outcome known post = "discard".
Proof.
  unfold outcome. case_bool_decide; [auto|].
  destruct (has_keyword (full_text_of post)); cbn [negb]; [|auto].
  destruct (legacy_parse_text_total (full_text_of post)) as [parsed ->].
  destruct (confidence_tier parsed); cbn; auto.
Qed.

(** [build_entry] returns exactly where the timestamp is in range. *)
Lemma legacy_build_entry_some clock calls post parsed t :
  in_range clock post <-> is_Some (build_entry clock calls post parsed t).
Proof.
  unfold in_range, build_entry.
  destruct (fromtimestamp clock (post_created_utc post)); bind.
  - split; eauto.
  - split; intros [? [=]].
Qed.

Lemma legacy_build_entry_facts clock calls post parsed t e n :
  build_entry clock calls post parsed t = Some (e, n) ->
  source_url e = post_url post /\ tier e = t /\ signals e = parsed
  /\ n = S calls.
Proof.
  unfold build_entry.
  destruct (fromtimestamp clock (post_created_utc post)); bind; [|discriminate].
  intros [= <- <-]. cbn. auto.
Qed.

(** The posts for which a run that writes builds an entry, by their
    outcome. *)
Lemma legacy_to_stage_facts known post :
  (forall parsed t,
      to_stage known post = Some (parsed, t) ->
      (post_url post ∉ known) /\ has_keyword (full_text_of post) = true
      /\ parse_text (full_text_of post) = Some parsed
      /\ t = confidence_tier parsed /\ t <> Discard
      /\ outcome known post = tier_name t)
  /\ (to_stage known post = None ->
      outcome known post <> "auto" /\ outcome known post <> "review").
Proof.
  unfold to_stage, outcome. case_bool_decide as Hk.
  { split; [discriminate|split; discriminate]. }
  destruct (has_keyword (full_text_of post)); cbn [negb].
  2: { split; [discriminate|split; discriminate]. }
  destruct (legacy_parse_text_total (full_text_of post)) as [parsed ->]. bind.
  destruct (confidence_tier parsed) eqn:Ht; cbn.
  - split; [discriminate|split; discriminate].
  - split; [|discriminate]. intros p t [= <- <-]. rewrite Ht.
    repeat split; auto; discriminate.
  - split; [|discriminate]. intros p t [= <- <-]. rewrite Ht.
    repeat split; auto; discriminate.
Qed.



Lemma queue_after_nil dry_run queue : queue_after dry_run queue [] = queue.
Proof.
  unfold queue_after. destruct dry_run; [reflexivity|].
  rewrite !filter_nil, !app_nil_r. now destruct queue.
Qed.

Lemma queue_after_app dry_run queue l1 l2 :
  queue_after dry_run (queue_after dry_run queue l1) l2
  = queue_after dry_run queue (l1 ++ l2).
Proof.
  unfold queue_after. destruct dry_run; [reflexivity|].
  cbn [queue_auto queue_review]. now rewrite !filter_app, !app_assoc.
Qed.

(** An entry goes to the list of its tier. *)
Lemma queue_append_after t e queue :
  tier e = t -> t <> Discard ->
  queue_append t e queue = queue_after false queue [e].
Proof.
  intros Ht Hd. unfold queue_after, queue_append.
  destruct t; [congruence|..].
  - rewrite filter_cons_False, filter_cons_True, !filter_nil, app_nil_r
      by (rewrite Ht; congruence).
    reflexivity.
  - rewrite filter_cons_True, filter_cons_False, !filter_nil, app_nil_r
      by (rewrite Ht; congruence).
    reflexivity.
Qed.

(** One turn of the loop, exactly; a dry run builds no entry. *)
Lemma legacy_process_post_exact clock dry_run known post queue new_urls stats
      calls :
  process_post clock dry_run known post (queue, new_urls, stats) calls
  = ('(es, n) ← (if dry_run then Some ([], calls)
                 else staged_from clock known calls [post]);
     Some (queue_after dry_run queue es,
           (if bool_decide (post_url post ∈ known) then new_urls
            else {[post_url post]} ∪ new_urls),
           bump (outcome known post) (bump "seen" stats), n)).
Proof.
  unfold process_post, outcome. cbn [staged_from]. unfold to_stage.
  case_bool_decide.
  { destruct dry_run; bind; now rewrite queue_after_nil. }
  destruct (has_keyword (full_text_of post)); cbn [negb].
  2: { destruct dry_run; bind; now rewrite queue_after_nil. }
  destruct (legacy_parse_text_total (full_text_of post)) as [parsed ->]. bind.
  destruct dry_run; bind; [reflexivity|].
  destruct (confidence_tier parsed) eqn:Ht; bind;
    [now rewrite queue_after_nil|..];
    (destruct (build_entry clock calls post parsed _) as [[e n]|] eqn:Eb; bind;
     [|reflexivity];
     apply legacy_build_entry_facts in Eb as (_ & He & _);
     rewrite (queue_append_after _ e queue) by (auto; discriminate);
     reflexivity).
Qed.

(** The loop, exactly. *)
Lemma legacy_process_loop_exact clock dry_run known :
  forall posts queue new_urls stats calls,
    process_loop clock dry_run known posts (queue, new_urls, stats) calls
    = ('(es, n) ← (if dry_run then Some ([], calls)
                   else staged_from clock known calls posts);
       Some (queue_after dry_run queue es,
             new_urls ∪ list_to_set (post_url <$> fresh_posts known posts),
             foldl (fun s p => bump (outcome known p) (bump "seen" s)) stats posts,
             n)).
Proof.
  induction posts as [|post posts IH]; intros queue new_urls stats calls.
  - cbn [process_loop staged_from foldl]. unfold fresh_posts.
    rewrite filter_nil, fmap_nil, list_to_set_nil, (right_id_L ∅ (∪)).
    destruct dry_run; bind; now rewrite queue_after_nil.
  - cbn [process_loop]. rewrite legacy_process_post_exact.
    cbn [staged_from foldl].
    assert (Hurls : (if bool_decide (post_url post ∈ known) then new_urls
                     else {[post_url post]} ∪ new_urls)
                    ∪ list_to_set (post_url <$> fresh_posts known posts)
                    = new_urls
                      ∪ list_to_set (post_url <$> fresh_posts known (post :: posts))).
    { unfold fresh_posts. case_bool_decide as Hk.
      - rewrite filter_cons_False by (intros Hn; apply Hn; exact Hk).
        reflexivity.
      - rewrite filter_cons_True by exact Hk.
        rewrite fmap_cons, list_to_set_cons.
        now rewrite (comm_L (∪) _ new_urls), (assoc_L (∪)). }
    destruct dry_run; bind.
    { rewrite IH. bind. rewrite Hurls, queue_after_app. reflexivity. }
    destruct (to_stage known post) as [[parsed t]|]; bind.
    + destruct (build_entry clock calls post parsed t) as [[e c]|]; bind;
        [|reflexivity].
      rewrite IH.
      destruct (staged_from clock known c posts) as [[es n]|]; bind;
        [|reflexivity].
      rewrite Hurls, queue_after_app. reflexivity.
    + rewrite IH.
      destruct (staged_from clock known calls posts) as [[es n]|]; bind;
        [|reflexivity].
      rewrite Hurls, queue_after_app. reflexivity.
Qed.

(** The counters after the loop. *)
Lemma legacy_loop_counters known : forall posts (stats : Stats),
  (forall k, counter k (foldl (fun s p => bump (outcome known p) (bump "seen" s))
                              stats posts)
             = counter k stats
               + (if bool_decide (k = "seen") then Z.of_nat (length posts) else 0)
               + count_of (fun p => outcome known p = k) posts)
  /\ dom stats ⊆ dom (foldl (fun s p => bump (outcome known p) (bump "seen" s))
                            stats posts)
  /\ dom (foldl (fun s p => bump (outcome known p) (bump "seen" s)) stats posts)
     ⊆ dom stats ∪ counter_names.
Proof.
  induction posts as [|post posts IH]; intros stats.
  - cbn [foldl]. split; [|split].
    + intros k. unfold count_of. rewrite filter_nil. cbn [length].
      case_bool_decide; lia.
    + reflexivity.
    + apply union_subseteq_l.
  - cbn [foldl].
    destruct (IH (bump (outcome known post) (bump "seen" stats)))
      as (Hc & Hd1 & Hd2).
    split; [|split].
    + intros k. rewrite Hc, !counter_bump_legacy, count_of_cons, length_cons.
      pose proof (legacy_outcome_cases known post) as Ho.
      repeat case_bool_decide; subst; try lia;
        try (exfalso; destruct Ho as [Ho|[Ho|[Ho|[Ho|Ho]]]]; congruence).
    + etrans; [|exact Hd1]. unfold bump. rewrite !dom_insert_L.
      etrans; [|apply union_subseteq_r]. apply union_subseteq_r.
    + etrans; [exact Hd2|]. unfold bump. rewrite !dom_insert_L.
      assert (outcome known post ∈ counter_names).
      { destruct (legacy_outcome_cases known post) as [->|[->|[->|[->| ->]]]];
          vm_compute; reflexivity. }
      assert ("seen" ∈ counter_names) by (vm_compute; reflexivity).
      repeat apply union_least; try apply singleton_subseteq_l;
        try (apply elem_of_union_r; assumption);
        solve [apply union_subseteq_l | apply union_subseteq_r].
Qed.

Lemma legacy_outcomes_split known posts :
  Z.of_nat (length posts)
  = count_of (fun p => outcome known p = "skipped_dup") posts
    + count_of (fun p => outcome known p = "no_keyword") posts
    + count_of (fun p => outcome known p = "auto") posts
    + count_of (fun p => outcome known p = "review") posts
    + count_of (fun p => outcome known p = "discard") posts.
Proof.
  induction posts as [|post posts IH]; [reflexivity|].
  rewrite !count_of_cons, length_cons.
  destruct (legacy_outcome_cases known post) as [H|[H|[H|[H|H]]]]; rewrite H;
    repeat case_bool_decide; try discriminate; try congruence; lia.
Qed.

(** The entries are built exactly where the timestamps are in range. *)
Lemma legacy_staged_from_some clock known : forall posts calls,
  timestamps_in_range clock known posts
  <-> is_Some (staged_from clock known calls posts).
Proof.
  unfold timestamps_in_range.
  induction posts as [|post posts IH]; intros calls.
  - cbn. split; [eauto|]. intros _ p Hp. inversion Hp.
  - cbn [staged_from].
    destruct (to_stage known post) as [[parsed t]|] eqn:Es.
    + pose proof (legacy_build_entry_some clock calls post parsed t) as Hb.
      destruct (build_entry clock calls post parsed t) as [[e c]|]; bind.
      * specialize (IH c).
        destruct (staged_from clock known c posts) as [[es n]|]; bind.
        -- split; [eauto|]. intros _ p Hp Hs.
           apply elem_of_cons in Hp as [->|Hp]; [apply Hb; eauto|].
           apply IH; eauto.
        -- split; [|intros [? [=]]]. intros H.
           assert (is_Some (@None (list StagingEntry * nat))) as [? [=]].
           apply IH. intros p Hp. apply H. now right.
      * split; [|intros [? [=]]]. intros H.
        assert (is_Some (@None (StagingEntry * nat))) as [? [=]].
        apply Hb, H; [left|rewrite Es; eauto].
    + rewrite <- IH. split.
      * intros H p Hp. apply H. now right.
      * intros H p Hp Hs. apply elem_of_cons in Hp as [->|Hp]; [|eauto].
        rewrite Es in Hs. destruct Hs as [? [=]].
Qed.

(** The entries built, post by post. *)
Lemma legacy_staged_from_entries clock known : forall posts calls es n,
  staged_from clock known calls posts = Some (es, n) ->
  Forall2 (fun p e =>
             exists c,
               to_stage known p = Some (signals e, tier e)
               /\ build_entry clock c p (signals e) (tier e) = Some (e, S c))
          (filter (fun p => is_Some (to_stage known p)) posts) es.
Proof.
  induction posts as [|post posts IH]; intros calls es n.
  - intros [= <- _]. constructor.
  - cbn [staged_from].
    destruct (to_stage known post) as [[parsed t]|] eqn:Es.
    + destruct (build_entry clock calls post parsed t) as [[e c]|] eqn:Eb; bind;
        [|discriminate].
      destruct (staged_from clock known c posts) as [[es' n']|] eqn:E; bind;
        [|discriminate].
      intros [= <- <-]. rewrite filter_cons_True by (rewrite Es; eauto).
      constructor; [|eauto].
      destruct (legacy_build_entry_facts _ _ _ _ _ _ _ Eb) as (_ & Ht & Hs & ->).
      exists calls. rewrite Hs, Ht. auto.
    + intros H. rewrite filter_cons_False by (rewrite Es; intros [? [=]]).
      eauto.
Qed.

(** The entries built for either tier are as many as the posts counted
    for it. *)
Lemma legacy_staged_count clock known : forall posts calls es n,
  staged_from clock known calls posts = Some (es, n) ->
  Z.of_nat (length (filter (fun e => tier e = Auto) es))
  = count_of (fun p => outcome known p = "auto") posts
  /\ Z.of_nat (length (filter (fun e => tier e = Review) es))
     = count_of (fun p => outcome known p = "review") posts.
Proof.
  induction posts as [|post posts IH]; intros calls es n.
  - intros [= <- _]. split; reflexivity.
  - cbn [staged_from]. rewrite !count_of_cons.
    destruct (legacy_to_stage_facts known post) as [Hs Hn].
    destruct (to_stage known post) as [[parsed t]|] eqn:Es.
    + destruct (build_entry clock calls post parsed t) as [[e c]|] eqn:Eb; bind;
        [|discriminate].
      destruct (staged_from clock known c posts) as [[es' n']|] eqn:E; bind;
        [|discriminate].
      intros [= <- <-]. destruct (IH _ _ _ E) as [IHa IHr].
      destruct (legacy_build_entry_facts _ _ _ _ _ _ _ Eb) as (_ & Ht & _).
      destruct (Hs parsed t eq_refl) as (_ & _ & _ & _ & Hd & Ho). rewrite Ho.
      destruct t; [congruence|..]; cbn [tier_name].
      * rewrite filter_cons_False, filter_cons_True, length_cons
          by (rewrite ?Ht; congruence).
        rewrite bool_decide_eq_false_2, bool_decide_eq_true_2 by congruence.
        split; lia.
      * rewrite filter_cons_True, filter_cons_False, length_cons
          by (rewrite ?Ht; congruence).
        rewrite bool_decide_eq_true_2, bool_decide_eq_false_2 by congruence.
        split; lia.
    + intros H. destruct (IH _ _ _ H) as [IHa IHr].
      destruct (Hn eq_refl) as [H1 H2].
      rewrite !bool_decide_eq_false_2 by assumption. split; lia.
Qed.

Lemma counter_initial_legacy k : counter k initial_stats = 0.
Proof.
  unfold counter. destruct (initial_stats !! k) as [z|] eqn:E; [|reflexivity].
  apply elem_of_list_to_map_2 in E. cbn.
  repeat (apply elem_of_cons in E as [[= _ <-]|E]; [reflexivity|]).
  inversion E.
Qed.

Lemma dom_initial_legacy : dom initial_stats = counter_names.
Proof. vm_compute. reflexivity. Qed.

Lemma legacy_registry known posts :
  known ∪ list_to_set (post_url <$> fresh_posts known posts)
  = known ∪ list_to_set (post_url <$> posts).
Proof.
  apply set_eq. intros u.
  rewrite !elem_of_union, !elem_of_list_to_set, !list_elem_of_fmap.
  unfold fresh_posts. split.
  - intros [?|(p & -> & Hp)]; [auto|].
    apply list_elem_of_filter in Hp as [_ Hp]. right. eauto.
  - intros [?|(p & -> & Hp)]; [auto|].
    destruct (decide (post_url p ∈ known)); [auto|]. right.
    exists p. split; [reflexivity|]. apply list_elem_of_filter. auto.
Qed.

(** A run of [run_scraper]: a dry run always returns; a run that writes
    returns where the timestamps are in range, and raises elsewhere. *)
Lemma legacy_run_scraper_exact fetched known :
  exists stats,
    (forall clock dry_run queue,
        run_scraper clock dry_run fetched known queue
        = ('(es, _) ← (if dry_run then Some ([], 0%nat)
                       else staged_from clock known 0 (concat fetched));
           Some (queue_after dry_run queue es,
                 known ∪ list_to_set (post_url <$> concat fetched), stats)))
    /\ dom stats = counter_names
    /\ counter "seen" stats = Z.of_nat (length (concat fetched))
    /\ (forall k, k <> "seen" ->
                  counter k stats
                  = count_of (fun p => outcome known p = k) (concat fetched)).
Proof.
  set (posts := concat fetched).
  destruct (legacy_loop_counters known posts initial_stats) as (Hc & Hd1 & Hd2).
  eexists. split; [|split; [|split]].
  - intros clock dry_run queue.
    unfold run_scraper. rewrite legacy_process_loop_exact. fold posts.
    destruct (if dry_run then Some ([], 0%nat)
              else staged_from clock known 0 posts) as [[es n]|]; bind;
      [|reflexivity].
    rewrite (left_id_L ∅ (∪)), legacy_registry. reflexivity.
  - rewrite dom_initial_legacy in *. apply (anti_symm (⊆)); [|exact Hd1].
    etrans; [exact Hd2|]. now apply union_least.
  - rewrite Hc, counter_initial_legacy.
    rewrite bool_decide_eq_true_2 by reflexivity.
    assert (count_of (fun p => outcome known p = "seen") posts = 0) as ->; [|lia].
    unfold count_of. clear. induction posts as [|post posts IH]; [reflexivity|].
    rewrite filter_cons_False; [exact IH|].
    destruct (legacy_outcome_cases known post) as [->|[->|[->|[->| ->]]]];
      discriminate.
  - intros k Hk. rewrite Hc, counter_initial_legacy.
    rewrite bool_decide_eq_false_2 by exact Hk. lia.
Qed.

(** The example clock converts the timestamp of the example post. *)
Lemma legacy_example_timestamps_in_range known :
  timestamps_in_range LegExamples.clock known [LegExamples.tropicana_post].
Proof.
  intros p Hp _. apply list_elem_of_singleton in Hp as ->. vm_compute. eauto.
Qed.

End LegacyLoop.

(** ** Floats and the promotion engine *)

Section Promotion.

Import RedditPublicScraper PubTerms.

(** A number above zero is not zero: the guard of the percentage keeps
    the division away from a zero divisor. *)
Lemma positive_not_zero (x : float) :
  PrimFloat.ltb 0 x = true -> PrimFloat.eqb x 0 = false.
Proof.
  rewrite FloatAxioms.ltb_spec, FloatAxioms.eqb_spec.
  change (Prim2SF 0) with (S754_zero false).
  destruct (Prim2SF x) as [s|s| |s m e]; try destruct s; vm_compute; congruence.
Qed.

Lemma shrink_pct_value (old_s new_s : float) :
  shrink_pct old_s new_s
  = Some (if PrimFloat.ltb 0 old_s
          then PyFloat.round2 (((old_s - new_s) / old_s) * 100)%float
          else 0%float).
Proof.
  unfold shrink_pct, PyFloat.truediv.
  destruct (PrimFloat.ltb 0 old_s) eqn:E; [|reflexivity].
  now rewrite (positive_not_zero old_s E).
Qed.

Lemma truthy_some (o : option float) :
  PyFloat.truthy o = true -> exists x, o = Some x.
Proof. destruct o; [eauto|discriminate]. Qed.

(** A row that passed the guard and carries a date gets its records. *)
Lemma records_of_dated row :
  has_sizes (entry row) = true -> is_Some (event_date_of (entry row)) ->
  is_Some (records_of row).
Proof.
  unfold has_sizes, records_of. intros Hs [d Hd].
  apply andb_prop in Hs as [Ho Hn].
  apply truthy_some in Ho as [o Ho]. apply truthy_some in Hn as [n Hn].
  rewrite Ho, Hn. bind. rewrite shrink_pct_value. bind. rewrite Hd. bind. eauto.
Qed.

Lemma records_of_fields row product event :
  records_of row = Some (product, event) ->
  product_upc product = "REDDIT-" ++ PyStr.slice_to 8 (id row)
  /\ product_unit product = record_unit (entry row)
  /\ event_unit event = record_unit (entry row)
  /\ exists o n,
       old_size (signals (entry row)) = Some o
       /\ new_size (signals (entry row)) = Some n
       /\ event_old_size event = o /\ event_new_size event = n
       /\ product_current_size product = n
       /\ shrink_pct o n = Some (event_pct event).
Proof.
  unfold records_of. intros H.
  destruct (old_size (signals (entry row))) as [o|]; [|discriminate].
  destruct (new_size (signals (entry row))) as [n|]; [|discriminate].
  bind. destruct (shrink_pct o n) as [pct|] eqn:Ep; [|discriminate].
  bind. destruct (event_date_of (entry row)) as [d|]; [|discriminate].
  bind. injection H as <- <-. cbn. eauto 12.
Qed.

(** A turn of the loop for a row with its records: the writes go through
    as far as the store accepts them, and the row counts when all three
    did. *)
Lemma promote_entry_turn refused row db sent p e :
  has_sizes (entry row) = true -> records_of row = Some (p, e) ->
  exists db1 k sent1,
    promote_entry refused row db sent = Some (db1, k, sent1)
    /\ ((db1 = db /\ k = 0)
        \/ (db1 = upsert_product p db /\ k = 0)
        \/ (db1 = insert_event e (upsert_product p db) /\ k = 0)
        \/ (db1 = update_status (id row) (insert_event e (upsert_product p db))
            /\ k = 1))
    /\ ((forall n, refused n = false) ->
        db1 = update_status (id row) (insert_event e (upsert_product p db))
        /\ k = 1).
Proof.
  intros Hs Hr. unfold promote_entry, execute. rewrite Hs, Hr. cbn [negb]. bind.
  destruct (refused sent) eqn:E1; cbn [negb].
  { eexists _, _, _. split; [reflexivity|]. split; [auto|].
    intros H. rewrite H in E1. discriminate. }
  destruct (refused (S sent)) eqn:E2; cbn [negb].
  { eexists _, _, _. split; [reflexivity|]. split; [auto|].
    intros H. rewrite H in E2. discriminate. }
  destruct (refused (S (S sent))) eqn:E3; cbn [negb].
  { eexists _, _, _. split; [reflexivity|]. split; [auto|].
    intros H. rewrite H in E3. discriminate. }
  eexists _, _, _. split; [reflexivity|]. split; [auto 6|auto].
Qed.

(** A row without both sizes is passed over. *)
Lemma promote_entry_skip refused row db sent :
  has_sizes (entry row) = false ->
  promote_entry refused row db sent = Some (db, 0, sent).
Proof. intros Hs. unfold promote_entry. now rewrite Hs. Qed.

(** The loop on a store that accepts every request. *)
Lemma promote_loop_spec refused :
  (forall n, refused n = false) ->
  forall rows db count sent,
  (forall row, row ∈ rows -> has_sizes (entry row) = true ->
               is_Some (event_date_of (entry row))) ->
  exists recs,
    Forall2 (fun row pe => records_of row = Some pe)
            (filter (fun row => has_sizes (entry row) = true) rows) recs
    /\ promote_loop refused rows db count sent
       = (mkDb (mark_all (filter (fun row => has_sizes (entry row) = true) rows)
                         (reddit_staging db))
               (upsert_all (fst <$> recs) (products db))
               (events db ++ (snd <$> recs))%list,
          Some (count + Z.of_nat (length recs))).
Proof.
  intros Hacc. induction rows as [|row rows IH]; intros db count sent Hd.
  - exists []. split; [constructor|]. cbn. rewrite app_nil_r, Z.add_0_r.
    now destruct db.
  - cbn [promote_loop].
    destruct (has_sizes (entry row)) eqn:Hs.
    + destruct (records_of_dated row Hs) as [[p e] Hr].
      { apply Hd; [left|exact Hs]. }
      destruct (promote_entry_turn refused row db sent p e Hs Hr)
        as (db1 & k & sent1 & -> & _ & Hall).
      destruct (Hall Hacc) as [-> ->].
      destruct (IH (update_status (id row) (insert_event e (upsert_product p db)))
                   (count + 1) sent1)
        as (recs & HF & ->).
      { intros r Hin. apply Hd. now right. }
      exists ((p, e) :: recs). rewrite filter_cons_True by exact Hs. split.
      * constructor; assumption.
      * cbn. rewrite <- app_assoc. do 2 f_equal. lia.
    + rewrite promote_entry_skip by exact Hs.
      destruct (IH db (count + 0) sent) as (recs & HF & ->).
      { intros r Hin. apply Hd. now right. }
      exists recs. rewrite filter_cons_False by congruence. split; [exact HF|].
      do 2 f_equal. lia.
Qed.

(** The loop on any store: it runs to its end when the rows with sizes
    are dated, counts no more than these rows, and writes nothing but
    their records. *)
Lemma promote_loop_any refused :
  forall rows db count sent,
  (forall row, row ∈ rows -> has_sizes (entry row) = true ->
               is_Some (event_date_of (entry row))) ->
  exists (recs : list (Product * Event)) db' n,
    Forall2 (fun row pe => records_of row = Some pe)
            (filter (fun row => has_sizes (entry row) = true) rows) recs
    /\ promote_loop refused rows db count sent = (db', Some n)
    /\ count <= n <= count + Z.of_nat (length recs)
    /\ (exists evs, evs `sublist_of` recs.*2
                    /\ events db' = (events db ++ evs)%list)
    /\ (forall upc q, products db' !! upc = Some q ->
                      products db !! upc = Some q \/ q ∈ recs.*1).
Proof.
  induction rows as [|row rows IH]; intros db count sent Hd.
  - exists [], db, count. split; [constructor|]. split; [reflexivity|].
    split; [cbn; lia|]. split; [|auto].
    exists []. split; [reflexivity|]. now rewrite app_nil_r.
  - cbn [promote_loop].
    destruct (has_sizes (entry row)) eqn:Hs.
    + destruct (records_of_dated row Hs) as [[p e] Hr].
      { apply Hd; [left|exact Hs]. }
      destruct (promote_entry_turn refused row db sent p e Hs Hr)
        as (db1 & k & sent1 & -> & Hcase & _).
      destruct (IH db1 (count + k) sent1)
        as (recs & db' & n & HF & -> & Hn & (evs & Hsub & Hev) & Hp).
      { intros r Hin. apply Hd. now right. }
      exists ((p, e) :: recs), db', n. rewrite filter_cons_True by exact Hs.
      split; [constructor; assumption|]. split; [reflexivity|].
      assert (Hk : 0 <= k <= 1)
        by (destruct Hcase as [[_ ->]|[[_ ->]|[[_ ->]|[_ ->]]]]; lia).
      split; [rewrite length_cons; lia|].
      assert (Hev1 : events db1 = events db
                     \/ events db1 = (events db ++ [e])%list)
        by (destruct Hcase as [[-> _]|[[-> _]|[[-> _]|[-> _]]]]; cbn; auto).
      assert (Hp1 : products db1 = products db
                    \/ products db1 = <[product_upc p := p]> (products db))
        by (destruct Hcase as [[-> _]|[[-> _]|[[-> _]|[-> _]]]]; cbn; auto).
      split.
      * rewrite fmap_cons. cbn [snd].
        destruct Hev1 as [He|He]; rewrite He in Hev.
        -- exists evs. split; [now apply sublist_cons|exact Hev].
        -- exists (e :: evs). split; [now apply sublist_skip|].
           rewrite Hev, <- app_assoc. reflexivity.
      * intros upc q Hq. rewrite fmap_cons. cbn [fst].
        apply Hp in Hq as [Hq|Hq]; [|right; now right].
        destruct Hp1 as [H1|H1]; rewrite H1 in Hq; [auto|].
        apply lookup_insert_Some in Hq as [[_ <-]|[_ Hq]]; [right; left|auto].
    + rewrite promote_entry_skip by exact Hs.
      destruct (IH db (count + 0) sent)
        as (recs & db' & n & HF & -> & Hn & Hev & Hp).
      { intros r Hin. apply Hd. now right. }
      exists recs, db', n. rewrite filter_cons_False by congruence.
      split; [exact HF|]. split; [reflexivity|]. split; [lia|]. auto.
Qed.

Lemma record_unit_rule (e : StagingEntry) :
  record_unit e
  = match new_unit (signals e) with
    | Some (String c u) => String c u
    | _ => match old_unit (signals e) with
           | Some (String c u) => String c u
           | _ => "oz"
           end
    end.
Proof.
  unfold record_unit, PyStr.or_else.
  destruct (new_unit (signals e)) as [[|c u]|],
           (old_unit (signals e)) as [[|d v]|]; reflexivity.
Qed.

End Promotion.

(** ** The extractor's results *)

Section Extraction.

Import Re ReShape.

(** In reddit_public_scraper an explicit result comes from an explicit
    match whose two values differ, the larger one stored as the old
    size together with its own unit. *)
Lemma public_explicit_sizes text r :
  Pub.parse_text text = Some r -> explicit_from_to r = true ->
  exists m v1 v3,
    Pub.explicit_match text = Some m
    /\ float_of_group m 1 = Some v1 /\ float_of_group m 3 = Some v3
    /\ ((PrimFloat.ltb v3 v1 = true
         /\ old_size r = Some v1 /\ new_size r = Some v3
         /\ old_unit r = Some (PubTerms.matched_old_unit m)
         /\ new_unit r = Some (PubTerms.matched_new_unit m))
        \/ (PrimFloat.ltb v1 v3 = true
            /\ old_size r = Some v3 /\ new_size r = Some v1
            /\ old_unit r = Some (PubTerms.matched_new_unit m)
            /\ new_unit r = Some (PubTerms.matched_old_unit m)))
    /\ exists o n, old_size r = Some o /\ new_size r = Some n
                   /\ PrimFloat.ltb n o = true.
Proof.
  intros Hp He.
  destruct (public_parse_text_steps text) as (r1 & r2 & r3 & H1 & H2 & H3 & Hr).
  rewrite Hr in Hp. injection Hp as <-.
  public_price_cases text H3.
  all: destruct (public_explicit_step_cases text (Pub.brand_step text empty_signals))
      as [[_ H]|(m & w1 & w3 & Hm & Hw1 & Hw3
                 & [[Hlt H]|[(Hge & Hlt & H)|(_ & _ & H)]])];
    rewrite H in H1; injection H1 as <-; clear H.
  all: public_brand_cases text.
  all: try (rewrite public_implicit_step_explicit in H2 by reflexivity;
            injection H2 as <-; exists m, w1, w3;
            split; [exact Hm|]; split; [exact Hw1|]; split; [exact Hw3|];
            split; [first [left; repeat split; [exact Hlt|..]; reflexivity
                          |right; repeat split; [exact Hlt|..]; reflexivity]
                   |eexists; eexists; split; [reflexivity|];
                    split; [reflexivity|exact Hlt]]).
  all: exfalso.
  all: match type of H2 with Pub.implicit_step _ ?r = _ =>
         destruct (public_implicit_step_cases text r eq_refl)
           as [[_ H]|[(? & ? & _ & _ & H)
                     |(? & ? & ? & ? & y1 & y2 & _ & _ & _ & _ & H)]]
       end;
    rewrite H in H2; injection H2 as <-; clear H.
  all: unfold PubTerms.implicit_pair in He.
  all: repeat match type of He with
              | context [negb (PrimFloat.eqb ?a ?b) && ?c] =>
                  destruct (negb (PrimFloat.eqb a b) && c)
              | context [PrimFloat.ltb ?a ?b] => destruct (PrimFloat.ltb a b)
              end.
  all: discriminate He.
Qed.

(** In reddit_scraper an explicit result comes from a match of the
    from-to pattern and keeps the two values in the order of the text. *)
Lemma legacy_explicit_sizes text r :
  Leg.parse_text text = Some r -> explicit_from_to r = true ->
  exists m v1 v3,
    search Leg.FROM_TO_PATTERN text = Some m
    /\ float_of_group m 1 = Some v1 /\ float_of_group m 3 = Some v3
    /\ old_size r = Some v1 /\ new_size r = Some v3
    /\ old_unit r = Some (LegTerms.matched_old_unit m)
    /\ new_unit r = Some (LegTerms.matched_new_unit m).
Proof.
  intros Hp He.
  destruct (legacy_parse_text_steps text) as (r1 & r2 & H1 & H2 & Hr).
  rewrite Hr in Hp. injection Hp as <-.
  legacy_price_cases text H2.
  all: destruct (legacy_size_step_cases text (Leg.brand_step text empty_signals))
      as [(m & w1 & w3 & Hm & Hw1 & Hw3 & H)
         |[_ [[_ H]|[(? & ? & _ & _ & H)
                    |(? & ? & ? & ? & y1 & y2 & _ & _ & _ & _ & H)]]]];
    rewrite H in H1; injection H1 as <-; clear H.
  all: legacy_brand_cases text.
  all: try (exists m, w1, w3; repeat split; assumption || reflexivity).
  all: exfalso; unfold LegTerms.implicit_record in He.
  all: repeat match type of He with
              | context [negb (PrimFloat.eqb ?a ?b)] =>
                  destruct (negb (PrimFloat.eqb a b))
              end.
  all: discriminate He.
Qed.

(** The implicit step of reddit_public_scraper. *)
Lemma public_implicit_sizes text :
  Pub.explicit_match text = None ->
  exists r, Pub.parse_text text = Some r /\ explicit_from_to r = false
            /\ PubTerms.implicit_outcome (findall Pub.UNIT_PATTERN text) r.
Proof.
  intros Hno.
  destruct (public_parse_text_steps text) as (r1 & r2 & r3 & H1 & H2 & H3 & Hr).
  rewrite Hr. eexists; split; [reflexivity|].
  destruct (public_explicit_step_cases text (Pub.brand_step text empty_signals))
    as [[_ H]|(m & _ & _ & Hm & _)]; [|congruence].
  rewrite H in H1; injection H1 as <-; clear H.
  public_price_cases text H3.
  all: public_brand_cases text.
  all: match type of H2 with Pub.implicit_step _ ?r = _ =>
         destruct (public_implicit_step_cases text r eq_refl)
           as [[Hu H]|[(u & v & Hu & Hv & H)
                     |(f & s & o & l & y1 & y2 & Hu & Hl & Hy1 & Hy2 & H)]]
       end;
    rewrite H in H2; injection H2 as <-; clear H; rewrite Hu.
  all: unfold PubTerms.implicit_outcome, no_size_signal, size_points,
         brand_points, price_points.
  all: try (split; [reflexivity|]).
  all: try (repeat split; reflexivity).
  all: try (exists v; repeat split; auto; reflexivity).
  all: split;
    [destruct (negb (PrimFloat.eqb y1 y2)
               && String.eqb (PubTerms.mention_unit f) (PubTerms.mention_unit l));
     [unfold PubTerms.implicit_pair; destruct (PrimFloat.ltb y2 y1)|];
     reflexivity|].
  all: exists l, y1, y2; split; [exact Hl|]; split; [exact Hy1|];
    split; [exact Hy2|].
  all: destruct (negb (PrimFloat.eqb y1 y2)
                 && String.eqb (PubTerms.mention_unit f) (PubTerms.mention_unit l));
    [unfold PubTerms.implicit_pair; destruct (PrimFloat.ltb y2 y1)|];
    repeat split; reflexivity.
Qed.

(** The implicit branch of reddit_scraper. *)
Lemma legacy_implicit_sizes text :
  search Leg.FROM_TO_PATTERN text = None ->
  exists r, Leg.parse_text text = Some r /\ explicit_from_to r = false
            /\ LegTerms.implicit_outcome (findall Leg.UNIT_PATTERN text) r.
Proof.
  intros Hno.
  destruct (legacy_parse_text_steps text) as (r1 & r2 & H1 & H2 & Hr).
  rewrite Hr. eexists; split; [reflexivity|].
  destruct (legacy_size_step_cases text (Leg.brand_step text empty_signals))
    as [(m & _ & _ & Hm & _)
       |[_ [[Hu H]|[(u & v & Hu & Hv & H)
                  |(f & s & o & l & y1 & y2 & Hu & Hl & Hy1 & Hy2 & H)]]]];
    [congruence|..];
    rewrite H in H1; injection H1 as <-; clear H; rewrite Hu.
  all: legacy_price_cases text H2.
  all: legacy_brand_cases text.
  all: unfold LegTerms.implicit_outcome, no_size_signal, size_points,
         brand_points, price_points, LegTerms.implicit_record.
  all: try (repeat split; reflexivity).
  all: try (split; [reflexivity|]; exists v; repeat split; auto; reflexivity).
  all: split; [destruct (PrimFloat.eqb y1 y2); reflexivity|].
  all: exists l, y1, y2; split; [exact Hl|]; split; [exact Hy1|];
    split; [exact Hy2|].
  all: destruct (PrimFloat.eqb y1 y2); repeat split; reflexivity.
Qed.

End Extraction.

Section Counting.

Import Re ReShape.

Lemma public_fields_accounted text :
  exists r, Pub.parse_text text = Some r /\ fields_accounted r.
Proof.
  destruct (public_parse_text_steps text) as (r1 & r2 & r3 & H1 & H2 & H3 & ->).
  eexists; split; [reflexivity|].
  public_price_cases text H3.
  all: destruct (public_explicit_step_cases text (Pub.brand_step text empty_signals))
      as [[_ H]|(m & w1 & w3 & _ & _ & _ & [[_ H]|[(_ & _ & H)|(_ & _ & H)]])];
    rewrite H in H1; injection H1 as <-; clear H.
  all: public_brand_cases text.
  all: lazymatch type of H2 with
       | context [set_explicit_from_to] =>
           rewrite public_implicit_step_explicit in H2 by reflexivity;
           injection H2 as <-; unfold fields_accounted, Pub.hint_step; fields;
           lia
       | _ => idtac
       end.
  all: match type of H2 with Pub.implicit_step _ ?r = _ =>
         destruct (public_implicit_step_cases text r eq_refl)
           as [[_ H]|[(? & ? & _ & _ & H)
                     |(? & ? & ? & ? & y1 & y2 & _ & _ & _ & _ & H)]]
       end;
    rewrite H in H2; injection H2 as <-; clear H.
  all: unfold fields_accounted, PubTerms.implicit_pair, Pub.hint_step.
  all: float_cases.
  all: fields; lia.
Qed.

Lemma legacy_fields_accounted text :
  exists r, Leg.parse_text text = Some r /\ fields_accounted r.
Proof.
  destruct (legacy_parse_text_steps text) as (r1 & r2 & H1 & H2 & ->).
  eexists; split; [reflexivity|].
  legacy_price_cases text H2.
  all: destruct (legacy_size_step_cases text (Leg.brand_step text empty_signals))
      as [(m & w1 & w3 & _ & _ & _ & H)
         |[_ [[_ H]|[(? & ? & _ & _ & H)
                    |(? & ? & ? & ? & y1 & y2 & _ & _ & _ & _ & H)]]]];
    rewrite H in H1; injection H1 as <-; clear H.
  all: legacy_brand_cases text.
  all: unfold fields_accounted, LegTerms.explicit_record,
         LegTerms.implicit_record, Leg.hint_step.
  all: float_cases.
  all: fields; lia.
Qed.

(** *** Brands *)

Lemma public_first_brand_in brands t b :
  Pub.first_brand brands t = Some b -> In b brands.
Proof.
  induction brands as [|x brands IH]; simpl; [discriminate|].
  destruct (PyStr.contains x t); [intros H; injection H as ->|]; auto.
Qed.

Lemma legacy_first_brand_in brands t b :
  Leg.first_brand brands t = Some b -> In b brands.
Proof.
  induction brands as [|x brands IH]; simpl; [discriminate|].
  destruct (PyStr.contains x t); [intros H; injection H as ->|]; auto.
Qed.

Lemma titled_brand_truthy (brands : list string) b :
  forallb (fun x => negb (PyStr.is_empty x)) brands = true -> In b brands ->
  PyStr.truthy (Some (PyStr.title b)) = true.
Proof.
  rewrite forallb_forall. intros Hall Hin. apply Hall in Hin.
  destruct b as [|c b]; [discriminate|]. simpl.
  unfold PyStr.title. simpl. now destruct (PyStr.is_alpha c).
Qed.

(** The brand of an extracted record is never the empty string: on what
    the extractor returns, a brand that is set is a brand that is true. *)
Lemma public_brand_truthy text r :
  Pub.parse_text text = Some r ->
  PyStr.truthy (brand r) = true <-> brand r <> None.
Proof.
  intros Hp.
  destruct (public_parse_text_steps text) as (r1 & r2 & r3 & H1 & H2 & H3 & Hr).
  rewrite Hr in Hp. injection Hp as <-.
  assert (Hb : brand r3 = brand (Pub.brand_step text empty_signals)).
  { public_price_cases text H3.
    all: destruct (public_explicit_step_cases text
                     (Pub.brand_step text empty_signals))
        as [[_ H]|(m & w1 & w3 & _ & _ & _ & [[_ H]|[(_ & _ & H)|(_ & _ & H)]])];
      rewrite H in H1; injection H1 as <-; clear H.
    all: try (rewrite public_implicit_step_explicit in H2 by reflexivity;
              injection H2 as <-; reflexivity).
    all: destruct (explicit_from_to (Pub.brand_step text empty_signals)) eqn:He;
      [rewrite public_implicit_step_explicit in H2 by exact He;
       injection H2 as <-; reflexivity|].
    all: destruct (public_implicit_step_cases text _ He)
        as [[_ H]|[(? & ? & _ & _ & H)
                  |(? & ? & ? & ? & y1 & y2 & _ & _ & _ & _ & H)]];
      rewrite H in H2; injection H2 as <-; clear H.
    all: unfold PubTerms.implicit_pair; float_cases; reflexivity. }
  unfold Pub.hint_step. fields. rewrite Hb.
  destruct (public_brand_step_cases text empty_signals) as [[_ ->]|(b & Hf & ->)].
  - fields. simpl. split; [discriminate|congruence].
  - fields. apply public_first_brand_in in Hf.
    rewrite (titled_brand_truthy Pub.KNOWN_BRANDS b eq_refl Hf).
    split; [discriminate|reflexivity].
Qed.

End Counting.

Section Phrase.

Import Re.

Lemma public_phrase_match prev suf :
  match_here Pub.FROM_TO_PATTERN prev (phrase ++ suf)
  = Some ([(4, "oz"); (3, "46"); (2, "oz"); (1, "52")]%nat,
          mkCursor (Some "z"%char) 17 suf).
Proof. vm_compute. reflexivity. Qed.

Lemma legacy_phrase_match prev suf :
  match_here Leg.FROM_TO_PATTERN prev (phrase ++ suf)
  = Some ([(4, "oz"); (3, "46"); (2, "oz"); (1, "52")]%nat,
          mkCursor (Some "z"%char) 17 suf).
Proof. vm_compute. reflexivity. Qed.

(** The same behind the word that the pattern's third opening takes in. *)
Lemma public_went_phrase_match prev suf :
  match_here Pub.FROM_TO_PATTERN prev ("went " ++ phrase ++ suf)
  = Some ([(4, "oz"); (3, "46"); (2, "oz"); (1, "52")]%nat,
          mkCursor (Some "z"%char) 22 suf).
Proof. vm_compute. reflexivity. Qed.

Lemma legacy_went_phrase_match prev suf :
  match_here Leg.FROM_TO_PATTERN prev ("went " ++ phrase ++ suf)
  = Some ([(4, "oz"); (3, "46"); (2, "oz"); (1, "52")]%nat,
          mkCursor (Some "z"%char) 22 suf).
Proof. vm_compute. reflexivity. Qed.

Lemma public_phrase_extracted pre lead suf :
  lead = "" \/ lead = "went " ->
  starts_none Pub.FROM_TO_PATTERN None pre (lead ++ phrase ++ suf) = true ->
  exists r, Pub.parse_text (pre ++ lead ++ phrase ++ suf) = Some r
            /\ old_size r = Some 52%float /\ new_size r = Some 46%float
            /\ old_unit r = Some "oz" /\ new_unit r = Some "oz"
            /\ explicit_from_to r = true.
Proof.
  intros Hl H.
  set (text := pre ++ lead ++ phrase ++ suf) in *.
  assert (Hm : Pub.explicit_match text
               = Some [(4, "oz"); (3, "46"); (2, "oz"); (1, "52")]%nat).
  { unfold Pub.explicit_match, search, text.
    rewrite (search_from_skip _ _ _ _ H). destruct Hl as [-> | ->].
    - rewrite append_nil.
      rewrite (search_from_here _ _ _ _ (public_phrase_match _ suf)). reflexivity.
    - rewrite (search_from_here _ _ _ _ (public_went_phrase_match _ suf)).
      reflexivity. }
  destruct (public_parse_text_steps text) as (r1 & r2 & r3 & H1 & H2 & H3 & Hr).
  rewrite Hr. eexists; split; [reflexivity|].
  unfold Pub.explicit_step in H1. rewrite Hm in H1.
  change (float_of_group _ 1) with (Some 52%float) in H1.
  change (float_of_group _ 3) with (Some 46%float) in H1.
  bind.
  change (Pub.normalize_unit (Some (PyStr.or_else (group _ 2) "oz")))
    with "oz" in H1.
  change (Pub.normalize_unit (Some (PyStr.or_else (group _ 4) "oz")))
    with "oz" in H1.
  change (PrimFloat.ltb 46 52) with true in H1.
  injection H1 as <-.
  rewrite public_implicit_step_explicit in H2 by reflexivity. injection H2 as <-.
  public_price_cases text H3; repeat split; reflexivity.
Qed.

Lemma legacy_phrase_extracted pre lead suf :
  lead = "" \/ lead = "went " ->
  starts_none Leg.FROM_TO_PATTERN None pre (lead ++ phrase ++ suf) = true ->
  exists r, Leg.parse_text (pre ++ lead ++ phrase ++ suf) = Some r
            /\ old_size r = Some 52%float /\ new_size r = Some 46%float
            /\ old_unit r = Some "oz" /\ new_unit r = Some "oz"
            /\ explicit_from_to r = true.
Proof.
  intros Hl H.
  set (text := pre ++ lead ++ phrase ++ suf) in *.
  assert (Hs : search Leg.FROM_TO_PATTERN text
               = Some [(4, "oz"); (3, "46"); (2, "oz"); (1, "52")]%nat).
  { unfold search, text. rewrite (search_from_skip _ _ _ _ H).
    destruct Hl as [-> | ->].
    - rewrite append_nil.
      rewrite (search_from_here _ _ _ _ (legacy_phrase_match _ suf)). reflexivity.
    - rewrite (search_from_here _ _ _ _ (legacy_went_phrase_match _ suf)).
      reflexivity. }
  destruct (legacy_parse_text_steps text) as (r1 & r2 & H1 & H2 & Hr).
  rewrite Hr. eexists; split; [reflexivity|].
  unfold Leg.size_step in H1. rewrite Hs in H1. unfold Leg.explicit_branch in H1.
  change (float_of_group _ 1) with (Some 52%float) in H1.
  change (float_of_group _ 3) with (Some 46%float) in H1.
  bind.
  change (Leg.unit_token (PyStr.or_else (group _ 2) "oz")) with "oz" in H1.
  change (Leg.unit_token (PyStr.or_else (group _ 4) "oz")) with "oz" in H1.
  injection H1 as <-.
  legacy_price_cases text H2; repeat split; reflexivity.
Qed.

End Phrase.

(** * The claims *)

(** ** C1: explicit results *)

(** C1, as the code has it.  In reddit_public_scraper, a result with
    [explicit_from_to = true] comes from an explicit match whose two
    values differ; the larger value is the old size and the smaller the new
    one, each with its own matched unit (the second unit defaulting to the
    first), so a backward text has values and units swapped together and
    the two units need not be equal.  In reddit_scraper such a result keeps
    the values and units in the order of the text. *)
Theorem explicit_result_ordered :
  (forall text r,
      Pub.parse_text text = Some r -> explicit_from_to r = true ->
      exists m v1 v3,
        Pub.explicit_match text = Some m
        /\ float_of_group m 1 = Some v1 /\ float_of_group m 3 = Some v3
        /\ ((PrimFloat.ltb v3 v1 = true
             /\ old_size r = Some v1 /\ new_size r = Some v3
             /\ old_unit r = Some (PubTerms.matched_old_unit m)
             /\ new_unit r = Some (PubTerms.matched_new_unit m))
            \/ (PrimFloat.ltb v1 v3 = true
                /\ old_size r = Some v3 /\ new_size r = Some v1
                /\ old_unit r = Some (PubTerms.matched_new_unit m)
                /\ new_unit r = Some (PubTerms.matched_old_unit m)))
        /\ exists o n, old_size r = Some o /\ new_size r = Some n
                       /\ PrimFloat.ltb n o = true)
  /\ (forall text r,
        Leg.parse_text text = Some r -> explicit_from_to r = true ->
        exists m v1 v3,
          Re.search Leg.FROM_TO_PATTERN text = Some m
          /\ float_of_group m 1 = Some v1 /\ float_of_group m 3 = Some v3
          /\ old_size r = Some v1 /\ new_size r = Some v3
          /\ old_unit r = Some (LegTerms.matched_old_unit m)
          /\ new_unit r = Some (LegTerms.matched_new_unit m)).
Proof.
  split.
  - intros text r Hp He. now apply public_explicit_sizes.
  - intros text r Hp He. now apply legacy_explicit_sizes.
Qed.

Lemma explicit_result_ordered_witness :
  let r := mkSignals None (Some "was 40oz now 64oz") (Some 64%float)
                     (Some 40%float) (Some "oz") (Some "oz") None None 2 true in
  Pub.parse_text "was 40oz now 64oz" = Some r
  /\ explicit_from_to r = true
  /\ exists o n, old_size r = Some o /\ new_size r = Some n
                 /\ PrimFloat.ltb n o = true.
Proof.
  intros r.
  assert (Hp : Pub.parse_text "was 40oz now 64oz" = Some r)
    by (vm_compute; reflexivity).
  split; [exact Hp|]. split; [reflexivity|].
  destruct (proj1 explicit_result_ordered _ r Hp eq_refl)
    as (m & v1 & v3 & _ & _ & _ & _ & Hord).
  exact Hord.
Defined.

(** C1 fails as stated: in reddit_public_scraper the two units of an
    explicit result can differ, and reddit_scraper does not swap. *)
Lemma explicit_units_differ_or_unswapped :
  Pub.parse_text "from 16oz to 400g"
  = Some (mkSignals None (Some "from 16oz to 400g") (Some 400%float)
                    (Some 16%float) (Some "g") (Some "oz") None None 2 true)
  /\ Leg.parse_text "from 40oz to 64oz"
     = Some (mkSignals None (Some "from 40oz to 64oz") (Some 40%float)
                       (Some 64%float) (Some "oz") (Some "oz") None None 2 true).
Proof. split; vm_compute; reflexivity. Qed.

(** ** C2: the implicit size step *)

(** C2, as the code has it, the mentions compared being the first and the
    last.  In reddit_public_scraper, when no explicit pattern matches: with
    no mention nothing is set; with one mention only [new_size] and
    [new_unit] are set; with two or more, if the first and the last differ
    in value and agree in normalised unit, the larger is the old size, the
    smaller the new one and the size step counts 1, and otherwise no size
    field is set and the step counts 0.  In reddit_scraper, with two
    mentions or more the first is always recorded as the old size and the
    last as the new one, with their own units, and the step counts 1 when
    the two values differ. *)
Theorem implicit_step_outcome :
  (forall text,
      Pub.explicit_match text = None ->
      exists r, Pub.parse_text text = Some r /\ explicit_from_to r = false
                /\ PubTerms.implicit_outcome (Re.findall Pub.UNIT_PATTERN text) r)
  /\ (forall text,
        Re.search Leg.FROM_TO_PATTERN text = None ->
        exists r, Leg.parse_text text = Some r /\ explicit_from_to r = false
                  /\ LegTerms.implicit_outcome
                       (Re.findall Leg.UNIT_PATTERN text) r).
Proof.
  split.
  - intros text Hno. now apply public_implicit_sizes.
  - intros text Hno. now apply legacy_implicit_sizes.
Qed.

Lemma implicit_step_outcome_witness :
  Pub.explicit_match "40oz now 64oz" = None
  /\ exists r, Pub.parse_text "40oz now 64oz" = Some r
               /\ explicit_from_to r = false
               /\ PubTerms.implicit_outcome
                    (Re.findall Pub.UNIT_PATTERN "40oz now 64oz") r.
Proof.
  assert (Hno : Pub.explicit_match "40oz now 64oz" = None)
    by (vm_compute; reflexivity).
  split; [exact Hno|].
  exact (proj1 implicit_step_outcome "40oz now 64oz" Hno).
Defined.

(** C2 fails as stated on reddit_scraper: two mentions whose units differ
    are recorded, and counted, as a change. *)
Lemma legacy_implicit_records_any_pair :
  Re.search Leg.FROM_TO_PATTERN "12oz 300g" = None
  /\ Leg.parse_text "12oz 300g"
     = Some (mkSignals None (Some "12oz 300g") (Some 12%float) (Some 300%float)
                       (Some "oz") (Some "g") None None 1 false).
Proof. split; vm_compute; reflexivity. Qed.

(** ** C3: the confidence classifier *)

(** C3.  [confidence_tier] returns auto exactly when [fields_found >= 3],
    the brand is set and [explicit_from_to] is true; otherwise review
    exactly when [fields_found >= 1]; otherwise discard.  The brand counts
    as set by the truth test the code applies to it (a string that is not
    empty).  Both scrapers classify alike. *)
Theorem confidence_tier_rule (r : ExtractedSignals) :
  let auto_rule := 3 <= fields_found r /\ PyStr.truthy (brand r) = true
                   /\ explicit_from_to r = true in
  (Pub.confidence_tier r = Auto <-> auto_rule)
  /\ (Pub.confidence_tier r = Review <-> ~ auto_rule /\ 1 <= fields_found r)
  /\ (Pub.confidence_tier r = Discard <-> ~ auto_rule /\ ~ 1 <= fields_found r)
  /\ Leg.confidence_tier r = Pub.confidence_tier r.
Proof.
  unfold Pub.confidence_tier, Leg.confidence_tier,
    Pub.TIER_AUTO_THRESHOLD, Pub.TIER_REVIEW_THRESHOLD,
    Leg.TIER_AUTO_THRESHOLD, Leg.TIER_REVIEW_THRESHOLD.
  destruct (Z.leb_spec 3 (fields_found r)), (Z.leb_spec 1 (fields_found r)),
    (PyStr.truthy (brand r)), (explicit_from_to r); simpl;
    intuition (try discriminate; try lia).
Qed.

(** ** C9: monotonicity of the tier *)

(** C9.  Of two records with the same brand and the same explicit flag
    (whatever they are, so in particular a set brand and a true flag), the
    one with at least as many fields found has a tier that is not lower. *)
Theorem confidence_tier_monotone (r1 r2 : ExtractedSignals) :
  brand r1 = brand r2 -> explicit_from_to r1 = explicit_from_to r2 ->
  fields_found r1 <= fields_found r2 ->
  (tier_rank (Pub.confidence_tier r1) <= tier_rank (Pub.confidence_tier r2))%nat.
Proof.
  unfold Pub.confidence_tier, Pub.TIER_AUTO_THRESHOLD, Pub.TIER_REVIEW_THRESHOLD.
  intros -> -> Hf.
  destruct (Z.leb_spec 3 (fields_found r1)), (Z.leb_spec 1 (fields_found r1)),
    (Z.leb_spec 3 (fields_found r2)), (Z.leb_spec 1 (fields_found r2)),
    (PyStr.truthy (brand r2)), (explicit_from_to r2); simpl; lia.
Qed.

Lemma confidence_tier_monotone_witness :
  let r1 := mkSignals (Some "Tide") None None None None None None None 2 true in
  let r2 := mkSignals (Some "Tide") None None None None None None None 3 true in
  fields_found r1 <= fields_found r2
  /\ Pub.confidence_tier r1 = Review /\ Pub.confidence_tier r2 = Auto
  /\ (tier_rank (Pub.confidence_tier r1) <= tier_rank (Pub.confidence_tier r2))%nat.
Proof.
  intros r1 r2.
  assert (Hf : fields_found r1 <= fields_found r2) by (simpl; lia).
  split; [exact Hf|]. split; [reflexivity|]. split; [reflexivity|].
  exact (confidence_tier_monotone r1 r2 eq_refl eq_refl Hf).
Defined.

(** ** C4: the shrink percentage *)

(** C4.  The percentage of a promoted entry is
    [round(((old_size - new_size) / old_size) * 100, 2)] when
    [old_size > 0] and 0 otherwise; its computation never divides by zero
    (it always returns a value); for 52 and 46 it is 11.54. *)
Theorem shrink_percentage :
  (forall old_s new_s,
      Pub.shrink_pct old_s new_s
      = Some (if PrimFloat.ltb 0 old_s
              then PyFloat.round2 (((old_s - new_s) / old_s) * 100)%float
              else 0%float))
  /\ (forall row product event,
        Pub.records_of row = Some (product, event) ->
        exists o n,
          old_size (Pub.signals (Pub.entry row)) = Some o
          /\ new_size (Pub.signals (Pub.entry row)) = Some n
          /\ Pub.event_pct event
             = (if PrimFloat.ltb 0 o
                then PyFloat.round2 (((o - n) / o) * 100)%float
                else 0%float))
  /\ Pub.shrink_pct 52 46 = Some 11.54%float.
Proof.
  split; [exact shrink_pct_value|]. split.
  - intros row product event Hr.
    apply records_of_fields in Hr as (_ & _ & _ & o & n & Ho & Hn & _ & _ & _ & Hp).
    exists o, n. rewrite shrink_pct_value in Hp. injection Hp as <-. auto.
  - vm_compute. reflexivity.
Qed.

Lemma shrink_percentage_witness :
  Pub.records_of Examples.tropicana_row
  = Some (Examples.tropicana_product, Examples.tropicana_event)
  /\ exists o n,
       old_size (Pub.signals (Pub.entry Examples.tropicana_row)) = Some o
       /\ new_size (Pub.signals (Pub.entry Examples.tropicana_row)) = Some n
       /\ Pub.event_pct Examples.tropicana_event
          = (if PrimFloat.ltb 0 o
             then PyFloat.round2 (((o - n) / o) * 100)%float
             else 0%float).
Proof.
  assert (Hr : Pub.records_of Examples.tropicana_row
               = Some (Examples.tropicana_product, Examples.tropicana_event))
    by (vm_compute; reflexivity).
  split; [exact Hr|].
  exact (proj1 (proj2 shrink_percentage) _ _ _ Hr).
Defined.

(** ** C5: the dedup registry *)

Section Registry.




End Registry.



(** ** C6: the phrase of the first testable property *)

(** C6, as the code has it.  For a text that holds ["from 52oz to 46oz"],
    alone or as the end of ["went from 52oz to 46oz"], with no match of the
    from-to pattern starting before it, extraction yields old size 52, new
    size 46, both units ["oz"] and [explicit_from_to = true], in both
    scrapers. *)
Theorem phrase_is_extracted (pre lead suf : string) :
  lead = EmptyString \/ lead = "went " ->
  (starts_none Pub.FROM_TO_PATTERN None pre (lead ++ phrase ++ suf) = true ->
   exists r, Pub.parse_text (pre ++ lead ++ phrase ++ suf) = Some r
             /\ old_size r = Some 52%float /\ new_size r = Some 46%float
             /\ old_unit r = Some "oz" /\ new_unit r = Some "oz"
             /\ explicit_from_to r = true)
  /\ (starts_none Leg.FROM_TO_PATTERN None pre (lead ++ phrase ++ suf) = true ->
      exists r, Leg.parse_text (pre ++ lead ++ phrase ++ suf) = Some r
                /\ old_size r = Some 52%float /\ new_size r = Some 46%float
                /\ old_unit r = Some "oz" /\ new_unit r = Some "oz"
                /\ explicit_from_to r = true).
Proof.
  intros Hl. split; intros H.
  - now apply public_phrase_extracted.
  - now apply legacy_phrase_extracted.
Qed.

Lemma phrase_is_extracted_witness :
  "Tropicana OJ went from 52oz to 46oz, same price!"
  = "Tropicana OJ " ++ "went " ++ phrase ++ ", same price!"
  /\ starts_none Pub.FROM_TO_PATTERN None "Tropicana OJ "
       ("went " ++ phrase ++ ", same price!") = true
  /\ starts_none Leg.FROM_TO_PATTERN None "Tropicana OJ "
       ("went " ++ phrase ++ ", same price!") = true
  /\ (exists r, Pub.parse_text "Tropicana OJ went from 52oz to 46oz, same price!"
                = Some r
                /\ old_size r = Some 52%float /\ new_size r = Some 46%float
                /\ old_unit r = Some "oz" /\ new_unit r = Some "oz"
                /\ explicit_from_to r = true)
  /\ (exists r, Leg.parse_text "Tropicana OJ went from 52oz to 46oz, same price!"
                = Some r
                /\ old_size r = Some 52%float /\ new_size r = Some 46%float
                /\ old_unit r = Some "oz" /\ new_unit r = Some "oz"
                /\ explicit_from_to r = true).
Proof.
  assert (Hp : starts_none Pub.FROM_TO_PATTERN None "Tropicana OJ "
                 ("went " ++ phrase ++ ", same price!") = true)
    by (vm_compute; reflexivity).
  assert (Hg : starts_none Leg.FROM_TO_PATTERN None "Tropicana OJ "
                 ("went " ++ phrase ++ ", same price!") = true)
    by (vm_compute; reflexivity).
  split; [reflexivity|]. split; [exact Hp|]. split; [exact Hg|].
  destruct (phrase_is_extracted "Tropicana OJ " "went " ", same price!"
              (or_intror eq_refl)) as [Hpub Hleg].
  split; [exact (Hpub Hp)|exact (Hleg Hg)].
Defined.

(** C6 fails as stated: the text holds the phrase, and an earlier match
    decides the sizes. *)
Lemma earlier_match_wins :
  PyStr.contains phrase "was 1 to 2 from 52oz to 46oz" = true
  /\ Pub.parse_text "was 1 to 2 from 52oz to 46oz"
     = Some (mkSignals None (Some "was 1 to 2 from 52oz to 46oz") (Some 2%float)
                       (Some 1%float) (Some "oz") (Some "oz") None None 2 true)
  /\ Leg.parse_text "was 1 to 2 from 52oz to 46oz"
     = Some (mkSignals None (Some "was 1 to 2 from 52oz to 46oz") (Some 1%float)
                       (Some 2%float) (Some "oz") (Some "oz") None None 2 true).
Proof. repeat split; vm_compute; reflexivity. Qed.

(** ** C7: what the promotion engine selects *)

Section PromotionSelection.

Import RedditPublicScraper PubTerms.

Lemma promoted_rows_spec (db : Db) (row : StagingRow) :
row ∈ promoted_rows db
<-> row ∈ reddit_staging db
    /\ tier (entry row) = Auto /\ status (entry row) = pending
    /\ exists o n,
         old_size (signals (entry row)) = Some o
         /\ new_size (signals (entry row)) = Some n
         /\ PrimFloat.eqb o 0 = false /\ PrimFloat.eqb n 0 = false.
Proof.
unfold promoted_rows. rewrite !list_elem_of_filter.
unfold pending_auto, has_sizes, PyFloat.truthy. split.
- intros (Hs & Hp & Hin). split; [exact Hin|].
  destruct (tier (entry row)); try discriminate.
  destruct (status (entry row)); try discriminate.
  do 2 (split; [reflexivity|]).
  destruct (old_size (signals (entry row))) as [o|]; [|discriminate].
  destruct (new_size (signals (entry row))) as [n|];
    [|rewrite andb_false_r in Hs; discriminate].
  apply andb_prop in Hs as [Ho Hn]. apply negb_true_iff in Ho, Hn. eauto 10.
- intros (Hin & -> & -> & o & n & -> & -> & -> & ->). auto.
Qed.

End PromotionSelection.

(** C7, as the code has it.  When every selected row carries a date
    ([date_noticed] or [posted_utc]), the promotion engine works on exactly
    the pending auto-tier rows whose [old_size] and [new_size] are both
    present and non-zero, whatever the store refuses: if the select is
    refused the run raises and nothing is written; otherwise the run
    returns a count that is at most the number of these rows, and every
    event and product it writes is the record of one of them, the events
    in the order of the rows.  On a store that accepts every request each
    such row gets one product and one event, in order, and is marked
    promoted, and the count is their number.  The unit of both records is
    [new_unit] if it is a non-empty string, else [old_unit] if it is one,
    else ["oz"]. *)
Theorem promotion_selects_sized_rows (refused : nat -> bool) (db : Pub.Db) :
  (forall row, row ∈ PubTerms.promoted_rows db ->
               is_Some (Pub.event_date_of (Pub.entry row))) ->
  (forall row,
      row ∈ PubTerms.promoted_rows db
      <-> row ∈ Pub.reddit_staging db
          /\ Pub.tier (Pub.entry row) = Auto
          /\ Pub.status (Pub.entry row) = Pub.pending
          /\ exists o n,
               old_size (Pub.signals (Pub.entry row)) = Some o
               /\ new_size (Pub.signals (Pub.entry row)) = Some n
               /\ PrimFloat.eqb o 0 = false /\ PrimFloat.eqb n 0 = false)
  /\ exists recs : list (Pub.Product * Pub.Event),
       Forall2 (fun row pe =>
                  Pub.records_of row = Some pe
                  /\ Pub.product_unit (fst pe) = Pub.event_unit (snd pe)
                  /\ Pub.event_unit (snd pe)
                     = match new_unit (Pub.signals (Pub.entry row)) with
                       | Some (String c u) => String c u
                       | _ => match old_unit (Pub.signals (Pub.entry row)) with
                              | Some (String c u) => String c u
                              | _ => "oz"
                              end
                       end)
               (PubTerms.promoted_rows db) recs
       /\ (refused 0%nat = true ->
           Pub.promote_auto_entries refused db = (db, None))
       /\ (refused 0%nat = false ->
           exists db' count,
             Pub.promote_auto_entries refused db = (db', Some count)
             /\ 0 <= count <= Z.of_nat (length recs)
             /\ (exists evs, evs `sublist_of` recs.*2
                             /\ Pub.events db' = (Pub.events db ++ evs)%list)
             /\ (forall upc q, Pub.products db' !! upc = Some q ->
                               Pub.products db !! upc = Some q \/ q ∈ recs.*1))
       /\ ((forall n, refused n = false) ->
           Pub.promote_auto_entries refused db
           = (Pub.mkDb (PubTerms.mark_all (PubTerms.promoted_rows db)
                                          (Pub.reddit_staging db))
                       (PubTerms.upsert_all (fst <$> recs) (Pub.products db))
                       (Pub.events db ++ (snd <$> recs))%list,
              Some (Z.of_nat (length recs)))).
Proof.
  intros Hdated. split; [apply promoted_rows_spec|].
  assert (Hd : forall row,
             row ∈ filter (fun row => Pub.pending_auto row = true)
                          (Pub.reddit_staging db) ->
             Pub.has_sizes (Pub.entry row) = true ->
             is_Some (Pub.event_date_of (Pub.entry row))).
  { intros row Hin Hs. apply Hdated. unfold PubTerms.promoted_rows.
    apply list_elem_of_filter. split; assumption. }
  destruct (promote_loop_any refused _ db 0 1%nat Hd)
    as (recs & db' & n & HF & Heq & Hn & Hev & Hp).
  fold (PubTerms.promoted_rows db) in HF.
  exists recs. split; [|split; [|split]].
  - eapply Forall2_impl; [exact HF|].
    intros row [p e] Hr. split; [exact Hr|].
    destruct (records_of_fields row p e Hr) as (_ & Hpu & Heu & _).
    cbn [fst snd]. rewrite Hpu, Heu. split; [reflexivity|].
    apply record_unit_rule.
  - intros H0. unfold Pub.promote_auto_entries. now rewrite H0.
  - intros H0. exists db', n. unfold Pub.promote_auto_entries. rewrite H0.
    split; [exact Heq|]. split; [lia|]. split; [exact Hev|exact Hp].
  - intros Hacc. unfold Pub.promote_auto_entries. rewrite Hacc.
    destruct (promote_loop_spec refused Hacc _ db 0 1%nat Hd)
      as (recs' & HF' & ->).
    fold (PubTerms.promoted_rows db) in HF'.
    assert (recs' = recs) as ->; [|reflexivity].
    clear -HF HF'. revert recs' HF'.
    induction HF as [|row pe rows recs Hr HF IH]; intros recs' HF';
      inversion HF' as [|? pe' ? recs'' Hr' HF'']; subst; [reflexivity|].
    f_equal; [congruence|auto].
Qed.

Lemma promotion_selects_sized_rows_witness :
  let db := Examples.db_of [Examples.tide_row; Examples.tropicana_row] in
  (forall row, row ∈ PubTerms.promoted_rows db ->
               is_Some (Pub.event_date_of (Pub.entry row)))
  /\ PubTerms.promoted_rows db = [Examples.tropicana_row]
  /\ Pub.promote_auto_entries Examples.accepting db
     = (Pub.mkDb [Examples.tide_row; PubRun.marked Examples.tropicana_row]
                 {[ "REDDIT-0a1b2c3d" := Examples.tropicana_product ]}
                 [Examples.tropicana_event],
        Some 1)
  /\ exists db' count,
       Pub.promote_auto_entries Examples.refusing_insert db = (db', Some count)
       /\ 0 <= count <= 1.
Proof.
  intros db.
  assert (Hrows : PubTerms.promoted_rows db = [Examples.tropicana_row])
    by (vm_compute; reflexivity).
  assert (Hdated : forall row, row ∈ PubTerms.promoted_rows db ->
                               is_Some (Pub.event_date_of (Pub.entry row))).
  { intros row Hin. rewrite Hrows in Hin.
    apply list_elem_of_singleton in Hin as ->. vm_compute. eauto. }
  split; [exact Hdated|]. split; [exact Hrows|]. split.
  - destruct (promotion_selects_sized_rows Examples.accepting db Hdated)
      as (_ & recs & HF & _ & _ & Hacc).
    rewrite (Hacc (fun _ => eq_refl)). rewrite Hrows in HF.
    inversion HF as [|? pe ? recs' [Hr _] HF']; subst.
    inversion HF'; subst.
    assert (pe = (Examples.tropicana_product, Examples.tropicana_event)) as ->.
    { assert (Hv : Pub.records_of Examples.tropicana_row
                   = Some (Examples.tropicana_product, Examples.tropicana_event))
        by (vm_compute; reflexivity).
      congruence. }
    rewrite Hrows. reflexivity.
  - destruct (promotion_selects_sized_rows Examples.refusing_insert db Hdated)
      as (_ & recs & HF & _ & Hret & _).
    destruct (Hret eq_refl) as (db' & count & Heq & Hc & _).
    exists db', count. split; [exact Heq|].
    rewrite <- (Forall2_length _ _ _ HF), Hrows in Hc. exact Hc.
Defined.

(** C7 fails as stated: a row with both sizes present, one of them zero, is
    skipped, and the extractor does produce such rows; and a selected row
    with sizes and no date stops the run with an error.  The store accepts
    every request here. *)
Lemma zero_size_is_skipped :
  Pub.parse_text "Tide went from 5oz to 0oz" = Some Examples.tide_signals
  /\ Pub.confidence_tier Examples.tide_signals = Auto
  /\ Pub.pending_auto Examples.tide_row = true
  /\ old_size (Pub.signals (Pub.entry Examples.tide_row)) = Some 5%float
  /\ new_size (Pub.signals (Pub.entry Examples.tide_row)) = Some 0%float
  /\ Pub.promote_auto_entries Examples.accepting (Examples.db_of [Examples.tide_row])
     = (Examples.db_of [Examples.tide_row], Some 0)
  /\ Pub.promote_auto_entries Examples.accepting
                              (Examples.db_of [Examples.undated_row])
     = (Examples.db_of [Examples.undated_row], None).
Proof. repeat split; vm_compute; reflexivity. Qed.

(** ** C8: the unit normalizer *)

Section Normalizer.

Import RedditPublicScraper PubTerms.

(** Where one stripping leaves no trailing [c], stripping all of them does
  the same. *)
Lemma rstrip_one_enough (c : ascii) (s : string) :
ends_with (PyStr.eq_char c) (rstrip_one c s) = false ->
PyStr.rstrip_char c s = rstrip_one c s.
Proof.
unfold PyStr.rstrip_char. induction s as [|a s IH]; [reflexivity|].
destruct s as [|b s'].
- intros _. reflexivity.
- change (rstrip_one c (String a (String b s')))
    with (String a (rstrip_one c (String b s'))).
  cbn [PyStr.drop_while_end] in *.
  destruct (rstrip_one c (String b s')) as [|d t] eqn:E; intros H.
  + rewrite IH by reflexivity. unfold ends_with in H. cbn in H.
    now rewrite H.
  + rewrite IH by exact H. reflexivity.
Qed.

End Normalizer.

(** C8, as the code has it.  The normalizer returns a unit for every
    input: ["oz"] for an absent or empty one, and otherwise the entry of the
    synonym table for the lower-cased, trimmed input with every trailing
    [s] stripped, or that token itself when the table has no entry for it.
    Where stripping one [s] leaves no trailing [s], this is the normalizer
    that strips a single suffix. *)
Theorem normalize_unit_total :
  Pub.normalize_unit None = "oz"
  /\ Pub.normalize_unit (Some EmptyString) = "oz"
  /\ forall u, u <> EmptyString ->
       (exists token trailing,
           PyStr.strip (PyStr.lower u) = token ++ trailing
           /\ ReShape.all_chars (PyStr.eq_char "s") trailing = true
           /\ ends_with (PyStr.eq_char "s") token = false
           /\ Pub.normalize_unit (Some u) = default token (Pub.mapping !! token))
       /\ (ends_with (PyStr.eq_char "s")
             (PubTerms.rstrip_one "s" (PyStr.strip (PyStr.lower u))) = false ->
           Pub.normalize_unit (Some u)
           = PubTerms.normalize_unit_single_suffix (Some u)).
Proof.
  split; [reflexivity|]. split; [reflexivity|].
  intros u Hu. split.
  - unfold Pub.normalize_unit, Pub.unit_token, PyStr.rstrip_char.
    destruct (drop_while_end_spec (PyStr.eq_char "s") (PyStr.strip (PyStr.lower u)))
      as (trailing & Hs & Hall & Hend).
    exists (PyStr.drop_while_end (PyStr.eq_char "s") (PyStr.strip (PyStr.lower u))),
      trailing.
    repeat split; auto.
    destruct u; [congruence|reflexivity].
  - intros H. unfold Pub.normalize_unit, PubTerms.normalize_unit_single_suffix,
      Pub.unit_token.
    destruct u as [|x u]; [congruence|]. cbn [PyStr.truthy negb default].
    now rewrite rstrip_one_enough.
Qed.

Lemma normalize_unit_total_witness :
  "Ounces" <> EmptyString
  /\ Pub.normalize_unit (Some "Ounces") = "oz"
  /\ Pub.normalize_unit (Some "Ounces")
     = PubTerms.normalize_unit_single_suffix (Some "Ounces").
Proof.
  assert (Hu : "Ounces" <> EmptyString) by discriminate.
  split; [exact Hu|]. split; [vm_compute; reflexivity|].
  apply (proj2 (proj2 (proj2 normalize_unit_total) "Ounces" Hu)).
  vm_compute. reflexivity.
Defined.

(** C8 fails as stated: every trailing [s] goes, not a single one. *)
Lemma every_trailing_s_is_stripped :
  Pub.normalize_unit (Some "lbss") = "lb"
  /\ PubTerms.normalize_unit_single_suffix (Some "lbss") = "lbs"
  /\ Pub.normalize_unit (Some "ss") = EmptyString
  /\ PubTerms.normalize_unit_single_suffix (Some "ss") = "s".
Proof. repeat split; vm_compute; reflexivity. Qed.

(** ** C10: the range of the counter *)

(** C10.  In both scrapers the extractor returns a result for every text,
    and in it [fields_found] is the sum of at most one point for the brand,
    at most one for the prices and the points of the size step, which are 2
    exactly when the change is explicit and 0 or 1 otherwise; the counter
    lies between 0 and 4. *)
Theorem fields_found_bounded (text : string) :
  (exists r, Pub.parse_text text = Some r
             /\ fields_found r = brand_points r + size_points r + price_points r
             /\ 0 <= brand_points r <= 1 /\ 0 <= price_points r <= 1
             /\ (if explicit_from_to r then size_points r = 2
                 else size_points r = 0 \/ size_points r = 1)
             /\ 0 <= fields_found r <= 4)
  /\ (exists r, Leg.parse_text text = Some r
                /\ fields_found r = brand_points r + size_points r + price_points r
                /\ 0 <= brand_points r <= 1 /\ 0 <= price_points r <= 1
                /\ (if explicit_from_to r then size_points r = 2
                    else size_points r = 0 \/ size_points r = 1)
                /\ 0 <= fields_found r <= 4).
Proof.
  split.
  - destruct (public_fields_accounted text) as (r & Hr & Hs & Hb).
    exists r. split; [exact Hr|]. unfold size_points, brand_points, price_points in *.
    destruct (brand r), (old_price r); repeat split; try exact Hs; lia.
  - destruct (legacy_fields_accounted text) as (r & Hr & Hs & Hb).
    exists r. split; [exact Hr|]. unfold size_points, brand_points, price_points in *.
    destruct (brand r), (old_price r); repeat split; try exact Hs; lia.
Qed.

(** * Further properties *)

(** ** The counters and the results of a run *)

(** X1.  The counters of [process_posts]: a run whose entries can be built
    (the timestamps of the posts it builds entries for are in the range of
    [datetime]) returns exactly the six counters; [seen] is the number of
    posts of the batch, and each other counter is the number of posts with
    that outcome (held by the registry, dropped for lack of a keyword, or
    classified auto, review or discard), so the five add up to [seen]; the
    entries returned are as many as the posts counted auto or review. *)
Theorem process_posts_counters (clock : Pub.Clock) (posts : list Pub.Post)
        (known : gset string) :
  PubRun.timestamps_in_range clock known posts ->
  exists entries new_urls stats,
    Pub.process_posts clock posts known = Some (entries, new_urls, stats)
    /\ dom stats = counter_names
    /\ counter "seen" stats = Z.of_nat (length posts)
    /\ (forall k, k <> "seen" ->
                  counter k stats
                  = count_of (fun p => PubRun.outcome known p = k) posts)
    /\ counter "seen" stats
       = counter "skipped_dup" stats + counter "no_keyword" stats
         + counter "auto" stats + counter "review" stats
         + counter "discard" stats
    /\ Z.of_nat (length entries) = counter "auto" stats + counter "review" stats.
Proof.
  intros Hr.
  destruct (public_process_posts_exact posts known)
    as (stats & Heq & Hdom & Hseen & Hk).
  specialize (Heq clock).
  apply (public_staged_from_some clock known posts 0) in Hr as [[es n] Hs].
  rewrite Hs in Heq. bind. eexists es, _, stats. split; [exact Heq|].
  split; [exact Hdom|]. split; [exact Hseen|]. split; [exact Hk|]. split.
  - rewrite Hseen, !Hk by discriminate. apply public_outcomes_split.
  - rewrite !Hk by discriminate. rewrite <- public_staged_count.
    apply public_staged_from_entries in Hs.
    now rewrite (Forall2_length _ _ _ Hs).
Qed.

Lemma process_posts_counters_witness :
  PubRun.timestamps_in_range Examples.clock ∅
                             [Examples.tide_post; Examples.tropicana_post]
  /\ exists entries new_urls stats,
       Pub.process_posts Examples.clock
                         [Examples.tide_post; Examples.tropicana_post] ∅
       = Some (entries, new_urls, stats)
       /\ counter "seen" stats = 2
       /\ Z.of_nat (length entries) = counter "auto" stats + counter "review" stats.
Proof.
  assert (Hr : PubRun.timestamps_in_range
                 Examples.clock ∅ [Examples.tide_post; Examples.tropicana_post])
    by apply example_timestamps_in_range.
  split; [exact Hr|].
  destruct (process_posts_counters Examples.clock
              [Examples.tide_post; Examples.tropicana_post] ∅ Hr)
    as (entries & new_urls & stats & Heq & _ & Hseen & _ & _ & Hlen).
  exists entries, new_urls, stats. auto.
Defined.

(** X2.  The entries of [process_posts]: a run whose entries can be built
    returns one entry, in the order of the batch, for each post that the
    registry does not hold, that is relevant (from r/shrinkflation or
    showing a keyword) and that is not classified discard.  Each entry is
    the one [build_entry] makes of its post: it is pending, carries the
    signals extracted from the title and body of the post and the tier of
    these signals, never the discard tier, and always has a
    [date_noticed]. *)
Theorem process_posts_entries (clock : Pub.Clock) (posts : list Pub.Post)
        (known : gset string) :
  PubRun.timestamps_in_range clock known posts ->
  exists entries new_urls stats,
    Pub.process_posts clock posts known = Some (entries, new_urls, stats)
    /\ Forall2 (fun post e =>
                  Pub.status e = Pub.pending /\ Pub.tier e <> Discard
                  /\ Pub.tier e = Pub.confidence_tier (Pub.signals e)
                  /\ is_Some (Pub.date_noticed e)
                  /\ (Pub.post_url post ∉ known)
                  /\ Pub.relevant post = true
                  /\ Pub.parse_text (Pub.full_text_of post)
                     = Some (Pub.signals e)
                  /\ exists calls calls',
                       Pub.build_entry clock calls post (Pub.signals e)
                                       (Pub.tier e)
                       = Some (e, calls'))
               (filter (fun p => is_Some (PubRun.to_stage known p)) posts)
               entries.
Proof.
  intros Hr.
  destruct (public_process_posts_exact posts known) as (stats & Heq & _).
  specialize (Heq clock).
  apply (public_staged_from_some clock known posts 0) in Hr as [[es n] Hs].
  rewrite Hs in Heq. bind. eexists es, _, stats. split; [exact Heq|].
  apply public_staged_from_entries in Hs.
  eapply Forall2_impl; [exact Hs|].
  intros post e (c & c' & Hst & Hb).
  destruct (public_to_stage_facts known post) as [Hf _].
  destruct (Hf _ _ Hst) as (H1 & H2 & H3 & H4 & H5 & _).
  destruct (public_build_entry_facts _ _ _ _ _ _ _ Hb) as (_ & H6 & _ & _ & H7 & _).
  repeat (split; [assumption|]). eauto.
Qed.

Lemma process_posts_entries_witness :
  PubRun.timestamps_in_range Examples.clock ∅ [Examples.tropicana_post]
  /\ Pub.process_posts Examples.clock [Examples.tropicana_post] ∅
     = Some ([Examples.tropicana_entry],
             {["https://reddit.com/r/shrinkflation/comments/1r5abc/tropicana/"]},
             <["auto" := 1]> (<["seen" := 1]> Pub.initial_stats))
  /\ exists entries new_urls stats,
       Pub.process_posts Examples.clock [Examples.tropicana_post] ∅
       = Some (entries, new_urls, stats)
       /\ Forall (fun e => Pub.tier e = Pub.confidence_tier (Pub.signals e))
                 entries.
Proof.
  assert (Hr : PubRun.timestamps_in_range Examples.clock ∅
                                          [Examples.tropicana_post])
    by apply example_timestamps_in_range.
  split; [exact Hr|]. split; [vm_compute; reflexivity|].
  destruct (process_posts_entries Examples.clock [Examples.tropicana_post] ∅ Hr)
    as (entries & new_urls & stats & Heq & HF).
  exists entries, new_urls, stats. split; [exact Heq|].
  apply Forall2_Forall_r with (1 := HF). apply Forall_forall.
  intros p _ e (_ & _ & Ht & _). exact Ht.
Defined.

(** X3.  The urls [process_posts] returns for the registry, in a run whose
    entries can be built, are exactly the urls of the posts of the batch
    that the registry does not hold: none of them is in the registry, and
    the registry merged with them is the old registry with the url of every
    post of the batch. *)
Theorem process_posts_new_urls (clock : Pub.Clock) (posts : list Pub.Post)
        (known : gset string) :
  PubRun.timestamps_in_range clock known posts ->
  exists entries new_urls stats,
    Pub.process_posts clock posts known = Some (entries, new_urls, stats)
    /\ new_urls = list_to_set (Pub.post_url <$> PubRun.fresh_posts known posts)
    /\ new_urls ## known
    /\ Pub.updated_known_urls known new_urls
       = known ∪ list_to_set (Pub.post_url <$> posts).
Proof.
  intros Hr.
  destruct (public_process_posts_exact posts known) as (stats & Heq & _).
  specialize (Heq clock).
  apply (public_staged_from_some clock known posts 0) in Hr as [[es n] Hs].
  rewrite Hs in Heq. bind. eexists es, _, stats. split; [exact Heq|].
  split; [reflexivity|]. split.
  - intros u Hu Hk. apply public_fresh_urls in Hu as [Hu _]. contradiction.
  - unfold Pub.updated_known_urls. apply set_eq. intros u.
    rewrite !elem_of_union, public_fresh_urls, elem_of_list_to_set,
      list_elem_of_fmap.
    destruct (decide (u ∈ known)); split; auto.
    + intros [?|(_ & p & Hp & ->)]; [contradiction|]. right. eauto.
    + intros [?|(p & -> & Hp)]; [contradiction|]. right. eauto.
Qed.

Lemma process_posts_new_urls_witness :
  PubRun.timestamps_in_range Examples.clock ∅ [Examples.tropicana_post]
  /\ exists entries new_urls stats,
       Pub.process_posts Examples.clock [Examples.tropicana_post] ∅
       = Some (entries, new_urls, stats)
       /\ new_urls
          = {["https://reddit.com/r/shrinkflation/comments/1r5abc/tropicana/"]}.
Proof.
  assert (Hr : PubRun.timestamps_in_range Examples.clock ∅
                                          [Examples.tropicana_post])
    by apply example_timestamps_in_range.
  split; [exact Hr|].
  destruct (process_posts_new_urls Examples.clock [Examples.tropicana_post] ∅ Hr)
    as (entries & new_urls & stats & Heq & Hn & _).
  exists entries, new_urls, stats. split; [exact Heq|].
  rewrite Hn. vm_compute. reflexivity.
Defined.

(** X4.  The counters of [run_scraper]: a dry run, and a run that writes
    whose entries can be built, returns exactly the six counters; [seen] is
    the number of posts fetched, each other counter is the number of posts
    with that outcome, and the five add up to [seen].  A run that writes
    lengthens the queue by the posts counted auto or review, and a dry run
    does not lengthen it. *)
Theorem run_scraper_counters (clock : Leg.Clock) (dry_run : bool)
        (fetched : list (list Leg.Post)) (known : gset string)
        (queue : Leg.Queue) :
  (dry_run = false -> LegRun.timestamps_in_range clock known (concat fetched)) ->
  exists queue' registry stats,
    Leg.run_scraper clock dry_run fetched known queue
    = Some (queue', registry, stats)
    /\ dom stats = counter_names
    /\ counter "seen" stats = Z.of_nat (length (concat fetched))
    /\ (forall k, k <> "seen" ->
                  counter k stats
                  = count_of (fun p => LegRun.outcome known p = k)
                             (concat fetched))
    /\ counter "seen" stats
       = counter "skipped_dup" stats + counter "no_keyword" stats
         + counter "auto" stats + counter "review" stats
         + counter "discard" stats
    /\ Z.of_nat (length (LegTerms.queue_entries queue'))
       = Z.of_nat (length (LegTerms.queue_entries queue))
         + (if dry_run then 0
            else counter "auto" stats + counter "review" stats).
Proof.
  intros Hr.
  destruct (legacy_run_scraper_exact fetched known)
    as (stats & Heq & Hdom & Hseen & Hk).
  specialize (Heq clock dry_run queue).
  assert (Hsplit : counter "seen" stats
                   = counter "skipped_dup" stats + counter "no_keyword" stats
                     + counter "auto" stats + counter "review" stats
                     + counter "discard" stats).
  { rewrite Hseen, !Hk by discriminate. apply legacy_outcomes_split. }
  destruct dry_run.
  - bind. eexists _, _, stats. split; [exact Heq|].
    repeat (split; [assumption|]). cbn. lia.
  - apply (legacy_staged_from_some clock known (concat fetched) 0) in Hr
      as [[es n] Hs]; [|reflexivity].
    rewrite Hs in Heq. bind. eexists _, _, stats. split; [exact Heq|].
    repeat (split; [assumption|]).
    unfold LegRun.queue_after, LegTerms.queue_entries.
    cbn [Leg.queue_auto Leg.queue_review].
    rewrite !Hk by discriminate.
    destruct (legacy_staged_count _ _ _ _ _ _ Hs) as [<- <-].
    rewrite !length_app. lia.
Qed.

Lemma run_scraper_counters_witness :
  (false = false ->
   LegRun.timestamps_in_range LegExamples.clock ∅
                              (concat [[LegExamples.tropicana_post]]))
  /\ exists queue' registry stats,
       Leg.run_scraper LegExamples.clock false [[LegExamples.tropicana_post]] ∅
                       LegExamples.empty_queue
       = Some (queue', registry, stats)
       /\ counter "seen" stats = 1
       /\ Z.of_nat (length (LegTerms.queue_entries queue'))
          = counter "auto" stats + counter "review" stats.
Proof.
  assert (Hr : false = false ->
               LegRun.timestamps_in_range LegExamples.clock ∅
                 (concat [[LegExamples.tropicana_post]]))
    by (intros _; apply legacy_example_timestamps_in_range).
  split; [exact Hr|].
  destruct (run_scraper_counters LegExamples.clock false
              [[LegExamples.tropicana_post]] ∅ LegExamples.empty_queue Hr)
    as (queue' & registry & stats & Heq & _ & Hseen & _ & _ & Hlen).
  exists queue', registry, stats. auto.
Defined.

(** X5.  The queue and the registry of [run_scraper]: a run that writes
    and whose entries can be built appends to [auto] and to [review], in
    the order fetched, the entries of that tier built for the posts that
    the registry does not hold, that show a keyword and that are not
    classified discard; what the queue held stays in place, and no
    discard-tier entry is ever queued.  The registry becomes the old one
    with the url of every post fetched. *)
Theorem run_scraper_queue (clock : Leg.Clock) (fetched : list (list Leg.Post))
        (known : gset string) (queue : Leg.Queue) :
  LegRun.timestamps_in_range clock known (concat fetched) ->
  exists queue' stats entries,
    Leg.run_scraper clock false fetched known queue
    = Some (queue', known ∪ list_to_set (Leg.post_url <$> concat fetched), stats)
    /\ Leg.queue_auto queue'
       = (Leg.queue_auto queue
            ++ filter (fun e => Leg.tier e = Auto) entries)%list
    /\ Leg.queue_review queue'
       = (Leg.queue_review queue
            ++ filter (fun e => Leg.tier e = Review) entries)%list
    /\ Forall2 (fun post e =>
                  Leg.tier e <> Discard
                  /\ Leg.tier e = Leg.confidence_tier (Leg.signals e)
                  /\ (Leg.post_url post ∉ known)
                  /\ Leg.has_keyword (Leg.full_text_of post) = true
                  /\ Leg.parse_text (Leg.full_text_of post)
                     = Some (Leg.signals e)
                  /\ exists calls,
                       Leg.build_entry clock calls post (Leg.signals e)
                                       (Leg.tier e)
                       = Some (e, S calls))
               (filter (fun p => is_Some (LegRun.to_stage known p))
                       (concat fetched))
               entries.
Proof.
  intros Hr.
  destruct (legacy_run_scraper_exact fetched known) as (stats & Heq & _).
  specialize (Heq clock false queue).
  apply (legacy_staged_from_some clock known (concat fetched) 0) in Hr
    as [[es n] Hs].
  rewrite Hs in Heq. bind. eexists _, stats, es. split; [exact Heq|].
  split; [reflexivity|]. split; [reflexivity|].
  apply legacy_staged_from_entries in Hs.
  eapply Forall2_impl; [exact Hs|].
  intros post e (c & Hst & Hb).
  destruct (legacy_to_stage_facts known post) as [Hf _].
  destruct (Hf _ _ Hst) as (H1 & H2 & H3 & H4 & H5 & _).
  repeat (split; [assumption|]). eauto.
Qed.

Lemma run_scraper_queue_witness :
  LegRun.timestamps_in_range LegExamples.clock ∅
                             (concat [[LegExamples.tropicana_post]])
  /\ exists queue' stats,
       Leg.run_scraper LegExamples.clock false [[LegExamples.tropicana_post]] ∅
                       LegExamples.empty_queue
       = Some (queue',
               ∅ ∪ list_to_set (Leg.post_url
                                  <$> concat [[LegExamples.tropicana_post]]),
               stats)
       /\ Forall (fun e => Leg.tier e = Auto) (Leg.queue_auto queue').
Proof.
  assert (Hr : LegRun.timestamps_in_range LegExamples.clock ∅
                 (concat [[LegExamples.tropicana_post]]))
    by apply legacy_example_timestamps_in_range.
  split; [exact Hr|].
  destruct (run_scraper_queue LegExamples.clock [[LegExamples.tropicana_post]] ∅
              LegExamples.empty_queue Hr)
    as (queue' & stats & entries & Heq & Ha & _).
  exists queue', stats. split; [exact Heq|].
  rewrite Ha. cbn [Leg.queue_auto LegExamples.empty_queue app].
  apply Forall_forall. intros e He. now apply list_elem_of_filter in He as [He _].
Defined.

(** X6.  A dry run of [run_scraper] builds no entry: it returns whatever
    the timestamps of the posts are, and leaves the queue as it was.  The
    run that writes returns exactly when the timestamps of the posts it
    builds entries for are in the range of [datetime], with the counters
    and the registry of the dry run; otherwise it raises. *)
Theorem dry_run_keeps_queue (clock : Leg.Clock) (fetched : list (list Leg.Post))
        (known : gset string) (queue : Leg.Queue) :
  exists registry stats,
    Leg.run_scraper clock true fetched known queue
    = Some (queue, registry, stats)
    /\ (LegRun.timestamps_in_range clock known (concat fetched) ->
        exists queue',
          Leg.run_scraper clock false fetched known queue
          = Some (queue', registry, stats))
    /\ (~ LegRun.timestamps_in_range clock known (concat fetched) ->
        Leg.run_scraper clock false fetched known queue = None).
Proof.
  destruct (legacy_run_scraper_exact fetched known) as (stats & Heq & _).
  pose proof (Heq clock true queue) as Hdry.
  pose proof (Heq clock false queue) as Hwet.
  bind. eexists _, stats. split; [exact Hdry|].
  pose proof (legacy_staged_from_some clock known (concat fetched) 0) as Hs.
  destruct (LegRun.staged_from clock known 0 (concat fetched)) as [[es n]|];
    bind.
  - split; [eauto|]. intros Hn. exfalso. apply Hn, Hs. eauto.
  - split; [|auto]. intros Hr. apply Hs in Hr as [? [=]].
Qed.

Lemma dry_run_keeps_queue_witness :
  LegRun.timestamps_in_range LegExamples.clock ∅
                             (concat [[LegExamples.tropicana_post]])
  /\ (~ LegRun.timestamps_in_range LegExamples.clock ∅
                                   (concat [[LegExamples.late_post]]))
  /\ (exists queue' registry stats,
        Leg.run_scraper LegExamples.clock true [[LegExamples.tropicana_post]] ∅
                        LegExamples.empty_queue
        = Some (LegExamples.empty_queue, registry, stats)
        /\ Leg.run_scraper LegExamples.clock false
                           [[LegExamples.tropicana_post]] ∅
                           LegExamples.empty_queue
           = Some (queue', registry, stats))
  /\ is_Some (Leg.run_scraper LegExamples.clock true [[LegExamples.late_post]] ∅
                              LegExamples.empty_queue)
  /\ Leg.run_scraper LegExamples.clock false [[LegExamples.late_post]] ∅
                     LegExamples.empty_queue
     = None.
Proof.
  assert (Hr : LegRun.timestamps_in_range LegExamples.clock ∅
                 (concat [[LegExamples.tropicana_post]]))
    by apply legacy_example_timestamps_in_range.
  assert (Hn : ~ LegRun.timestamps_in_range LegExamples.clock ∅
                   (concat [[LegExamples.late_post]])).
  { intros H. destruct (H LegExamples.late_post) as [d Hd].
    - left.
    - vm_compute. eauto.
    - vm_compute in Hd. discriminate. }
  split; [exact Hr|]. split; [exact Hn|]. split; [|split].
  - destruct (dry_run_keeps_queue LegExamples.clock
                [[LegExamples.tropicana_post]] ∅ LegExamples.empty_queue)
      as (registry & stats & Hdry & Hwet & _).
    destruct (Hwet Hr) as [queue' Hq]. eauto.
  - destruct (dry_run_keeps_queue LegExamples.clock
                [[LegExamples.late_post]] ∅ LegExamples.empty_queue)
      as (registry & stats & Hdry & _). rewrite Hdry. eauto.
  - destruct (dry_run_keeps_queue LegExamples.clock
                [[LegExamples.late_post]] ∅ LegExamples.empty_queue)
      as (registry & stats & _ & _ & Hraise). exact (Hraise Hn).
Defined.

(** X25.  A timestamp that [datetime] cannot convert stops the run of
    [process_posts]: the run raises exactly when the batch holds a post
    that the registry does not hold, that is relevant, that is classified
    auto or review and whose timestamp is set and out of range.  Nothing
    is returned then, neither the entries built before nor the urls
    recorded before. *)
Theorem out_of_range_stops_the_run (clock : Pub.Clock) (posts : list Pub.Post)
        (known : gset string) :
  Pub.process_posts clock posts known = None
  <-> exists p ts,
        p ∈ posts /\ is_Some (PubRun.to_stage known p)
        /\ Pub.post_created_utc p = Some ts /\ ts <> 0
        /\ Pub.utcfromtimestamp clock ts = None.
Proof.
  destruct (public_process_posts_exact posts known) as (stats & Heq & _).
  rewrite (Heq clock).
  pose proof (public_staged_from_some clock known posts 0) as Hs.
  split.
  - intros H.
    assert (Hn : ~ PubRun.timestamps_in_range clock known posts).
    { intros Hr. apply Hs in Hr as [[es n] Hr]. rewrite Hr in H. discriminate. }
    clear -Hn. induction posts as [|post posts IH].
    { exfalso. apply Hn. intros p Hp. inversion Hp. }
    destruct (decide (is_Some (PubRun.to_stage known post))) as [Hst|Hst].
    + destruct (Pub.post_created_utc post) as [ts|] eqn:Ec.
      * destruct (decide (ts = 0)) as [->|Hz].
        -- destruct IH as (p & ts & Hp & H); [|exists p, ts; split; [now right|exact H]].
           intros Hr. apply Hn. intros p Hp Hps.
           apply elem_of_cons in Hp as [->|Hp]; [|auto].
           left. now rewrite Ec.
        -- destruct (Pub.utcfromtimestamp clock ts) as [d|] eqn:Eu.
           ++ destruct IH as (p & ts' & Hp & H);
                [|exists p, ts'; split; [now right|exact H]].
              intros Hr. apply Hn. intros p Hp Hps.
              apply elem_of_cons in Hp as [->|Hp]; [|auto].
              right. rewrite Ec. cbn. rewrite Eu. eauto.
           ++ exists post, ts. split; [left|]. auto.
      * destruct IH as (p & ts & Hp & H); [|exists p, ts; split; [now right|exact H]].
        intros Hr. apply Hn. intros p Hp Hps.
        apply elem_of_cons in Hp as [->|Hp]; [|auto].
        left. now rewrite Ec.
    + destruct IH as (p & ts & Hp & H); [|exists p, ts; split; [now right|exact H]].
      intros Hr. apply Hn. intros p Hp Hps.
      apply elem_of_cons in Hp as [->|Hp]; [contradiction|auto].
  - intros (p & ts & Hp & Hst & Ec & Hz & Eu).
    destruct (PubRun.staged_from clock known 0 posts) as [[es n]|]; bind;
      [|reflexivity].
    exfalso. assert (Hr : PubRun.timestamps_in_range clock known posts)
      by (apply Hs; eauto).
    destruct (Hr p Hp Hst) as [H|[d H]]; rewrite Ec in H; cbn in H; congruence.
Qed.

Lemma out_of_range_stops_the_run_witness :
  Pub.process_posts Examples.clock
                    [Examples.tropicana_post; Examples.late_post] ∅
  = None.
Proof.
  apply (proj2 (out_of_range_stops_the_run Examples.clock
                  [Examples.tropicana_post; Examples.late_post] ∅)).
  exists Examples.late_post, 990000000000.
  split; [right; left|]. split; [vm_compute; eauto|].
  split; [reflexivity|]. split; [discriminate|reflexivity].
Defined.

(** ** More on the promotion engine *)

Section PromotionRuns.

Import RedditPublicScraper PubTerms.

Lemma mark_promoted_elem i table r' :
  r' ∈ mark_promoted i table ->
  exists r, r ∈ table
            /\ r' = (if String.eqb (id r) i
                     then mkRow (id r) (set_status promoted (entry r)) else r).
Proof.
  unfold mark_promoted. rewrite list_elem_of_fmap. intros (r & -> & Hr). eauto.
Qed.

Lemma mark_all_elem : forall rows table r',
  r' ∈ mark_all rows table ->
  exists r, r ∈ table
            /\ ((r' = r /\ Forall (fun p => id p <> id r) rows)
                \/ r' = mkRow (id r) (set_status promoted (entry r))).
Proof.
  unfold mark_all. induction rows as [|p rows IH]; intros table r' Hr'.
  - exists r'. split; [exact Hr'|]. left. split; [reflexivity|constructor].
  - cbn [foldl] in Hr'. apply IH in Hr' as (r1 & Hr1 & Hcase).
    apply mark_promoted_elem in Hr1 as (r & Hr & ->). exists r.
    split; [exact Hr|].
    destruct (String.eqb (id r) (id p)) eqn:E.
    + right. destruct Hcase as [[-> _]| ->]; reflexivity.
    + apply String.eqb_neq in E.
      destruct Hcase as [[-> Hall]| ->]; [left|right; reflexivity].
      split; [reflexivity|]. constructor; [congruence|exact Hall].
Qed.

(** What a promotion that ran to its end on a store that accepts every
    request leaves in the staging table. *)
Lemma promote_loop_done refused :
  (forall n, refused n = false) ->
  forall rows db count sent db' n,
  promote_loop refused rows db count sent = (db', Some n) ->
  reddit_staging db'
  = mark_all (filter (fun row => has_sizes (entry row) = true) rows)
             (reddit_staging db).
Proof.
  intros Hacc. induction rows as [|row rows IH]; intros db count sent db' n H.
  - injection H as <- _. reflexivity.
  - cbn [promote_loop] in H.
    destruct (has_sizes (entry row)) eqn:Hs.
    + destruct (records_of row) as [[p e]|] eqn:Hr.
      * destruct (promote_entry_turn refused row db sent p e Hs Hr)
          as (db1 & k & sent1 & E & _ & Hall).
        destruct (Hall Hacc) as [-> ->]. rewrite E in H.
        apply IH in H. rewrite H, filter_cons_True by exact Hs. reflexivity.
      * unfold promote_entry in H. rewrite Hs, Hr in H. discriminate.
    + rewrite promote_entry_skip in H by exact Hs.
      apply IH in H. rewrite H, filter_cons_False by congruence. reflexivity.
Qed.

(** Rows without both sizes leave the store as it is, and no request is
    sent for them. *)
Lemma promote_loop_idle refused : forall rows db count sent,
  Forall (fun row => has_sizes (entry row) = false) rows ->
  promote_loop refused rows db count sent = (db, Some count).
Proof.
  induction rows as [|row rows IH]; intros db count sent Hall; [reflexivity|].
  apply Forall_cons in Hall as [Hs Hall]. cbn [promote_loop].
  rewrite promote_entry_skip by exact Hs.
  rewrite IH by exact Hall. now rewrite Z.add_0_r.
Qed.

End PromotionRuns.

(** X7.  A second promotion is idle: after a promotion that ran to its
    end on a store that accepted every request, every row it wrote records
    for is marked promoted, so promoting again sends no write, whatever the
    store would refuse: it changes nothing and returns 0, or raises at its
    select when the store refuses that. *)
Theorem second_promotion_is_idle (refused again : nat -> bool)
        (db db' : Pub.Db) (n : Z) :
  (forall k, refused k = false) ->
  Pub.promote_auto_entries refused db = (db', Some n) ->
  Pub.promote_auto_entries again db'
  = (db', if again 0%nat then None else Some 0).
Proof.
  unfold Pub.promote_auto_entries. intros Hacc H. rewrite Hacc in H.
  destruct (again 0%nat); [reflexivity|].
  apply (promote_loop_done refused Hacc) in H. apply promote_loop_idle.
  apply Forall_forall. intros r' Hr'.
  apply list_elem_of_filter in Hr' as [Hp Hr'].
  rewrite H in Hr'. apply mark_all_elem in Hr' as (r & Hr & [[-> Hall]| ->]).
  - destruct (Pub.has_sizes (Pub.entry r)) eqn:Hs; [|reflexivity].
    exfalso. rewrite Forall_forall in Hall. apply (Hall r); [|reflexivity].
    apply list_elem_of_filter. split; [exact Hs|].
    apply list_elem_of_filter. auto.
  - unfold Pub.pending_auto in Hp. cbn in Hp.
    destruct (Pub.tier (Pub.entry r)); discriminate.
Qed.

Lemma second_promotion_is_idle_witness :
  let db := Examples.db_of [Examples.tide_row; Examples.tropicana_row] in
  (forall k, Examples.accepting k = false)
  /\ exists db', Pub.promote_auto_entries Examples.accepting db = (db', Some 1)
                 /\ Pub.promote_auto_entries Examples.refusing_insert db'
                    = (db', Some 0).
Proof.
  intros db. split; [reflexivity|].
  destruct (Pub.promote_auto_entries Examples.accepting db) as [db' res] eqn:E.
  assert (res = Some 1) as ->.
  { apply (f_equal snd) in E. cbn [snd] in E. rewrite <- E.
    vm_compute. reflexivity. }
  exists db'. split; [reflexivity|].
  exact (second_promotion_is_idle Examples.accepting Examples.refusing_insert
           db db' 1 (fun _ => eq_refl) E).
Defined.

Section PromotionEffects.

Import RedditPublicScraper PubTerms PubRun.

Lemma built_dated e :
  built e -> exists d, date_noticed e = Some d /\ event_date_of e = Some d.
Proof.
  intros (clock & calls & post & parsed & t & calls' & [Hutc Hnow] & Hb).
  unfold event_date_of. unfold build_entry in Hb.
  destruct (negb (default 0 (post_created_utc post) =? 0)).
  - destruct (utcfromtimestamp clock (default 0 (post_created_utc post)))
      as [d|] eqn:Ed; bind; [|discriminate].
    injection Hb as <- _. cbn [date_noticed]. exists (month_start d).
    split; [reflexivity|]. specialize (Hutc _ _ Ed).
    destruct (month_start d); [congruence|reflexivity].
  - injection Hb as <- _. cbn [date_noticed].
    exists (month_start (now clock calls)).
    split; [reflexivity|]. specialize (Hnow calls).
    destruct (month_start (now clock calls)); [congruence|reflexivity].
Qed.

Lemma records_of_date row p e :
  records_of row = Some (p, e) -> event_date_of (entry row) = Some (event_date e).
Proof.
  unfold records_of. intros H.
  destruct (old_size (signals (entry row))) as [o|]; [|discriminate].
  destruct (new_size (signals (entry row))) as [n|]; [|discriminate].
  bind. destruct (shrink_pct o n) as [pct|]; [|discriminate].
  bind. destruct (event_date_of (entry row)) as [d|]; [|discriminate].
  bind. injection H as <- <-. reflexivity.
Qed.

(** The store after any number of turns of the promotion loop, against
    the store before, whatever the store refuses. *)
Lemma promote_loop_only_adds refused : forall rows db count sent,
  events db `prefix_of` events (promote_loop refused rows db count sent).1
  /\ (forall upc,
        products (promote_loop refused rows db count sent).1 !! upc
        = products db !! upc
        \/ (is_Some (products (promote_loop refused rows db count sent).1 !! upc)
            /\ PyStr.starts_with "REDDIT-" upc = true))
  /\ Forall2 (fun r r' => r' = r \/ r' = marked r)
             (reddit_staging db)
             (reddit_staging (promote_loop refused rows db count sent).1).
Proof.
  assert (Hsame : forall db : Db,
             events db `prefix_of` events db
             /\ (forall upc,
                    products db !! upc = products db !! upc
                    \/ (is_Some (products db !! upc)
                        /\ PyStr.starts_with "REDDIT-" upc = true))
             /\ Forall2 (fun r r' => r' = r \/ r' = marked r)
                        (reddit_staging db) (reddit_staging db)).
  { intros db. split; [reflexivity|]. split; [auto|].
    apply Forall_Forall2_diag, Forall_forall. auto. }
  induction rows as [|row rows IH]; intros db count sent.
  - cbn. apply Hsame.
  - cbn [promote_loop].
    destruct (has_sizes (entry row)) eqn:Hs.
    2: { rewrite promote_entry_skip by exact Hs. apply IH. }
    destruct (records_of row) as [[p e]|] eqn:Hr.
    2: { unfold promote_entry. rewrite Hs, Hr. cbn. apply Hsame. }
    destruct (promote_entry_turn refused row db sent p e Hs Hr)
      as (db1 & k & sent1 & -> & Hcase & _).
    destruct (IH db1 (count + k) sent1) as (He & Hp & Hst).
    assert (He1 : events db `prefix_of` events db1).
    { destruct Hcase as [[-> _]|[[-> _]|[[-> _]|[-> _]]]]; cbn;
        solve [reflexivity | now apply prefix_app_r]. }
    assert (Hp1 : products db1 = products db
                  \/ products db1 = <[product_upc p := p]> (products db))
      by (destruct Hcase as [[-> _]|[[-> _]|[[-> _]|[-> _]]]]; cbn; auto).
    assert (Hs1 : Forall2 (fun r r' => r' = r \/ r' = marked r)
                          (reddit_staging db) (reddit_staging db1)).
    { destruct Hcase as [[-> _]|[[-> _]|[[-> _]|[-> _]]]]; cbn;
        try (apply Forall_Forall2_diag, Forall_forall; auto).
      unfold mark_promoted. apply Forall2_fmap_r, Forall_Forall2_diag.
      apply Forall_forall. intros r _. cbn.
      destruct (String.eqb (id r) (id row)); [right|left]; reflexivity. }
    split; [|split].
    + etrans; [exact He1|exact He].
    + intros upc. destruct (Hp upc) as [Hu|Hu]; [|auto].
      rewrite Hu. destruct Hp1 as [->| ->]; [auto|].
      destruct (decide (product_upc p = upc)) as [<-|Hne].
      * right. rewrite lookup_insert_eq. split; [eauto|].
        apply records_of_fields in Hr as (-> & _). reflexivity.
      * left. now rewrite lookup_insert_ne.
    + eapply (Forall2_trans (fun r r' => r' = r \/ r' = marked r)
                            (fun r r' => r' = r \/ r' = marked r));
        [|exact Hs1|exact Hst].
      intros r r1 r2 [-> | ->] [-> | ->]; auto.
Qed.

End PromotionEffects.

(** X8.  Rows as the scraper builds them never stop a promotion: when
    every pending auto row holds an entry made by [build_entry], the
    promotion raises nowhere but at a refused select.  Past the select it
    runs to its end whatever the store refuses, and returns at most the
    number of rows with both sizes present and not zero; on a store that
    accepts every request it returns that number and dates each event it
    writes with the [date_noticed] of its row. *)
Theorem built_rows_promote (refused : nat -> bool) (db : Pub.Db) :
  (forall row, row ∈ Pub.reddit_staging db -> Pub.pending_auto row = true ->
               PubRun.built (Pub.entry row)) ->
  (refused 0%nat = false ->
   exists db' count,
     Pub.promote_auto_entries refused db = (db', Some count)
     /\ 0 <= count <= Z.of_nat (length (PubTerms.promoted_rows db)))
  /\ ((forall n, refused n = false) ->
      exists db' (recs : list (Pub.Product * Pub.Event)),
        Pub.promote_auto_entries refused db
        = (db', Some (Z.of_nat (length (PubTerms.promoted_rows db))))
        /\ Pub.events db' = (Pub.events db ++ recs.*2)%list
        /\ Forall2 (fun row pe =>
                      Pub.date_noticed (Pub.entry row)
                      = Some (Pub.event_date (snd pe)))
                   (PubTerms.promoted_rows db) recs).
Proof.
  intros Hb.
  assert (Hd : forall row,
             row ∈ filter (fun row => Pub.pending_auto row = true)
                          (Pub.reddit_staging db) ->
             Pub.has_sizes (Pub.entry row) = true ->
             is_Some (Pub.event_date_of (Pub.entry row))).
  { intros row Hin _. apply list_elem_of_filter in Hin as [Hp Hin].
    destruct (built_dated _ (Hb row Hin Hp)) as (d & _ & ->). eauto. }
  split.
  - intros H0. unfold Pub.promote_auto_entries. rewrite H0.
    destruct (promote_loop_any refused _ db 0 1%nat Hd)
      as (recs & db' & n & HF & Heq & Hn & _).
    fold (PubTerms.promoted_rows db) in HF.
    exists db', n. split; [exact Heq|].
    rewrite (Forall2_length _ _ _ HF). lia.
  - intros Hacc. unfold Pub.promote_auto_entries. rewrite Hacc.
    destruct (promote_loop_spec refused Hacc _ db 0 1%nat Hd)
      as (recs & HF & Heq).
    fold (PubTerms.promoted_rows db) in HF.
    eexists _, recs. rewrite Heq. split.
    { rewrite (Forall2_length _ _ _ HF). reflexivity. }
    split; [reflexivity|].
    assert (Hall : Forall (fun row => PubRun.built (Pub.entry row))
                          (PubTerms.promoted_rows db)).
    { apply Forall_forall. intros row Hin. unfold PubTerms.promoted_rows in Hin.
      apply list_elem_of_filter in Hin as [_ Hin].
      apply list_elem_of_filter in Hin as [Hp Hin]. auto. }
    clear Heq. induction HF as [|row [p e] rows recs Hr HF IH]; [constructor|].
    apply Forall_cons in Hall as [Hrow Hall]. constructor; [|auto].
    destruct (built_dated _ Hrow) as (d & -> & Hdate).
    apply records_of_date in Hr. cbn [snd]. congruence.
Qed.

Lemma built_rows_promote_witness :
  let db := Examples.db_of [Examples.tide_row; Examples.tropicana_row] in
  (forall row, row ∈ Pub.reddit_staging db -> Pub.pending_auto row = true ->
               PubRun.built (Pub.entry row))
  /\ (exists db' count,
        Pub.promote_auto_entries Examples.refusing_insert db = (db', Some count)
        /\ 0 <= count <= 1)
  /\ exists db' (recs : list (Pub.Product * Pub.Event)),
       Pub.promote_auto_entries Examples.accepting db = (db', Some 1)
       /\ Pub.events db' = (Pub.events db ++ recs.*2)%list
       /\ Forall2 (fun row pe =>
                     Pub.date_noticed (Pub.entry row)
                     = Some (Pub.event_date (snd pe)))
                  (PubTerms.promoted_rows db) recs.
Proof.
  intros db.
  assert (Hclock : PubRun.dates_months Examples.clock).
  { split; [|intros n; discriminate]. intros ts d. cbn.
    destruct ((-62135596800 <=? ts) && (ts <=? 253402300799));
      [intros [= <-]|]; discriminate. }
  assert (Hb : forall row, row ∈ Pub.reddit_staging db ->
                           Pub.pending_auto row = true ->
                           PubRun.built (Pub.entry row)).
  { intros row Hin _. cbn in Hin.
    apply elem_of_cons in Hin as [->|Hin];
      [exists Examples.clock, 0%nat, Examples.tide_post, Examples.tide_signals,
              Auto, 1%nat
      |apply list_elem_of_singleton in Hin as ->;
       exists Examples.clock, 0%nat, Examples.tropicana_post,
              Examples.tropicana_signals, Auto, 1%nat];
      (split; [exact Hclock|reflexivity]). }
  split; [exact Hb|].
  assert (Hlen : length (PubTerms.promoted_rows db) = 1%nat)
    by (vm_compute; reflexivity).
  split.
  - destruct (proj1 (built_rows_promote Examples.refusing_insert db Hb) eq_refl)
      as (db' & count & Heq & Hc).
    exists db', count. split; [exact Heq|]. rewrite Hlen in Hc. exact Hc.
  - destruct (proj2 (built_rows_promote Examples.accepting db Hb)
                    (fun _ => eq_refl))
      as (db' & recs & H1 & H2 & H3).
    exists db', recs. split; [|split; assumption].
    rewrite H1, Hlen. reflexivity.
Defined.

(** X9.  A promotion only adds: whatever it meets and whatever the store
    refuses, it keeps every event and appends its own, deletes no product
    and writes products under [REDDIT-] codes only, and leaves each staging
    row as it was or with its status set to promoted. *)
Theorem promotion_only_adds (refused : nat -> bool) (db : Pub.Db) :
  Pub.events db `prefix_of` Pub.events (Pub.promote_auto_entries refused db).1
  /\ (forall upc,
        Pub.products (Pub.promote_auto_entries refused db).1 !! upc
        = Pub.products db !! upc
        \/ (is_Some (Pub.products (Pub.promote_auto_entries refused db).1 !! upc)
            /\ PyStr.starts_with "REDDIT-" upc = true))
  /\ Forall2 (fun r r' => r' = r \/ r' = PubRun.marked r)
             (Pub.reddit_staging db)
             (Pub.reddit_staging (Pub.promote_auto_entries refused db).1).
Proof.
  unfold Pub.promote_auto_entries. destruct (refused 0%nat).
  - cbn [fst]. split; [reflexivity|]. split; [auto|].
    apply Forall_Forall2_diag, Forall_forall. auto.
  - apply promote_loop_only_adds.
Qed.

(** ** More on the extractor *)

Section Brands.

Import Re.

(** The later steps of [parse_text] leave the brand alone. *)
Lemma public_parse_brand text :
  exists r, Pub.parse_text text = Some r
            /\ brand r = PyStr.title
                           <$> Pub.first_brand Pub.KNOWN_BRANDS (PyStr.lower text).
Proof.
  destruct (public_parse_text_steps text) as (r1 & r2 & r3 & H1 & H2 & H3 & Hr).
  eexists; split; [exact Hr|].
  assert (Hb : brand r3 = brand (Pub.brand_step text empty_signals)).
  { public_price_cases text H3.
    all: destruct (public_explicit_step_cases text
                     (Pub.brand_step text empty_signals))
        as [[_ H]|(m & w1 & w3 & _ & _ & _ & [[_ H]|[(_ & _ & H)|(_ & _ & H)]])];
      rewrite H in H1; injection H1 as <-; clear H.
    all: try (rewrite public_implicit_step_explicit in H2 by reflexivity;
              injection H2 as <-; reflexivity).
    all: destruct (explicit_from_to (Pub.brand_step text empty_signals)) eqn:He;
      [rewrite public_implicit_step_explicit in H2 by exact He;
       injection H2 as <-; reflexivity|].
    all: destruct (public_implicit_step_cases text _ He)
        as [[_ H]|[(? & ? & _ & _ & H)
                  |(? & ? & ? & ? & y1 & y2 & _ & _ & _ & _ & H)]];
      rewrite H in H2; injection H2 as <-; clear H.
    all: unfold PubTerms.implicit_pair; float_cases; reflexivity. }
  unfold Pub.hint_step. fields. rewrite Hb. unfold Pub.brand_step.
  destruct (Pub.first_brand Pub.KNOWN_BRANDS (PyStr.lower text)); reflexivity.
Qed.

Lemma legacy_parse_brand text :
  exists r, Leg.parse_text text = Some r
            /\ brand r = PyStr.title
                           <$> Leg.first_brand Leg.KNOWN_BRANDS (PyStr.lower text).
Proof.
  destruct (legacy_parse_text_steps text) as (r1 & r2 & H1 & H2 & Hr).
  eexists; split; [exact Hr|].
  assert (Hb : brand r2 = brand (Leg.brand_step text empty_signals)).
  { legacy_price_cases text H2.
    all: destruct (legacy_size_step_cases text (Leg.brand_step text empty_signals))
        as [(m & w1 & w3 & _ & _ & _ & H)
           |[_ [[_ H]|[(? & ? & _ & _ & H)
                      |(? & ? & ? & ? & y1 & y2 & _ & _ & _ & _ & H)]]]];
      rewrite H in H1; injection H1 as <-; clear H.
    all: unfold LegTerms.explicit_record, LegTerms.implicit_record;
      float_cases; reflexivity. }
  unfold Leg.hint_step. fields. rewrite Hb. unfold Leg.brand_step.
  destruct (Leg.first_brand Leg.KNOWN_BRANDS (PyStr.lower text)); reflexivity.
Qed.

Lemma public_first_brand_spec brands t :
  match Pub.first_brand brands t with
  | Some b => exists before after,
                brands = (before ++ b :: after)%list
                /\ PyStr.contains b t = true
                /\ Forall (fun x => PyStr.contains x t = false) before
  | None => Forall (fun x => PyStr.contains x t = false) brands
  end.
Proof.
  induction brands as [|x brands IH]; cbn [Pub.first_brand]; [constructor|].
  destruct (PyStr.contains x t) eqn:E.
  - exists [], brands. auto.
  - destruct (Pub.first_brand brands t) as [b|].
    + destruct IH as (before & after & -> & Hb & Hall).
      exists (x :: before), after. auto.
    + constructor; assumption.
Qed.

Lemma legacy_first_brand_spec brands t :
  match Leg.first_brand brands t with
  | Some b => exists before after,
                brands = (before ++ b :: after)%list
                /\ PyStr.contains b t = true
                /\ Forall (fun x => PyStr.contains x t = false) before
  | None => Forall (fun x => PyStr.contains x t = false) brands
  end.
Proof.
  induction brands as [|x brands IH]; cbn [Leg.first_brand]; [constructor|].
  destruct (PyStr.contains x t) eqn:E.
  - exists [], brands. auto.
  - destruct (Leg.first_brand brands t) as [b|].
    + destruct IH as (before & after & -> & Hb & Hall).
      exists (x :: before), after. auto.
    + constructor; assumption.
Qed.

End Brands.

(** X10.  Brand detection in both extractors: the brand of the result is
    the title-cased form of the first entry of [KNOWN_BRANDS], in the order
    of the list, that occurs anywhere in the lower-cased text (as a
    substring, not as a word), and no brand is set exactly when no entry
    occurs in it. *)
Theorem brand_is_first_known (text : string) :
  (exists r, Pub.parse_text text = Some r
     /\ (brand r = None
         <-> Forall (fun b => PyStr.contains b (PyStr.lower text) = false)
                    Pub.KNOWN_BRANDS)
     /\ forall B, brand r = Some B ->
          exists before b after,
            Pub.KNOWN_BRANDS = (before ++ b :: after)%list
            /\ B = PyStr.title b
            /\ PyStr.contains b (PyStr.lower text) = true
            /\ Forall (fun x => PyStr.contains x (PyStr.lower text) = false)
                      before)
  /\ (exists r, Leg.parse_text text = Some r
        /\ (brand r = None
            <-> Forall (fun b => PyStr.contains b (PyStr.lower text) = false)
                       Leg.KNOWN_BRANDS)
        /\ forall B, brand r = Some B ->
             exists before b after,
               Leg.KNOWN_BRANDS = (before ++ b :: after)%list
               /\ B = PyStr.title b
               /\ PyStr.contains b (PyStr.lower text) = true
               /\ Forall (fun x => PyStr.contains x (PyStr.lower text) = false)
                         before).
Proof.
  split.
  - destruct (public_parse_brand text) as (r & Hr & Hb). exists r.
    split; [exact Hr|]. rewrite Hb.
    pose proof (public_first_brand_spec Pub.KNOWN_BRANDS (PyStr.lower text)) as Hs.
    destruct (Pub.first_brand Pub.KNOWN_BRANDS (PyStr.lower text)) as [b|].
    + destruct Hs as (before & after & Heq & Hc & Hall). split.
      * split; [discriminate|]. intros HF. exfalso.
        rewrite Heq in HF. apply Forall_app in HF as [_ HF].
        apply Forall_cons in HF as [HF _]. congruence.
      * intros B [= <-]. exists before, b, after. auto.
    + split; [tauto|discriminate].
  - destruct (legacy_parse_brand text) as (r & Hr & Hb). exists r.
    split; [exact Hr|]. rewrite Hb.
    pose proof (legacy_first_brand_spec Leg.KNOWN_BRANDS (PyStr.lower text)) as Hs.
    destruct (Leg.first_brand Leg.KNOWN_BRANDS (PyStr.lower text)) as [b|].
    + destruct Hs as (before & after & Heq & Hc & Hall). split.
      * split; [discriminate|]. intros HF. exfalso.
        rewrite Heq in HF. apply Forall_app in HF as [_ HF].
        apply Forall_cons in HF as [HF _]. congruence.
      * intros B [= <-]. exists before, b, after. auto.
    + split; [tauto|discriminate].
Qed.

Section CounterFormula.

Import Re.

Lemma public_counter_formula text :
  exists r, Pub.parse_text text = Some r
    /\ fields_found r
       = brand_points r
         + (if explicit_from_to r then 2
            else match old_size r with Some _ => 1 | None => 0 end)
         + price_points r.
Proof.
  destruct (public_parse_text_steps text) as (r1 & r2 & r3 & H1 & H2 & H3 & ->).
  eexists; split; [reflexivity|].
  public_price_cases text H3.
  all: destruct (public_explicit_step_cases text (Pub.brand_step text empty_signals))
      as [[_ H]|(m & w1 & w3 & _ & _ & _ & [[_ H]|[(_ & _ & H)|(_ & _ & H)]])];
    rewrite H in H1; injection H1 as <-; clear H.
  all: public_brand_cases text.
  all: lazymatch type of H2 with
       | context [set_explicit_from_to] =>
           rewrite public_implicit_step_explicit in H2 by reflexivity;
           injection H2 as <-; unfold Pub.hint_step; fields; reflexivity
       | _ => idtac
       end.
  all: match type of H2 with Pub.implicit_step _ ?r = _ =>
         destruct (public_implicit_step_cases text r eq_refl)
           as [[_ H]|[(? & ? & _ & _ & H)
                     |(? & ? & ? & ? & y1 & y2 & _ & _ & _ & _ & H)]]
       end;
    rewrite H in H2; injection H2 as <-; clear H.
  all: unfold PubTerms.implicit_pair, Pub.hint_step.
  all: float_cases.
  all: fields; reflexivity.
Qed.

Lemma legacy_counter_formula text :
  exists r, Leg.parse_text text = Some r
    /\ fields_found r
       = brand_points r
         + (if explicit_from_to r then 2
            else match old_size r, new_size r with
                 | Some a, Some b => if PrimFloat.eqb a b then 0 else 1
                 | _, _ => 0
                 end)
         + price_points r.
Proof.
  destruct (legacy_parse_text_steps text) as (r1 & r2 & H1 & H2 & ->).
  eexists; split; [reflexivity|].
  legacy_price_cases text H2.
  all: destruct (legacy_size_step_cases text (Leg.brand_step text empty_signals))
      as [(m & w1 & w3 & _ & _ & _ & H)
         |[_ [[_ H]|[(? & ? & _ & _ & H)
                    |(? & ? & ? & ? & y1 & y2 & _ & _ & _ & _ & H)]]]];
    rewrite H in H1; injection H1 as <-; clear H.
  all: legacy_brand_cases text.
  all: unfold LegTerms.explicit_record, LegTerms.implicit_record, Leg.hint_step.
  all: try (destruct (PrimFloat.eqb y1 y2) eqn:Ey; cbn [negb]).
  all: fields; rewrite ?Ey; reflexivity.
Qed.

Lemma legacy_brand_truthy text r :
  Leg.parse_text text = Some r ->
  PyStr.truthy (brand r) = true <-> brand r <> None.
Proof.
  intros Hp. destruct (legacy_parse_brand text) as (r' & Hr & Hb).
  rewrite Hp in Hr. injection Hr as <-. rewrite Hb.
  destruct (Leg.first_brand Leg.KNOWN_BRANDS (PyStr.lower text)) as [b|] eqn:Hf.
  - apply legacy_first_brand_in in Hf. cbn [fmap option_fmap option_map].
    rewrite (titled_brand_truthy Leg.KNOWN_BRANDS b eq_refl Hf).
    split; [discriminate|reflexivity].
  - cbn. split; [discriminate|congruence].
Qed.

End CounterFormula.

(** X11.  The counter of an extracted record can be read off the record.
    In reddit_public_scraper [fields_found] is 1 for a brand, plus 2 for an
    explicit change or else 1 when [old_size] is set, plus 1 when
    [old_price] is set.  In reddit_scraper the size part is 2 for an
    explicit change, or else 1 when both sizes are set and differ. *)
Theorem fields_found_formula (text : string) :
  (exists r, Pub.parse_text text = Some r
     /\ fields_found r
        = (match brand r with Some _ => 1 | None => 0 end)
          + (if explicit_from_to r then 2
             else match old_size r with Some _ => 1 | None => 0 end)
          + (match old_price r with Some _ => 1 | None => 0 end))
  /\ (exists r, Leg.parse_text text = Some r
        /\ fields_found r
           = (match brand r with Some _ => 1 | None => 0 end)
             + (if explicit_from_to r then 2
                else match old_size r, new_size r with
                     | Some a, Some b => if PrimFloat.eqb a b then 0 else 1
                     | _, _ => 0
                     end)
             + (match old_price r with Some _ => 1 | None => 0 end)).
Proof.
  split.
  - destruct (public_counter_formula text) as (r & Hr & Hf). eauto.
  - destruct (legacy_counter_formula text) as (r & Hr & Hf). eauto.
Qed.

(** X12.  For a record that either extractor returns, the auto tier needs
    nothing beyond a known brand and an explicit change (the threshold of
    three fields is then always met), and the discard tier is that of the
    records with nothing counted: no brand, no explicit change, no counted
    pair of sizes and no pair of prices. *)
Theorem extracted_tier (text : string) :
  (exists r, Pub.parse_text text = Some r
     /\ (Pub.confidence_tier r = Auto
         <-> brand r <> None /\ explicit_from_to r = true)
     /\ (Pub.confidence_tier r = Discard
         <-> brand r = None /\ old_size r = None /\ old_price r = None))
  /\ (exists r, Leg.parse_text text = Some r
        /\ (Leg.confidence_tier r = Auto
            <-> brand r <> None /\ explicit_from_to r = true)
        /\ (Leg.confidence_tier r = Discard
            <-> brand r = None /\ explicit_from_to r = false
                /\ old_price r = None
                /\ forall a b, old_size r = Some a -> new_size r = Some b ->
                               PrimFloat.eqb a b = true)).
Proof.
  split.
  - destruct (public_counter_formula text) as (r & Hr & Hf). exists r.
    split; [exact Hr|].
    assert (Ht : PyStr.truthy (brand r)
                 = match brand r with Some _ => true | None => false end).
    { pose proof (public_brand_truthy text r Hr) as [Hb1 Hb2].
      destruct (brand r); [apply Hb2; discriminate|reflexivity]. }
    assert (He : explicit_from_to r = true -> old_size r <> None).
    { intros He. destruct (public_explicit_sizes text r Hr He)
        as (m & v1 & v3 & _ & _ & _ & _ & o & n & -> & _). discriminate. }
    unfold Pub.confidence_tier, Pub.TIER_AUTO_THRESHOLD, Pub.TIER_REVIEW_THRESHOLD.
    unfold brand_points, price_points in Hf. rewrite Hf, Ht. clear Hf Ht.
    destruct (brand r) as [B|], (explicit_from_to r), (old_size r) as [o|],
      (old_price r) as [p|]; cbn;
      try (exfalso; apply He; reflexivity);
      intuition (discriminate || congruence).
  - destruct (legacy_counter_formula text) as (r & Hr & Hf). exists r.
    split; [exact Hr|].
    assert (Ht : PyStr.truthy (brand r)
                 = match brand r with Some _ => true | None => false end).
    { pose proof (legacy_brand_truthy text r Hr) as [Hb1 Hb2].
      destruct (brand r); [apply Hb2; discriminate|reflexivity]. }
    unfold Leg.confidence_tier, Leg.TIER_AUTO_THRESHOLD, Leg.TIER_REVIEW_THRESHOLD.
    unfold brand_points, price_points in Hf. rewrite Hf, Ht. clear Hf Ht.
    destruct (brand r) as [B|], (explicit_from_to r), (old_size r) as [o|],
      (new_size r) as [n|], (old_price r) as [p|];
      try destruct (PrimFloat.eqb o n) eqn:Eon; cbn;
      try (intuition (discriminate || congruence); fail).
    all: repeat split; try discriminate; try congruence; auto.
    all: try (intros (_ & _ & _ & H); specialize (H _ _ eq_refl eq_refl);
              congruence).
    all: try (intros _ a b [= <-] [= <-]; exact Eon).
    all: intros [H _]; congruence.
Qed.

Section Prices.

Import Re.

(** The steps before the price step leave the prices unset. *)
Lemma public_no_price_before text r1 r2 :
  Pub.explicit_step text (Pub.brand_step text empty_signals) = Some r1 ->
  Pub.implicit_step text r1 = Some r2 ->
  old_price r2 = None /\ new_price r2 = None.
Proof.
  intros H1 H2.
  destruct (public_explicit_step_cases text (Pub.brand_step text empty_signals))
    as [[_ H]|(m & w1 & w3 & _ & _ & _ & [[_ H]|[(_ & _ & H)|(_ & _ & H)]])];
    rewrite H in H1; injection H1 as <-; clear H.
  all: public_brand_cases text.
  all: lazymatch type of H2 with
       | context [set_explicit_from_to] =>
           rewrite public_implicit_step_explicit in H2 by reflexivity;
           injection H2 as <-; fields; auto
       | _ => idtac
       end.
  all: match type of H2 with Pub.implicit_step _ ?r = _ =>
         destruct (public_implicit_step_cases text r eq_refl)
           as [[_ H]|[(? & ? & _ & _ & H)
                     |(? & ? & ? & ? & y1 & y2 & _ & _ & _ & _ & H)]]
       end;
    rewrite H in H2; injection H2 as <-; clear H.
  all: unfold PubTerms.implicit_pair.
  all: float_cases.
  all: fields; auto.
Qed.

Lemma legacy_no_price_before text r1 :
  Leg.size_step text (Leg.brand_step text empty_signals) = Some r1 ->
  old_price r1 = None /\ new_price r1 = None.
Proof.
  intros H1.
  destruct (legacy_size_step_cases text (Leg.brand_step text empty_signals))
    as [(m & w1 & w3 & _ & _ & _ & H)
       |[_ [[_ H]|[(? & ? & _ & _ & H)
                  |(? & ? & ? & ? & y1 & y2 & _ & _ & _ & _ & H)]]]];
    rewrite H in H1; injection H1 as <-; clear H.
  all: legacy_brand_cases text.
  all: unfold LegTerms.explicit_record, LegTerms.implicit_record.
  all: float_cases.
  all: fields; auto.
Qed.

End Prices.

(** X13.  The price step of both extractors: with no price mention no
    price is set; with one, only [new_price]; with two or more, the first
    mention is [old_price] and the last [new_price], in the order of the
    text and without any comparison of the two, and the pair counts as one
    field even when the two prices are equal. *)
Theorem price_step_outcome (text : string) :
  (exists r, Pub.parse_text text = Some r
             /\ price_outcome (Re.findall Pub.PRICE_PATTERN text) r)
  /\ (exists r, Leg.parse_text text = Some r
                /\ price_outcome (Re.findall Leg.PRICE_PATTERN text) r).
Proof.
  split.
  - destruct (public_parse_text_steps text) as (r1 & r2 & r3 & H1 & H2 & H3 & ->).
    eexists; split; [reflexivity|].
    destruct (public_no_price_before text r1 r2 H1 H2) as [Ho Hn].
    destruct (public_price_step_cases text r2)
      as [[E H]|[(p & v & E & Hv & H)
                |(f & s & o & l & v1 & v2 & E & Hl & Hv1 & Hv2 & H)]];
      rewrite H in H3; injection H3 as <-; rewrite E; unfold Pub.hint_step;
      cbn [price_outcome]; fields.
    + rewrite Ho, Hn. auto.
    + exists v. rewrite Ho. auto.
    + exists l, v1, v2. auto 10.
  - destruct (legacy_parse_text_steps text) as (r1 & r2 & H1 & H2 & ->).
    eexists; split; [reflexivity|].
    destruct (legacy_no_price_before text r1 H1) as [Ho Hn].
    destruct (legacy_price_step_cases text r1)
      as [[E H]|[(p & v & E & Hv & H)
                |(f & s & o & l & v1 & v2 & E & Hl & Hv1 & Hv2 & H)]];
      rewrite H in H2; injection H2 as <-; rewrite E; unfold Leg.hint_step;
      cbn [price_outcome]; fields.
    + rewrite Ho, Hn. auto.
    + exists v. rewrite Ho. auto.
    + exists l, v1, v2. auto 10.
Qed.

(** ** The product hint *)

Section Hints.

Import Re ReShape.

Lemma all_chars_split cls a b :
  all_chars cls (a ++ b) = true ->
  all_chars cls a = true /\ all_chars cls b = true.
Proof.
  induction a as [|c a IH]; [auto|]. rewrite append_cons. simpl.
  intros H. apply andb_prop in H as [-> H]. simpl. auto.
Qed.

(** The characters of a text are those of its parts. *)
Lemma len_append a b : PyStr.len (a ++ b) = (PyStr.len a + PyStr.len b)%nat.
Proof.
  induction a as [|c a IH]; [reflexivity|]. rewrite append_cons.
  cbn [PyStr.len]. destruct (PyStr.is_continuation c); lia.
Qed.

(** A slice to [n] has [n] characters at most. *)
Lemma len_slice_to s : forall n, (PyStr.len (PyStr.slice_to n s) <= n)%nat.
Proof.
  induction s as [|c s IH]; intros n; cbn [PyStr.slice_to PyStr.len]; [lia|].
  destruct (PyStr.is_continuation c) eqn:E.
  - cbn [PyStr.len]. rewrite E. apply IH.
  - destruct n as [|n]; cbn [PyStr.len]; [lia|]. rewrite E.
    specialize (IH n). lia.
Qed.

Lemma slice_to_prefix s : forall n, exists t, s = PyStr.slice_to n s ++ t.
Proof.
  induction s as [|c s IH]; intros n; [exists ""; reflexivity|].
  cbn [PyStr.slice_to]. destruct (PyStr.is_continuation c).
  - destruct (IH n) as [t Ht]. exists t. rewrite append_cons. congruence.
  - destruct n as [|n]; [exists (String c s); reflexivity|].
    destruct (IH n) as [t Ht]. exists t. rewrite append_cons. congruence.
Qed.

(** On text without continuation bytes, ASCII text for one, characters
    are bytes. *)
Lemma len_bytes s :
  all_chars (fun c => negb (PyStr.is_continuation c)) s = true ->
  PyStr.len s = String.length s.
Proof.
  induction s as [|c s IH]; [reflexivity|]. cbn [all_chars PyStr.len].
  intros H. apply andb_prop in H as [Hc H]. apply negb_true_iff in Hc.
  rewrite Hc. cbn [String.length]. now rewrite IH.
Qed.

Lemma first_line_prefix s : exists t, s = PyStr.first_line s ++ t.
Proof.
  induction s as [|c s [t IH]]; simpl; [exists ""; reflexivity|].
  destruct (PyStr.code c =? 10)%nat; [eauto|].
  exists t. rewrite append_cons. congruence.
Qed.

Lemma first_line_one_line s :
  all_chars (fun c => negb (PyStr.code c =? 10)%nat) (PyStr.first_line s) = true.
Proof.
  induction s as [|c s IH]; simpl; [reflexivity|].
  destruct (PyStr.code c =? 10)%nat eqn:E; simpl; [reflexivity|].
  now rewrite E.
Qed.

Lemma drop_while_suffix p s : exists w, s = w ++ PyStr.drop_while p s.
Proof.
  induction s as [|c s [w IH]]; simpl; [exists ""; reflexivity|].
  destruct (p c); [|exists ""; reflexivity].
  exists (String c w). rewrite append_cons. congruence.
Qed.

(** What [re.sub] leaves of a string is an end of it. *)
Lemma sub_prefix_suffix p s : exists w, s = w ++ sub_prefix p s.
Proof.
  unfold sub_prefix, match_here.
  destruct (run (ignorecase p) (expr p) (mkCursor None 0 s) []
                (fun c g => Some (g, c))) as [[g c]|] eqn:E;
    [|exists ""; reflexivity].
  apply run_sound in E as (w & c' & new & Hs & _ & _ & Hk & _).
  injection Hk as _ ->. exists w. exact Hs.
Qed.

Lemma strip_parts s : exists a b, s = a ++ PyStr.strip s ++ b.
Proof.
  unfold PyStr.strip.
  destruct (drop_while_suffix PyStr.is_space s) as [a Ha].
  destruct (drop_while_end_spec PyStr.is_space (PyStr.drop_while PyStr.is_space s))
    as (b & Hb & _).
  exists a, b. rewrite <- Hb. exact Ha.
Qed.

(** A string that does not end in [p] is its own [drop_while_end]. *)
Lemma drop_while_end_fixed p s :
  ends_with p s = false -> PyStr.drop_while_end p s = s.
Proof.
  induction s as [|a s IH]; [reflexivity|].
  destruct s as [|b s'].
  - unfold ends_with. cbn. now intros ->.
  - intros H. cbn [PyStr.drop_while_end] in *. rewrite IH by exact H.
    reflexivity.
Qed.

Lemma drop_while_end_head p c s :
  p c = false ->
  PyStr.drop_while_end p (String c s) = String c (PyStr.drop_while_end p s).
Proof.
  intros H. cbn [PyStr.drop_while_end].
  destruct (PyStr.drop_while_end p s); [now rewrite H|reflexivity].
Qed.

Lemma drop_while_head p s :
  match PyStr.drop_while p s with
  | EmptyString => True
  | String c _ => p c = false
  end.
Proof.
  induction s as [|c s IH]; simpl; [exact I|].
  destruct (p c) eqn:E; [exact IH|exact E].
Qed.

Lemma strip_head s :
  match PyStr.strip s with
  | EmptyString => True
  | String c _ => PyStr.is_space c = false
  end.
Proof.
  unfold PyStr.strip. pose proof (drop_while_head PyStr.is_space s) as H.
  destruct (PyStr.drop_while PyStr.is_space s) as [|c t]; [exact I|].
  rewrite drop_while_end_head by exact H. exact H.
Qed.

Lemma strip_strip s : PyStr.strip (PyStr.strip s) = PyStr.strip s.
Proof.
  pose proof (strip_head s) as Hh.
  assert (He : ends_with PyStr.is_space (PyStr.strip s) = false).
  { unfold PyStr.strip.
    destruct (drop_while_end_spec PyStr.is_space
                (PyStr.drop_while PyStr.is_space s)) as (b & _ & _ & He).
    exact He. }
  unfold PyStr.strip at 1.
  destruct (PyStr.strip s) as [|c t] eqn:E; [reflexivity|].
  cbn [PyStr.drop_while]. rewrite Hh. now apply drop_while_end_fixed.
Qed.

Lemma newline_is_space c : (PyStr.code c =? 10)%nat = true -> PyStr.is_space c = true.
Proof.
  intros H. apply Nat.eqb_eq in H. unfold PyStr.is_space, PyStr.between.
  rewrite H. reflexivity.
Qed.

End Hints.

(** X14.  The product hint is a short single line.  Both extractors
    always set it; it has at most 120 characters (which are as many bytes
    when it holds no continuation byte, as on ASCII text) and no line feed.  In
    reddit_public_scraper it has no white space at either end; in
    reddit_scraper it is the start of the first line of the trimmed text,
    and so begins with no white space. *)
Theorem product_hint_is_short_line (text : string) :
  (exists r h, Pub.parse_text text = Some r /\ product_hint r = Some h
     /\ (PyStr.len h <= 120)%nat
     /\ (ReShape.all_chars (fun c => negb (PyStr.is_continuation c)) h = true ->
         (String.length h <= 120)%nat)
     /\ ReShape.all_chars (fun c => negb (PyStr.code c =? 10)%nat) h = true
     /\ PyStr.strip h = h)
  /\ (exists r h, Leg.parse_text text = Some r /\ product_hint r = Some h
        /\ (PyStr.len h <= 120)%nat
        /\ (ReShape.all_chars (fun c => negb (PyStr.is_continuation c)) h = true ->
            (String.length h <= 120)%nat)
        /\ ReShape.all_chars (fun c => negb (PyStr.code c =? 10)%nat) h = true
        /\ PyStr.drop_while PyStr.is_space h = h).
Proof.
  split.
  - destruct (public_parse_text_steps text) as (r1 & r2 & r3 & _ & _ & _ & ->).
    eexists _, _. split; [reflexivity|]. unfold Pub.hint_step.
    split; [reflexivity|].
    set (line := PyStr.slice_to 120 (PyStr.first_line (PyStr.strip text))).
    set (cut := Re.sub_prefix Pub.DISCUSSION_PREFIX
                  (Re.sub_prefix Pub.META_PREFIX line)).
    assert (Hparts : exists a b, line = a ++ PyStr.strip cut ++ b).
    { destruct (sub_prefix_suffix Pub.META_PREFIX line) as [w1 H1].
      destruct (sub_prefix_suffix Pub.DISCUSSION_PREFIX
                  (Re.sub_prefix Pub.META_PREFIX line)) as [w2 H2].
      destruct (strip_parts cut) as (a & b & Hc).
      exists (w1 ++ w2 ++ a), b. rewrite !append_assoc, <- Hc.
      fold cut in H2. rewrite <- H2. exact H1. }
    destruct Hparts as (a & b & Hl).
    assert (Hlen : (PyStr.len (PyStr.strip cut) <= 120)%nat).
    { pose proof (len_slice_to (PyStr.first_line (PyStr.strip text)) 120) as Hn.
      fold line in Hn. rewrite Hl, !len_append in Hn. lia. }
    split; [exact Hlen|]. split; [intros Hb; now rewrite <- len_bytes|].
    split; [|apply strip_strip].
    + assert (Hone : ReShape.all_chars
                       (fun c => negb (PyStr.code c =? 10)%nat) line = true).
      { destruct (slice_to_prefix (PyStr.first_line (PyStr.strip text)) 120)
          as [t Ht].
        pose proof (first_line_one_line (PyStr.strip text)) as H1.
        rewrite Ht in H1. apply all_chars_split in H1 as [H1 _]. exact H1. }
      rewrite Hl in Hone. apply all_chars_split in Hone as [_ Hone].
      apply all_chars_split in Hone as [Hone _]. exact Hone.
  - destruct (legacy_parse_text_steps text) as (r1 & r2 & _ & _ & ->).
    eexists _, _. split; [reflexivity|]. unfold Leg.hint_step.
    split; [reflexivity|]. split; [apply len_slice_to|].
    split; [intros Hb; rewrite <- len_bytes by exact Hb; apply len_slice_to|].
    split.
    + destruct (slice_to_prefix (PyStr.first_line (PyStr.strip text)) 120) as [t Ht].
      pose proof (first_line_one_line (PyStr.strip text)) as H1.
      rewrite Ht in H1. apply all_chars_split in H1 as [H1 _]. exact H1.
    + pose proof (strip_head text) as Hh.
      destruct (PyStr.strip text) as [|c t]; [reflexivity|].
      cbn [PyStr.first_line].
      destruct (PyStr.code c =? 10)%nat eqn:E.
      * apply newline_is_space in E. congruence.
      * cbn [PyStr.slice_to].
        destruct (PyStr.is_continuation c); cbn [PyStr.drop_while];
          now rewrite Hh.
Qed.

(** A line of 121 arrows, of three bytes each: the hint keeps 120 of them,
    which are 360 bytes. *)
Lemma product_hint_is_short_line_witness :
  exists r h,
    Pub.parse_text "→→→→→→→→→→→→→→→→→→→→→→→→→→→→→→→→→→→→→→→→→→→→→→→→→→→→→→→→→→→→→→→→→→→→→→→→→→→→→→→→→→→→→→→→→→→→→→→→→→→→→→→→→→→→→→→→→→→→→→→→→" = Some r
    /\ product_hint r = Some h
    /\ (PyStr.len h <= 120)%nat
    /\ String.length h = 360%nat.
Proof.
  destruct (proj1 (product_hint_is_short_line "→→→→→→→→→→→→→→→→→→→→→→→→→→→→→→→→→→→→→→→→→→→→→→→→→→→→→→→→→→→→→→→→→→→→→→→→→→→→→→→→→→→→→→→→→→→→→→→→→→→→→→→→→→→→→→→→→→→→→→→→→"))
    as (r & h & Hp & Hh & Hlen & _).
  exists r, h. split; [exact Hp|]. split; [exact Hh|]. split; [exact Hlen|].
  assert (Hv : (r' ← Pub.parse_text "→→→→→→→→→→→→→→→→→→→→→→→→→→→→→→→→→→→→→→→→→→→→→→→→→→→→→→→→→→→→→→→→→→→→→→→→→→→→→→→→→→→→→→→→→→→→→→→→→→→→→→→→→→→→→→→→→→→→→→→→→";
                h' ← product_hint r'; Some (String.length h'))
               = Some 360%nat)
    by (vm_compute; reflexivity).
  rewrite Hp in Hv. cbn [mbind option_bind] in Hv. rewrite Hh in Hv.
  cbn [mbind option_bind] in Hv. now injection Hv.
Defined.

(** ** The category guesser *)

Section Categories.

Import Re RedditPublicScraper PubRun.

Lemma lit_anchored_run w (before : option ascii) (taken : nat) (s : string)
      (k : cursor -> option (groups * cursor)) :
  (forall c', is_Some (k c')) ->
  (is_Some (lit false w before taken s k) <-> PyStr.starts_with w s = true).
Proof.
  intros Hk. revert before taken s.
  induction w as [|a w IH]; intros before taken s; cbn [lit PyStr.starts_with].
  - split; [reflexivity|]. intros _. apply Hk.
  - destruct s as [|b s].
    + split; [intros [? [=]]|discriminate].
    + unfold same_char. destruct (PyStr.eq_char a b); cbn [andb].
      * apply IH.
      * split; [intros [? [=]]|discriminate].
Qed.

Lemma lit_anchored w : anchored (Lit w) w.
Proof.
  intros c g k Hk. cbn [run]. apply lit_anchored_run. intros c'. apply Hk.
Qed.

Lemma plural_anchored w : anchored (plural w) w.
Proof.
  intros c g k Hk. unfold plural. cbn [run]. apply lit_anchored_run.
  intros c'. destruct (lit false "s" _ _ _ _); [eauto|apply Hk].
Qed.

Lemma alt_anchored rs ws (c : cursor) (g : groups)
      (k : cursor -> groups -> option (groups * cursor)) :
  Forall2 anchored rs ws ->
  (forall c' g', is_Some (k c' g')) ->
  (is_Some (run false (alt rs) c g k)
   <-> existsb (fun w => PyStr.starts_with w (rest c)) ws = true).
Proof.
  intros HF Hk. induction HF as [|r w rs ws Hr HF IH].
  - cbn. destruct (rest c); cbn; split; (intros [? [=]] || discriminate).
  - cbn [existsb]. rewrite orb_true_iff, <- IH, <- (Hr c g k Hk).
    destruct rs as [|r2 rs].
    + apply Forall2_nil_inv_l in HF as ->. cbn [alt existsb] in *.
      split; [auto|]. intros [H|H]; [exact H|]. apply IH in H. discriminate.
    + change (alt (r :: r2 :: rs)) with (Alt r (alt (r2 :: rs))). cbn [run].
      destruct (run false r c g k) as [x|]; [split; eauto|].
      split; [auto|]. intros [[? [=]]|H]; exact H.
Qed.

Lemma search_from_words rs ws :
  Forall2 anchored rs ws ->
  forall s prev,
    is_Some (search_from (compile (alt rs) false) prev s)
    <-> existsb (fun w => PyStr.contains w s) ws = true.
Proof.
  intros HF.
  assert (Hhere : forall s prev,
             is_Some (match_here (compile (alt rs) false) prev s)
             <-> existsb (fun w => PyStr.starts_with w s) ws = true).
  { intros s prev. unfold match_here. cbn [ignorecase expr].
    rewrite (alt_anchored rs ws _ _ _ HF); [reflexivity|eauto]. }
  assert (Hor : forall c s,
             existsb (fun w => PyStr.contains w (String c s)) ws
             = existsb (fun w => PyStr.starts_with w (String c s)) ws
               || existsb (fun w => PyStr.contains w s) ws).
  { intros c s. clear. induction ws as [|w ws IH]; [reflexivity|].
    cbn [existsb]. rewrite IH.
    change (PyStr.contains w (String c s))
      with (PyStr.starts_with w (String c s) || PyStr.contains w s).
    destruct (PyStr.starts_with w (String c s)), (PyStr.contains w s); cbn;
      rewrite ?orb_true_r; reflexivity. }
  induction s as [|c s IH]; intros prev.
  - cbn [search_from]. specialize (Hhere "" prev).
    assert (Heq : existsb (fun w => PyStr.contains w "") ws
                  = existsb (fun w => PyStr.starts_with w "") ws).
    { clear. induction ws as [|w ws IH]; [reflexivity|].
      cbn [existsb]. rewrite IH.
      change (PyStr.contains w "") with (PyStr.starts_with w "" || false).
      now rewrite orb_false_r. }
    rewrite Heq, <- Hhere.
    destruct (match_here (compile (alt rs) false) prev ""); reflexivity.
  - rewrite Hor, orb_true_iff, <- (Hhere (String c s) prev), <- (IH (Some c)).
    cbn [search_from].
    destruct (match_here (compile (alt rs) false) prev (String c s)) as [m|].
    + split; eauto.
    + split; [auto|]. intros [[? [=]]|H]; exact H.
Qed.

Lemma mentions_words rs ws t :
  Forall2 anchored rs ws ->
  mentions rs t = existsb (fun w => PyStr.contains w t) ws.
Proof.
  intros HF. unfold mentions, search.
  pose proof (search_from_words rs ws HF t None) as H.
  destruct (existsb (fun w => PyStr.contains w t) ws).
  - apply bool_decide_eq_true_2. apply fmap_is_Some. now apply H.
  - apply bool_decide_eq_false_2. intros Hs. apply fmap_is_Some in Hs.
    apply H in Hs. discriminate.
Qed.

Lemma guess_category_words text :
  guess_category text = category_by_words category_words (PyStr.lower text).
Proof.
  unfold guess_category, category_words. cbn [category_by_words].
  repeat (erewrite mentions_words
            by (repeat first [apply Forall2_nil_2
                             |apply Forall2_cons_2
                             |apply lit_anchored
                             |apply plural_anchored])).
  reflexivity.
Qed.

(** A text that holds [a ++ b] holds [b]. *)
Lemma contains_tail a b : forall t,
  PyStr.contains (a ++ b) t = true -> PyStr.contains b t = true.
Proof.
  assert (Hs : forall a t, PyStr.starts_with (a ++ b) t = true ->
                           PyStr.contains b t = true).
  { clear. induction a as [|x a IH]; intros t H.
    - rewrite append_nil in H. destruct t; cbn [PyStr.contains];
        now rewrite H.
    - rewrite append_cons in H. destruct t as [|y t]; [discriminate|].
      cbn [PyStr.starts_with] in H. apply andb_prop in H as [_ H].
      apply IH in H. cbn [PyStr.contains]. rewrite H. apply orb_true_r. }
  induction t as [|y t IH]; cbn [PyStr.contains]; intros H.
  - rewrite orb_false_r in H. apply Hs in H. exact H.
  - apply orb_prop in H as [H|H]; [now apply Hs in H|].
    apply IH in H. cbn [PyStr.contains] in *. rewrite H. apply orb_true_r.
Qed.

End Categories.

(** X15.  [guess_category] reads its eleven patterns as lists of words:
    the category is that of the first pattern, in the order written, one
    of whose words occurs anywhere in the lower-cased text, and "Other"
    when no word of any pattern occurs. *)
Theorem guess_category_by_words (text : string) :
  Pub.guess_category text
  = PubRun.category_by_words PubRun.category_words (PyStr.lower text).
Proof. apply guess_category_words. Qed.

(** X16.  Two words of [guess_category] never decide.  A text that holds
    "milk" is a beverage, so the "milk" of the dairy pattern is never
    reached; and a text that holds "peanut butter" holds "butter", so it
    gets the category of the dairy pattern or of an earlier one, never
    "Spreads". *)
Theorem category_shadowing (text : string) :
  (PyStr.contains "milk" (PyStr.lower text) = true ->
   Pub.guess_category text = "Beverages")
  /\ (PyStr.contains "peanut butter" (PyStr.lower text) = true ->
      Pub.guess_category text <> "Spreads").
Proof.
  rewrite guess_category_words. unfold PubRun.category_words.
  cbn [PubRun.category_by_words]. split; intros H.
  - match goal with
    | |- context [existsb ?f ("juice" :: ?l)] =>
        assert (Hrow : existsb f ("juice" :: l) = true)
    end.
    { apply existsb_exists. exists "milk". split; [|exact H].
      cbn [In]. tauto. }
    now rewrite Hrow.
  - apply (contains_tail "peanut " "butter") in H.
    match goal with
    | |- context [existsb ?f ("yogurt" :: ?l)] =>
        assert (Hrow : existsb f ("yogurt" :: l) = true)
    end.
    { apply existsb_exists. exists "butter". split; [|exact H].
      cbn [In]. tauto. }
    rewrite Hrow.
    repeat match goal with
           | |- context [if existsb ?f ?l then _ else _] =>
               destruct (existsb f l)
           end; discriminate.
Qed.

Lemma category_shadowing_witness :
  PyStr.contains "milk" (PyStr.lower "Almond Milk, now 52 oz") = true
  /\ Pub.guess_category "Almond Milk, now 52 oz" = "Beverages"
  /\ PyStr.contains "peanut butter" (PyStr.lower "Jif Peanut Butter 16oz") = true
  /\ Pub.guess_category "Jif Peanut Butter 16oz" <> "Spreads".
Proof.
  assert (H1 : PyStr.contains "milk" (PyStr.lower "Almond Milk, now 52 oz") = true)
    by (vm_compute; reflexivity).
  assert (H2 : PyStr.contains "peanut butter"
                 (PyStr.lower "Jif Peanut Butter 16oz") = true)
    by (vm_compute; reflexivity).
  split; [exact H1|]. split; [|split; [exact H2|]].
  - exact (proj1 (category_shadowing "Almond Milk, now 52 oz") H1).
  - exact (proj2 (category_shadowing "Jif Peanut Butter 16oz") H2).
Defined.

(** ** [run_recent]: one post per id *)

Section UniquePosts.

Import RedditPublicScraper.

Lemma unique_loop_app : forall l seen acc,
  unique_loop l seen acc = (acc ++ unique_loop l seen [])%list.
Proof.
  induction l as [|p l IH]; intros seen acc; cbn [unique_loop].
  - now rewrite app_nil_r.
  - destruct (PyStr.truthy (post_id p) && _).
    + rewrite IH, (IH _ ([] ++ [p])%list), app_nil_l, app_assoc. reflexivity.
    + apply IH.
Qed.

(** The posts kept from [l] when the ids of [seen] were met before. *)
Lemma unique_loop_spec : forall l seen,
  let kept := unique_loop l seen [] in
  NoDup (post_id <$> kept)
  /\ kept `sublist_of` l
  /\ (forall q, q ∈ kept ->
        exists i before after,
          post_id q = Some i /\ i <> EmptyString /\ (i ∉ seen)
          /\ l = (before ++ q :: after)%list
          /\ Forall (fun p => post_id p <> Some i) before)
  /\ (forall p i, p ∈ l -> post_id p = Some i -> i <> EmptyString -> i ∉ seen ->
        exists q, q ∈ kept /\ post_id q = Some i).
Proof.
  induction l as [|p l IH]; intros seen; cbn zeta.
  - cbn. split; [constructor|]. split; [constructor|].
    split; [intros q Hq; inversion Hq|intros p i Hp; inversion Hp].
  - cbn [unique_loop].
    destruct (PyStr.truthy (post_id p)
              && negb (bool_decide (default EmptyString (post_id p) ∈ seen)))
      eqn:Hc.
    + (* the post is kept *)
      apply andb_prop in Hc as [Ht Hs]. apply negb_true_iff in Hs.
      apply bool_decide_eq_false in Hs.
      destruct (post_id p) as [i|] eqn:Hid; [|discriminate].
      assert (Hne : i <> EmptyString) by (destruct i; [discriminate|congruence]).
      cbn [default] in *.
      rewrite unique_loop_app, app_nil_l. cbn [app].
      destruct (IH ({[i]} ∪ seen)) as (Hnd & Hsub & Hkept & Hall).
      split; [|split; [|split]].
      * rewrite fmap_cons. constructor; [|exact Hnd].
        rewrite list_elem_of_fmap. intros (q & Hq & Hin).
        destruct (Hkept q Hin) as (j & _ & _ & Hj & _ & Hout & _).
        rewrite Hid in Hq. rewrite Hj in Hq. injection Hq as <-.
        apply Hout, elem_of_union_l, elem_of_singleton. reflexivity.
      * now apply sublist_skip.
      * intros q Hq. apply elem_of_cons in Hq as [->|Hq].
        -- exists i, [], l. repeat split; auto.
        -- destruct (Hkept q Hq)
             as (j & before & after & H1 & H2 & H3 & -> & H5).
           exists j, (p :: before), after. repeat split; auto.
           ++ intros Hj. apply H3, elem_of_union_r, Hj.
           ++ constructor; [|exact H5]. rewrite Hid. intros [= ->].
              apply H3, elem_of_union_l, elem_of_singleton. reflexivity.
      * intros p' j Hp' Hj Hnej Hout.
        destruct (decide (j = i)) as [->|Hji].
        { exists p. split; [left|exact Hid]. }
        apply elem_of_cons in Hp' as [->|Hp']; [congruence|].
        destruct (Hall p' j Hp' Hj Hnej) as (q & Hq & Hqj).
        { intros Hin. apply elem_of_union in Hin as [Hin|Hin]; [|contradiction].
          apply elem_of_singleton in Hin. contradiction. }
        exists q. split; [now right|exact Hqj].
    + (* the post is dropped *)
      assert (Hdrop : forall i, post_id p = Some i -> i <> EmptyString -> i ∈ seen).
      { intros i Hid Hne. rewrite Hid in Hc. cbn [default] in Hc.
        destruct i; [congruence|]. cbn in Hc.
        apply negb_false_iff, bool_decide_eq_true in Hc. exact Hc. }
      destruct (IH seen) as (Hnd & Hsub & Hkept & Hall).
      split; [exact Hnd|]. split; [now apply sublist_cons|]. split.
      * intros q Hq. destruct (Hkept q Hq)
          as (j & before & after & H1 & H2 & H3 & -> & H5).
        exists j, (p :: before), after.
        repeat split; auto;
          try (constructor; [|exact H5]; intros Hj; apply H3; now apply Hdrop).
      * intros p' j Hp' Hj Hnej Hout.
        apply elem_of_cons in Hp' as [->|Hp']; [|eauto].
        exfalso. apply Hout. now apply Hdrop.
Qed.

End UniquePosts.

(** X17.  The id filter of [run_recent]: of the posts fetched from the
    listings it keeps, in order, the first post of each [id]; no two posts
    kept share an [id]; every [id] fetched is kept once; and a post whose
    [id] is missing or empty is dropped. *)
Theorem unique_posts_first_of_each_id (all_posts : list Pub.Post) :
  NoDup (Pub.post_id <$> Pub.unique_posts all_posts)
  /\ Pub.unique_posts all_posts `sublist_of` all_posts
  /\ (forall q, q ∈ Pub.unique_posts all_posts ->
        exists i before after,
          Pub.post_id q = Some i /\ i <> EmptyString
          /\ all_posts = (before ++ q :: after)%list
          /\ Forall (fun p => Pub.post_id p <> Some i) before)
  /\ (forall p i, p ∈ all_posts -> Pub.post_id p = Some i -> i <> EmptyString ->
        exists q, q ∈ Pub.unique_posts all_posts /\ Pub.post_id q = Some i).
Proof.
  destruct (unique_loop_spec all_posts ∅) as (Hnd & Hsub & Hkept & Hall).
  split; [exact Hnd|]. split; [exact Hsub|]. split.
  - intros q Hq. destruct (Hkept q Hq)
      as (i & before & after & H1 & H2 & _ & H4 & H5).
    exists i, before, after. auto.
  - intros p i Hp Hi Hne. apply (Hall p i Hp Hi Hne). apply not_elem_of_empty.
Qed.

(** ** The registry file *)

Section RegistryFile.

Import PyLines.

Lemma le_total : Total le.
Proof. intros a b. unfold le. apply String.leb_total. Qed.

Lemma printable_no_break c :
  is_printable c = true ->
  is_line_break c = false /\ (PyStr.code c =? 10)%nat = false.
Proof.
  unfold is_printable, is_line_break, PyStr.between. intros H.
  apply andb_prop in H as [H1 H2]. apply Nat.leb_le in H1.
  split.
  - apply orb_false_iff. split; apply andb_false_iff; right;
      apply Nat.leb_gt; lia.
  - apply Nat.eqb_neq. lia.
Qed.

(** The characters of a line without boundary are gathered. *)
Lemma splitlines_gather : forall w line rest,
  printable w = true ->
  splitlines_from false line (w ++ rest) = splitlines_from false (line ++ w) rest.
Proof.
  induction w as [|c w IH]; intros line rest H.
  - now rewrite append_nil, append_empty_r.
  - cbn [printable] in H. apply andb_prop in H as [Hc Hw].
    destruct (printable_no_break c Hc) as [Hb _].
    rewrite append_cons. cbn [splitlines_from andb]. rewrite Hb.
    rewrite IH by exact Hw. f_equal.
    rewrite append_assoc, append_cons, append_nil. reflexivity.
Qed.

Lemma splitlines_boundary line rest :
  splitlines_from false line (Pub.newline ++ rest)
  = line :: splitlines_from false EmptyString rest.
Proof. reflexivity. Qed.

Lemma splitlines_join : forall lines,
  Forall (fun u => printable u = true) lines ->
  last lines <> Some EmptyString ->
  splitlines (join Pub.newline lines) = lines.
Proof.
  unfold splitlines.
  induction lines as [|x [|y lines] IH]; intros Hp Hl.
  - reflexivity.
  - cbn [join]. apply Forall_cons in Hp as [Hx _].
    rewrite <- (append_empty_r x) at 1.
    rewrite splitlines_gather, append_nil by exact Hx. cbn.
    destruct x; [exfalso; apply Hl; reflexivity|reflexivity].
  - change (join Pub.newline (x :: y :: lines))
      with (x ++ Pub.newline ++ join Pub.newline (y :: lines)).
    apply Forall_cons in Hp as [Hx Hp].
    rewrite splitlines_gather, append_nil, splitlines_boundary by exact Hx.
    f_equal. apply IH; [exact Hp|exact Hl].
Qed.

(** In a sorted list that ends with the empty string every string is
    empty. *)
Lemma sorted_last_empty lines :
  Sorted le lines -> last lines = Some EmptyString ->
  Forall (fun u => u = EmptyString) lines.
Proof.
  induction 1 as [|x lines Hs IH Hhd]; [constructor|]. intros Hl.
  destruct lines as [|y lines].
  - injection Hl as ->. repeat constructor.
  - specialize (IH Hl). constructor; [|exact IH].
    apply Forall_cons in IH as [-> _]. inversion Hhd as [|? ? Hle]; subst.
    unfold le in Hle. destruct x; [reflexivity|discriminate].
Qed.

Lemma all_empty_nodup (lines : list string) :
  NoDup lines -> Forall (fun u => u = EmptyString) lines ->
  lines = [] \/ lines = [EmptyString].
Proof.
  intros Hnd Hall. destruct lines as [|x [|y lines]]; [auto|..].
  - apply Forall_cons in Hall as [-> _]. auto.
  - apply Forall_cons in Hall as [-> Hall]. apply Forall_cons in Hall as [-> _].
    apply NoDup_cons in Hnd as [Hnd _]. exfalso. apply Hnd. left.
Qed.

Lemma registry_round_trip (urls : gset string) :
  (forall u, u ∈ urls -> printable u = true) ->
  Pub.load_known_urls (Some (Pub.save_known_urls urls))
  = (if decide (urls = {[EmptyString]}) then ∅ else urls).
Proof.
  intros Hp. unfold Pub.load_known_urls, Pub.save_known_urls.
  destruct (decide (urls = {[EmptyString]})) as [->|Hne].
  - rewrite elements_singleton. reflexivity.
  - assert (Hperm : sorted (elements urls) ≡ₚ elements urls)
      by apply merge_sort_Permutation.
    rewrite splitlines_join.
    + rewrite Hperm. apply list_to_set_elements_L.
    + apply Forall_forall. intros u Hu. apply Hp.
      rewrite Hperm in Hu. now apply elem_of_elements.
    + intros Hl. apply Hne.
      pose proof (sorted_last_empty _
                    (Sorted_merge_sort le (Total0 := le_total) (elements urls)) Hl)
        as Hall.
      apply all_empty_nodup in Hall.
      2: { unfold sorted in Hperm. rewrite Hperm. apply NoDup_elements. }
      fold (sorted (elements urls)) in Hall.
      destruct Hall as [Hall|Hall]; rewrite Hall in Hl; [discriminate|].
      rewrite <- (list_to_set_elements_L urls), <- Hperm, Hall.
      apply set_eq. intros u. rewrite elem_of_list_to_set, list_elem_of_singleton,
        elem_of_singleton. reflexivity.
Qed.

End RegistryFile.

(** X18.  The registry file round trip: what [save_known_urls] writes,
    [load_known_urls] reads back as the same set, for urls of printable
    ASCII characters (so none holds a line boundary), with one exception:
    the registry that holds only the empty url is written as an empty file
    and read back empty. *)
Theorem known_urls_round_trip (urls : gset string) :
  (forall u, u ∈ urls -> PyLines.printable u = true) ->
  Pub.load_known_urls (Some (Pub.save_known_urls urls))
  = (if decide (urls = {[EmptyString]}) then ∅ else urls).
Proof. apply registry_round_trip. Qed.

Lemma known_urls_round_trip_witness :
  let urls : gset string :=
    {["https://reddit.com/r/shrinkflation/comments/1r5xyz/tide/";
      "https://reddit.com/r/shrinkflation/comments/1r5abc/tropicana/"]} in
  (forall u, u ∈ urls -> PyLines.printable u = true)
  /\ Pub.save_known_urls urls
     = "https://reddit.com/r/shrinkflation/comments/1r5abc/tropicana/"
       ++ Pub.newline
       ++ "https://reddit.com/r/shrinkflation/comments/1r5xyz/tide/"
  /\ Pub.load_known_urls (Some (Pub.save_known_urls urls)) = urls.
Proof.
  intros urls.
  assert (Hp : forall u, u ∈ urls -> PyLines.printable u = true).
  { intros u Hu. apply elem_of_union in Hu as [Hu|Hu];
      apply elem_of_singleton in Hu; subst u; vm_compute; reflexivity. }
  split; [exact Hp|]. split; [vm_compute; reflexivity|].
  rewrite (known_urls_round_trip urls Hp).
  destruct (decide (urls = {[EmptyString]})) as [He|]; [|reflexivity].
  exfalso.
  assert (Hin : "https://reddit.com/r/shrinkflation/comments/1r5xyz/tide/" ∈ urls)
    by (apply elem_of_union_l, elem_of_singleton; reflexivity).
  rewrite He in Hin. apply elem_of_singleton in Hin. discriminate.
Defined.

Section AcrossRuns.

Import RedditPublicScraper PubRun.

(** A batch all of whose urls the registry holds: no entry is built, so
    the run returns whatever the clock. *)
Lemma public_known_batch clock known posts :
  (forall p, p ∈ posts -> post_url p ∈ known) ->
  exists stats,
    process_posts clock posts known = Some ([], ∅, stats)
    /\ counter "skipped_dup" stats = Z.of_nat (length posts).
Proof.
  intros Hk.
  destruct (public_process_posts_exact posts known)
    as (stats & Heq & _ & _ & Hc).
  exists stats. rewrite (Heq clock).
  assert (Hs : forall calls, staged_from clock known calls posts = Some ([], calls)
               /\ fresh_posts known posts = []
               /\ count_of (fun p => outcome known p = "skipped_dup") posts
                  = Z.of_nat (length posts)).
  { clear Heq Hc. induction posts as [|p posts IH]; [auto|]. intros calls.
    destruct (IH (fun q Hq => Hk q (list_elem_of_further _ _ _ Hq)) calls)
      as (H1 & H2 & H3).
    assert (Hp : post_url p ∈ known) by (apply Hk; left).
    cbn [staged_from]. unfold fresh_posts in *.
    rewrite filter_cons_False by (intros Hn; apply Hn; exact Hp).
    rewrite count_of_cons, H3, length_cons.
    assert (Hst : to_stage known p = None)
      by (unfold to_stage; now rewrite bool_decide_eq_true_2).
    assert (Ho : outcome known p = "skipped_dup")
      by (unfold outcome; now rewrite bool_decide_eq_true_2).
    rewrite Hst, Ho, H1, bool_decide_eq_true_2 by reflexivity.
    repeat split; auto. lia. }
  destruct (Hs 0%nat) as (-> & -> & Hd). bind. split.
  - rewrite fmap_nil, list_to_set_nil. reflexivity.
  - rewrite Hc by discriminate. exact Hd.
Qed.

End AcrossRuns.

(** X19.  Two runs through the registry file: when the urls of the
    registry and of the batch are printable ASCII, no post of the batch has
    an empty url and the entries of the first run can be built, a later run
    that loads the registry the first run saved finds every post of the
    batch there: whatever its clock, it returns no entry and no new url,
    and counts every post as a duplicate. *)
Theorem later_run_through_file (clock clock' : Pub.Clock)
        (posts : list Pub.Post) (known : gset string) :
  (forall u, u ∈ known -> PyLines.printable u = true) ->
  (forall p, p ∈ posts ->
             PyLines.printable (Pub.post_url p) = true
             /\ Pub.post_url p <> EmptyString) ->
  PubRun.timestamps_in_range clock known posts ->
  exists entries new_urls stats stats',
    Pub.process_posts clock posts known = Some (entries, new_urls, stats)
    /\ Pub.process_posts clock' posts
         (Pub.load_known_urls
            (Some (Pub.save_known_urls
                     (Pub.updated_known_urls known new_urls))))
       = Some ([], ∅, stats')
    /\ counter "skipped_dup" stats' = Z.of_nat (length posts).
Proof.
  intros Hk Hp Hr.
  destruct (public_process_posts_exact posts known) as (stats & Heq & _).
  specialize (Heq clock).
  apply (public_staged_from_some clock known posts 0) in Hr as [[es n] Hs].
  rewrite Hs in Heq. bind.
  set (new_urls := list_to_set (Pub.post_url <$> PubRun.fresh_posts known posts)
                   : gset string).
  set (registry := Pub.updated_known_urls known new_urls).
  assert (Hin : forall p, p ∈ posts -> Pub.post_url p ∈ registry).
  { intros p Hin. unfold registry, Pub.updated_known_urls.
    destruct (decide (Pub.post_url p ∈ known)); [now apply elem_of_union_l|].
    apply elem_of_union_r. unfold new_urls.
    rewrite elem_of_list_to_set, list_elem_of_fmap. exists p.
    split; [reflexivity|]. apply list_elem_of_filter. auto. }
  assert (Hprint : forall u, u ∈ registry -> PyLines.printable u = true).
  { intros u Hu. unfold registry, Pub.updated_known_urls in Hu.
    apply elem_of_union in Hu as [Hu|Hu]; [auto|]. unfold new_urls in Hu.
    rewrite elem_of_list_to_set, list_elem_of_fmap in Hu.
    destruct Hu as (p & -> & Hu). apply list_elem_of_filter in Hu as [_ Hu].
    now apply Hp. }
  assert (Hlater : exists stats',
             Pub.process_posts clock' posts
               (Pub.load_known_urls (Some (Pub.save_known_urls registry)))
             = Some ([], ∅, stats')
             /\ counter "skipped_dup" stats' = Z.of_nat (length posts)).
  { rewrite (registry_round_trip registry Hprint).
    destruct posts as [|p posts].
    - eexists. split; reflexivity.
    - destruct (decide (registry = {[EmptyString]})) as [He|_].
      { exfalso. assert (Hu : Pub.post_url p ∈ registry) by (apply Hin; left).
        rewrite He in Hu. apply elem_of_singleton in Hu.
        destruct (Hp p) as [_ Hne]; [left|]. contradiction. }
      apply (public_known_batch clock' registry (p :: posts) Hin). }
  destruct Hlater as (stats' & Hrun & Hdup).
  exists es, new_urls, stats, stats'. split; [exact Heq|].
  split; assumption.
Qed.

Lemma later_run_through_file_witness :
  (forall u : string, u ∈ (∅ : gset string) -> PyLines.printable u = true)
  /\ (forall p, p ∈ [Examples.tropicana_post] ->
                PyLines.printable (Pub.post_url p) = true
                /\ Pub.post_url p <> EmptyString)
  /\ PubRun.timestamps_in_range Examples.clock ∅ [Examples.tropicana_post]
  /\ exists entries new_urls stats stats',
       Pub.process_posts Examples.clock [Examples.tropicana_post] ∅
       = Some (entries, new_urls, stats)
       /\ Pub.process_posts Examples.clock [Examples.tropicana_post]
            (Pub.load_known_urls
               (Some (Pub.save_known_urls
                        (Pub.updated_known_urls ∅ new_urls))))
          = Some ([], ∅, stats')
       /\ counter "skipped_dup" stats' = 1.
Proof.
  assert (H1 : forall u : string, u ∈ (∅ : gset string) ->
                                  PyLines.printable u = true).
  { intros u Hu. apply not_elem_of_empty in Hu. contradiction. }
  assert (H2 : forall p, p ∈ [Examples.tropicana_post] ->
                         PyLines.printable (Pub.post_url p) = true
                         /\ Pub.post_url p <> EmptyString).
  { intros p Hin. apply list_elem_of_singleton in Hin as ->.
    split; [vm_compute; reflexivity|discriminate]. }
  assert (H3 : PubRun.timestamps_in_range Examples.clock ∅
                                          [Examples.tropicana_post])
    by apply example_timestamps_in_range.
  split; [exact H1|]. split; [exact H2|]. split; [exact H3|].
  exact (later_run_through_file Examples.clock Examples.clock
           [Examples.tropicana_post] ∅ H1 H2 H3).
Defined.

(** ** Batches of [upsert_to_supabase] *)

Section Upserts.

Import RedditPublicScraper.

Context {S : Type} (client : Client S).

Lemma batches_from_concat : forall (m : nat) (entries : list StagingEntry),
  (length entries <= 50 * m)%nat ->
  concat ((fun k : nat => take 50 (drop (50 * k) entries)) <$> List.seq 0 m)
  = entries
  /\ Forall (fun b : list StagingEntry => (length b <= 50)%nat)
            ((fun k : nat => take 50 (drop (50 * k) entries)) <$> List.seq 0 m).
Proof.
  induction m as [|m IH]; intros entries Hlen.
  - destruct entries; [split; [reflexivity|constructor]|cbn in Hlen; lia].
  - cbn [List.seq]. rewrite fmap_cons, <- fmap_S_seq, <- list_fmap_compose.
    cbn [concat]. rewrite Nat.mul_0_r, drop_0.
    destruct (IH (drop 50 entries)) as [Hc Hf].
    { rewrite length_drop. lia. }
    assert (Heq : ((fun k : nat => take 50 (drop (50 * k) entries)) ∘ Datatypes.S
                   <$> List.seq 0 m)
                  = ((fun k : nat => take 50 (drop (50 * k) (drop 50 entries)))
                       <$> List.seq 0 m)).
    { apply list_fmap_ext. intros i k _. cbn. rewrite drop_drop.
      do 2 f_equal. lia. }
    rewrite Heq, Hc. split; [apply take_drop|].
    constructor; [|exact Hf]. rewrite length_take. lia.
Qed.

Lemma batches_concat entries :
  concat (batches entries) = entries
  /\ Forall (fun b => (0 < length b <= 50)%nat) (batches entries).
Proof.
  unfold batches.
  set (m := ((length entries + 49) / 50)%nat).
  assert (Hm : (length entries <= 50 * m)%nat).
  { unfold m. pose proof (Nat.div_mod_eq (length entries + 49) 50) as Hd.
    pose proof (Nat.mod_upper_bound (length entries + 49) 50). lia. }
  destruct (batches_from_concat m entries Hm) as [Hc Hf].
  split; [exact Hc|]. apply Forall_forall. intros b Hb.
  rewrite Forall_forall in Hf. split; [|now apply Hf].
  apply list_elem_of_fmap in Hb as (k & -> & Hk).
  apply elem_of_seq in Hk as [_ Hk].
  rewrite length_take, length_drop.
  assert (50 * k < length entries)%nat; [|lia].
  unfold m in Hk. pose proof (Nat.div_mod_eq (length entries + 49) 50) as Hd.
  pose proof (Nat.mod_upper_bound (length entries + 49) 50). lia.
Qed.

Lemma upsert_singles_count : forall batch st n,
  n <= (upsert_singles client batch st n).2 <= n + Z.of_nat (length batch).
Proof.
  induction batch as [|e batch IH]; intros st n; cbn [upsert_singles].
  - cbn. lia.
  - destruct (upsert_entry client st e) as [st' ok].
    specialize (IH st' (if ok then n + 1 else n)). rewrite length_cons.
    destruct ok; lia.
Qed.

Lemma upsert_batches_count : forall todo st n,
  n <= (upsert_batches client todo st n).2
  <= n + Z.of_nat (length (concat todo)).
Proof.
  induction todo as [|batch todo IH]; intros st n; cbn [upsert_batches].
  - cbn. lia.
  - destruct (upsert_batch client st batch) as [st' ok].
    cbn [concat]. rewrite length_app.
    destruct ok.
    + specialize (IH st' (n + Z.of_nat (length batch))). lia.
    + pose proof (upsert_singles_count batch st' n) as Hs.
      destruct (upsert_singles client batch st' n) as [st'' k]. cbn [snd] in Hs.
      specialize (IH st'' k). lia.
Qed.

Lemma upsert_batches_accepted : forall todo st n,
  (forall s b, (upsert_batch client s b).2 = true) ->
  upsert_batches client todo st n
  = (foldl (fun s b => (upsert_batch client s b).1) st todo,
     n + Z.of_nat (length (concat todo))).
Proof.
  intros todo st n Hok. revert st n.
  induction todo as [|batch todo IH]; intros st n; cbn [upsert_batches foldl].
  - cbn. f_equal. lia.
  - specialize (Hok st batch).
    destruct (upsert_batch client st batch) as [st' ok]. cbn [snd fst] in *.
    subst ok. rewrite IH. cbn [concat]. rewrite length_app. f_equal. lia.
Qed.

Lemma upsert_singles_accepted : forall batch st n,
  (forall s e, (upsert_entry client s e).2 = true) ->
  (upsert_singles client batch st n).2 = n + Z.of_nat (length batch).
Proof.
  intros batch st n Hok. revert st n.
  induction batch as [|e batch IH]; intros st n; cbn [upsert_singles].
  - cbn. lia.
  - specialize (Hok st e).
    destruct (upsert_entry client st e) as [st' ok]. cbn [snd] in Hok. subst ok.
    rewrite IH, length_cons. lia.
Qed.

Lemma upsert_batches_singly : forall todo st n,
  (forall s e, (upsert_entry client s e).2 = true) ->
  (upsert_batches client todo st n).2 = n + Z.of_nat (length (concat todo)).
Proof.
  intros todo st n Hok. revert st n.
  induction todo as [|batch todo IH]; intros st n; cbn [upsert_batches].
  - cbn. lia.
  - destruct (upsert_batch client st batch) as [st' ok].
    cbn [concat]. rewrite length_app. destruct ok.
    + rewrite IH. lia.
    + pose proof (upsert_singles_accepted batch st' n Hok) as Hs.
      destruct (upsert_singles client batch st' n) as [st'' k]. cbn [snd] in Hs.
      rewrite IH, Hs. lia.
Qed.

End Upserts.

(** X20.  [upsert_to_supabase] sends every entry once: its batches are
    the entries in order, cut into runs of 1 to 50.  The count it returns
    is never above the number of entries; it is that number when the
    store accepts every batch, the requests being then the batches, one
    after the other, and also when the store accepts every single entry,
    whatever happens to the batches. *)
Theorem upsert_in_batches {S : Type} (client : Pub.Client S)
        (entries : list Pub.StagingEntry) (st : S) :
  concat (Pub.batches entries) = entries
  /\ Forall (fun b => (0 < length b <= 50)%nat) (Pub.batches entries)
  /\ 0 <= (Pub.upsert_to_supabase client entries st).2
     <= Z.of_nat (length entries)
  /\ ((forall s b, (Pub.upsert_batch client s b).2 = true) ->
      Pub.upsert_to_supabase client entries st
      = (foldl (fun s b => (Pub.upsert_batch client s b).1) st
               (Pub.batches entries),
         Z.of_nat (length entries)))
  /\ ((forall s e, (Pub.upsert_entry client s e).2 = true) ->
      (Pub.upsert_to_supabase client entries st).2 = Z.of_nat (length entries)).
Proof.
  destruct (batches_concat entries) as [Hc Hf].
  split; [exact Hc|]. split; [exact Hf|].
  assert (Hrun : Pub.upsert_to_supabase client entries st
                 = Pub.upsert_batches client (Pub.batches entries) st 0).
  { destruct entries; reflexivity. }
  rewrite Hrun. split; [|split].
  - pose proof (upsert_batches_count client (Pub.batches entries) st 0) as H.
    rewrite Hc in H. lia.
  - intros Hok. rewrite upsert_batches_accepted by exact Hok.
    now rewrite Hc.
  - intros Hok. rewrite upsert_batches_singly by exact Hok. now rewrite Hc.
Qed.

Lemma upsert_in_batches_witness :
  let client :=
    Pub.mkClient (list Pub.StagingEntry)
                 (fun s b => ((s ++ b)%list, true))
                 (fun s e => ((s ++ [e])%list, true)) in
  let entries := [Pub.entry Examples.tropicana_row; Pub.entry Examples.tide_row] in
  (forall s b, (Pub.upsert_batch client s b).2 = true)
  /\ Pub.upsert_to_supabase client entries [] = (entries, 2).
Proof.
  intros client entries.
  assert (Hok : forall s b, (Pub.upsert_batch client s b).2 = true)
    by (intros s b; reflexivity).
  split; [exact Hok|].
  destruct (upsert_in_batches client entries []) as (_ & _ & _ & H & _).
  rewrite (H Hok). reflexivity.
Defined.

(** ** Posts of r/shrinkflation *)

(** X21.  The keyword filter of [process_posts] never drops a post of
    r/shrinkflation: when every post of the batch names that subreddit, in
    any letter case, and the entries of the run can be built, no post is
    counted as [no_keyword], and each post the registry does not hold is
    classified auto, review or discard. *)
Theorem shrinkflation_posts_skip_filter (clock : Pub.Clock)
        (posts : list Pub.Post) (known : gset string) :
  (forall p, p ∈ posts ->
     PyStr.lower (default EmptyString (Pub.post_subreddit p)) = "shrinkflation") ->
  PubRun.timestamps_in_range clock known posts ->
  exists entries new_urls stats,
    Pub.process_posts clock posts known = Some (entries, new_urls, stats)
    /\ counter "no_keyword" stats = 0
    /\ counter "auto" stats + counter "review" stats + counter "discard" stats
       = Z.of_nat (length (PubRun.fresh_posts known posts)).
Proof.
  intros Hsub Hr.
  destruct (public_process_posts_exact posts known)
    as (stats & Heq & _ & _ & Hk).
  specialize (Heq clock).
  apply (public_staged_from_some clock known posts 0) in Hr as [[es n] Hs].
  rewrite Hs in Heq. bind. eexists es, _, stats. split; [exact Heq|].
  pose proof (public_outcomes_split known posts) as Hsum.
  clear Heq Hs.
  assert (Hno : count_of (fun p => PubRun.outcome known p = "no_keyword") posts = 0).
  { unfold count_of. clear Hk Hsum.
    induction posts as [|p posts IH]; [reflexivity|].
    rewrite filter_cons_False.
    - apply IH. intros q Hq. apply Hsub. now right.
    - unfold PubRun.outcome. case_bool_decide; [discriminate|].
      unfold Pub.relevant. rewrite (Hsub p) by left. cbn [negb orb String.eqb].
      change (("shrinkflation" =? "shrinkflation")%string) with true.
      cbn [negb orb].
      destruct (public_parse_text_total (Pub.full_text_of p)) as [parsed ->].
      destruct (Pub.confidence_tier parsed); discriminate. }
  split; [rewrite Hk by discriminate; exact Hno|].
  assert (Hdup : count_of (fun p => PubRun.outcome known p = "skipped_dup") posts
                 + Z.of_nat (length (PubRun.fresh_posts known posts))
                 = Z.of_nat (length posts)).
  { clear. unfold PubRun.fresh_posts.
    induction posts as [|p posts IH]; [reflexivity|].
    rewrite count_of_cons, length_cons.
    destruct (decide (Pub.post_url p ∈ known)) as [Hin|Hout].
    - rewrite bool_decide_eq_true_2 by (apply public_outcome_dup; exact Hin).
      rewrite filter_cons_False by (intros Hn; apply Hn; exact Hin). lia.
    - rewrite bool_decide_eq_false_2 by (rewrite public_outcome_dup; exact Hout).
      rewrite filter_cons_True by exact Hout. rewrite length_cons. lia. }
  rewrite !Hk by discriminate. lia.
Qed.

Lemma shrinkflation_posts_skip_filter_witness :
  (forall p, p ∈ [Examples.tropicana_post] ->
     PyStr.lower (default EmptyString (Pub.post_subreddit p)) = "shrinkflation")
  /\ PubRun.timestamps_in_range Examples.clock ∅ [Examples.tropicana_post]
  /\ exists entries new_urls stats,
       Pub.process_posts Examples.clock [Examples.tropicana_post] ∅
       = Some (entries, new_urls, stats)
       /\ counter "no_keyword" stats = 0
       /\ counter "auto" stats + counter "review" stats + counter "discard" stats
          = Z.of_nat (length (PubRun.fresh_posts ∅ [Examples.tropicana_post])).
Proof.
  assert (H : forall p, p ∈ [Examples.tropicana_post] ->
                PyStr.lower (default EmptyString (Pub.post_subreddit p))
                = "shrinkflation").
  { intros p Hin. apply list_elem_of_singleton in Hin as ->. reflexivity. }
  assert (Hr : PubRun.timestamps_in_range Examples.clock ∅
                                          [Examples.tropicana_post])
    by apply example_timestamps_in_range.
  split; [exact H|]. split; [exact Hr|].
  exact (shrinkflation_posts_skip_filter Examples.clock
           [Examples.tropicana_post] ∅ H Hr).
Defined.

(** ** The shape of an extracted record *)

Section RecordShape.

Import Re.

Ltac pairs :=
  unfold paired; fields;
  repeat split; intros; eauto;
  try match goal with H : is_Some None |- _ => destruct H as [? [=]] end;
  try discriminate.

Lemma public_paired text : exists r, Pub.parse_text text = Some r /\ paired r.
Proof.
  destruct (public_parse_text_steps text) as (r1 & r2 & r3 & H1 & H2 & H3 & ->).
  eexists; split; [reflexivity|].
  public_price_cases text H3.
  all: destruct (public_explicit_step_cases text (Pub.brand_step text empty_signals))
      as [[_ H]|(m & w1 & w3 & _ & _ & _ & [[_ H]|[(_ & _ & H)|(_ & _ & H)]])];
    rewrite H in H1; injection H1 as <-; clear H.
  all: public_brand_cases text.
  all: lazymatch type of H2 with
       | context [set_explicit_from_to] =>
           rewrite public_implicit_step_explicit in H2 by reflexivity;
           injection H2 as <-; unfold Pub.hint_step; pairs
       | _ => idtac
       end.
  all: match type of H2 with Pub.implicit_step _ ?r = _ =>
         destruct (public_implicit_step_cases text r eq_refl)
           as [[_ H]|[(? & ? & _ & _ & H)
                     |(? & ? & ? & ? & y1 & y2 & _ & _ & _ & _ & H)]]
       end;
    rewrite H in H2; injection H2 as <-; clear H.
  all: unfold PubTerms.implicit_pair, Pub.hint_step.
  all: float_cases.
  all: pairs.
Qed.

Lemma legacy_paired text : exists r, Leg.parse_text text = Some r /\ paired r.
Proof.
  destruct (legacy_parse_text_steps text) as (r1 & r2 & H1 & H2 & ->).
  eexists; split; [reflexivity|].
  legacy_price_cases text H2.
  all: destruct (legacy_size_step_cases text (Leg.brand_step text empty_signals))
      as [(m & w1 & w3 & _ & _ & _ & H)
         |[_ [[_ H]|[(? & ? & _ & _ & H)
                    |(? & ? & ? & ? & y1 & y2 & _ & _ & _ & _ & H)]]]];
    rewrite H in H1; injection H1 as <-; clear H.
  all: legacy_brand_cases text.
  all: unfold LegTerms.explicit_record, LegTerms.implicit_record, Leg.hint_step.
  all: float_cases.
  all: pairs.
Qed.

End RecordShape.

(** X22.  The fields of an extracted record come in pairs, in both
    extractors: a size is set exactly when its unit is, an old size only
    beside a new size, an old price only beside a new price, and a record
    flagged as an explicit change has its sizes. *)
Theorem extracted_fields_paired (text : string) :
  (exists r, Pub.parse_text text = Some r
     /\ (is_Some (old_size r) <-> is_Some (old_unit r))
     /\ (is_Some (new_size r) <-> is_Some (new_unit r))
     /\ (is_Some (old_size r) -> is_Some (new_size r))
     /\ (is_Some (old_price r) -> is_Some (new_price r))
     /\ (explicit_from_to r = true -> is_Some (old_size r)))
  /\ (exists r, Leg.parse_text text = Some r
        /\ (is_Some (old_size r) <-> is_Some (old_unit r))
        /\ (is_Some (new_size r) <-> is_Some (new_unit r))
        /\ (is_Some (old_size r) -> is_Some (new_size r))
        /\ (is_Some (old_price r) -> is_Some (new_price r))
        /\ (explicit_from_to r = true -> is_Some (old_size r))).
Proof.
  split.
  - destruct (public_paired text) as (r & Hr & Hp). exists r. split; assumption.
  - destruct (legacy_paired text) as (r & Hr & Hp). exists r. split; assumption.
Qed.

(** ** Units that begin with g *)

Section ShadowedUnits.

Import Re ReShape.

Lemma lower_g a :
  PyStr.eq_char "g" (PyStr.lower_char a) = true -> a = "g"%char \/ a = "G"%char.
Proof.
  destruct a as [[] [] [] [] [] [] [] []]; vm_compute; intros H;
    try discriminate H; auto.
Qed.

(** A text whose lower-cased start is g begins with g or G. *)
Lemma take_starts_g n s :
  PyStr.starts_with "g" (PyStr.lower (PyStr.take n s)) = true ->
  exists a t, s = String a t /\ (a = "g"%char \/ a = "G"%char).
Proof.
  destruct n as [|n], s as [|a t]; cbn; try discriminate.
  rewrite andb_true_r. intros H. apply lower_g in H. eauto.
Qed.

(** A mention of a pattern of the form number, spaces, unit. *)
Lemma mention_unit_g (units : regex) prev s u c v :
  PubRun.takes_g units ->
  match_here (compile (seq [Grp 1 number; many space; Grp 2 units]) true) prev s
  = Some (u, c) ->
  group u 2 = Some v ->
  PyStr.starts_with "g" (PyStr.lower v) = true ->
  v = "g" \/ v = "G".
Proof.
  intros Hg H Hv Hs. unfold match_here in H. cbn [expr ignorecase seq run] in H.
  apply run_sound in H as (w1 & c1 & new1 & _ & _ & _ & H & _).
  apply run_sound in H as (w2 & c2 & new2 & _ & _ & _ & H & _).
  set (G := (new2 ++ (1%nat, PyStr.take (taken c1 - taken {| before := prev; taken := 0; rest := s |}) (rest {| before := prev; taken := 0; rest := s |})) :: new1 ++ [])%list) in *.
  destruct c2 as [b2 n2 r2]. cbn [rest] in H.
  pose proof H as H'.
  apply run_sound in H' as (w & c3 & new3 & _ & _ & _ & H' & _).
  injection H' as Hu _. subst u. cbn [group Nat.eqb] in Hv. injection Hv as <-.
  apply take_starts_g in Hs as (a & t & -> & Ha).
  rewrite (Hg a t b2 n2 G) in H; [|exact Ha|intros; eauto]. cbn [taken] in H.
  injection H as H _ _.
  replace (S n2 - n2)%nat with 1%nat in H by lia.
  rewrite <- H. cbn. destruct Ha as [-> | ->]; auto.
Qed.

End ShadowedUnits.

(** Settles [takes_g] for a given list of alternatives by running them. *)
Ltac takes_g_by_computation :=
  let a := fresh "a" in
  let Ha := fresh "Ha" in
  let Hk := fresh "Hk" in
  let x := fresh "x" in
  let Hx := fresh "Hx" in
  intros a t b n g k Ha Hk;
  destruct (Hk (Re.mkCursor (Some a) (S n) t) g) as [x Hx];
  destruct Ha as [-> | ->]; cbn; rewrite Hx; reflexivity.


(** X23.  In the unit pattern of both scrapers the alternative [g] stands
    before [gram], [gal] and [gallon], and nothing follows the unit.  So a
    mention whose unit begins with g or G has the single letter as its
    unit, whatever word the text goes on with, and its normalised unit is
    "g": a size written in gallons or grams is recorded in "g". *)
Theorem g_shadows_longer_units (text : string) (u : Re.groups) (v : string) :
  (In u (Re.findall Pub.UNIT_PATTERN text) -> Re.group u 2 = Some v ->
   PyStr.starts_with "g" (PyStr.lower v) = true ->
   (v = "g" \/ v = "G") /\ PubTerms.mention_unit u = "g")
  /\ (In u (Re.findall Leg.UNIT_PATTERN text) -> Re.group u 2 = Some v ->
      PyStr.starts_with "g" (PyStr.lower v) = true ->
      (v = "g" \/ v = "G") /\ LegTerms.mention_unit u = "g").
Proof.
  split; intros Hin Hv Hs.
  - apply findall_match in Hin as (prev & s & c & Hm).
    assert (Hg : v = "g" \/ v = "G").
    { eapply mention_unit_g; [|exact Hm|exact Hv|exact Hs].
      takes_g_by_computation. }
    split; [exact Hg|].
    unfold PubTerms.mention_unit, Re.group_text. rewrite Hv.
    destruct Hg as [-> | ->]; vm_compute; reflexivity.
  - apply findall_match in Hin as (prev & s & c & Hm).
    assert (Hg : v = "g" \/ v = "G").
    { eapply mention_unit_g; [|exact Hm|exact Hv|exact Hs].
      takes_g_by_computation. }
    split; [exact Hg|].
    unfold LegTerms.mention_unit, Re.group_text. rewrite Hv.
    destruct Hg as [-> | ->]; vm_compute; reflexivity.
Qed.

Lemma g_shadows_longer_units_witness :
  Re.findall Pub.UNIT_PATTERN "2 gallons" = [[(2, "g"); (1, "2")]%nat]
  /\ PubTerms.mention_unit [(2, "g"); (1, "2")]%nat = "g".
Proof.
  assert (Hf : Re.findall Pub.UNIT_PATTERN "2 gallons" = [[(2, "g"); (1, "2")]%nat])
    by (vm_compute; reflexivity).
  split; [exact Hf|].
  refine (proj2 (proj1 (g_shadows_longer_units "2 gallons"
                          [(2, "g"); (1, "2")]%nat "g") _ eq_refl eq_refl)).
  rewrite Hf. left. reflexivity.
Defined.

Section ShadowedLastUnit.

Import Re ReShape.

(** The last expression of a sequence runs where the others have let it,
    and the groups met before hold no group [n] when none of the others
    stands under one. *)
Lemma seq_last n : forall (l : list regex) final c g
    (k : cursor -> groups -> option (groups * cursor)) x,
  last l = Some final ->
  Forall (fun r => subgroups r n = []) (removelast l) ->
  group g n = None ->
  run true (seq l) c g k = Some x ->
  exists c' g', run true final c' g' k = Some x /\ group g' n = None.
Proof.
  induction l as [|r [|r2 l] IH]; intros final c g k x Hl Hf Hg H.
  - discriminate.
  - injection Hl as <-. eauto.
  - change (seq (r :: r2 :: l)) with (Cat r (seq (r2 :: l))) in H.
    cbn [run] in H.
    change (removelast (r :: r2 :: l)) with (r :: removelast (r2 :: l)) in Hf.
    apply Forall_cons in Hf as [Hr Hf].
    apply run_sound in H as (w & c1 & new & _ & _ & _ & H & Hnew & _).
    apply (IH final c1 (new ++ g)%list k x); auto.
    destruct (group (new ++ g)%list n) as [v|] eqn:E; [|reflexivity].
    apply group_in, in_app_or in E as [E|E].
    + apply Hnew in E as (r' & Hin & _). rewrite Hr in Hin. destruct Hin.
    + apply in_group in E as [v' E]. congruence.
Qed.

(** The closing unit of an explicit pattern. *)
Lemma last_unit_g (l : list regex) (units : regex) prev s m c v :
  last l = Some (Opt (Grp 4 units)) ->
  Forall (fun r => subgroups r 4 = []) (removelast l) ->
  PubRun.takes_g units ->
  match_here (compile (seq l) true) prev s = Some (m, c) ->
  group m 4 = Some v ->
  PyStr.starts_with "g" (PyStr.lower v) = true ->
  v = "g" \/ v = "G".
Proof.
  intros Hl Hf Hg H Hv Hs. unfold match_here in H. cbn [expr ignorecase] in H.
  eapply seq_last in H as (c1 & g1 & H & Hno); [|exact Hl|exact Hf|reflexivity].
  cbn [run] in H. destruct c1 as [b1 n1 r1]. cbn [rest taken] in H.
  destruct (run true units {| before := b1; taken := n1; rest := r1 |} g1 _)
    as [x|] eqn:E.
  2: { injection H as <- _. congruence. }
  injection H as ->. pose proof E as E'.
  apply run_sound in E' as (w & c3 & new3 & _ & _ & _ & E' & _).
  injection E' as Hm _. subst m. cbn [group Nat.eqb] in Hv. injection Hv as <-.
  apply take_starts_g in Hs as (a & t & -> & Ha).
  rewrite (Hg a t b1 n1 g1) in E; [|exact Ha|intros; eauto]. cbn [taken] in E.
  injection E as E _ _.
  replace (S n1 - n1)%nat with 1%nat in E by lia.
  rewrite <- E. cbn. destruct Ha as [-> | ->]; auto.
Qed.

End ShadowedLastUnit.

(** X24.  The closing unit of the explicit patterns: in the from-to
    pattern of both scrapers and in the arrow pattern, the unit of the
    second size comes last, so the alternative [g] stops it: when it
    begins with g or G it is that single letter, and the new unit computed
    from the match is "g".  A change written "from 2 gallons to 1 gallon"
    has the units "gal" and "g". *)
Theorem closing_unit_g (text : string) (m : Re.groups) (v : string) :
  (Re.search Pub.FROM_TO_PATTERN text = Some m -> Re.group m 4 = Some v ->
   PyStr.starts_with "g" (PyStr.lower v) = true ->
   (v = "g" \/ v = "G") /\ PubTerms.matched_new_unit m = "g")
  /\ (Re.search Pub.ARROW_PATTERN text = Some m -> Re.group m 4 = Some v ->
      PyStr.starts_with "g" (PyStr.lower v) = true ->
      (v = "g" \/ v = "G") /\ PubTerms.matched_new_unit m = "g")
  /\ (Re.search Leg.FROM_TO_PATTERN text = Some m -> Re.group m 4 = Some v ->
      PyStr.starts_with "g" (PyStr.lower v) = true ->
      (v = "g" \/ v = "G") /\ LegTerms.matched_new_unit m = "g").
Proof.
  split; [|split]; intros Hm Hv Hs;
    apply search_match in Hm as (prev & s & c & Hm).
  - assert (Hg : v = "g" \/ v = "G").
    { eapply last_unit_g; [| | |exact Hm|exact Hv|exact Hs];
        [reflexivity|repeat constructor|takes_g_by_computation]. }
    split; [exact Hg|]. unfold PubTerms.matched_new_unit. rewrite Hv.
    destruct Hg as [-> | ->]; vm_compute; reflexivity.
  - assert (Hg : v = "g" \/ v = "G").
    { eapply last_unit_g; [| | |exact Hm|exact Hv|exact Hs];
        [reflexivity|repeat constructor|takes_g_by_computation]. }
    split; [exact Hg|]. unfold PubTerms.matched_new_unit. rewrite Hv.
    destruct Hg as [-> | ->]; vm_compute; reflexivity.
  - assert (Hg : v = "g" \/ v = "G").
    { eapply last_unit_g; [| | |exact Hm|exact Hv|exact Hs];
        [reflexivity|repeat constructor|takes_g_by_computation]. }
    split; [exact Hg|]. unfold LegTerms.matched_new_unit. rewrite Hv.
    destruct Hg as [-> | ->]; vm_compute; reflexivity.
Qed.

Lemma closing_unit_g_witness :
  Re.search Pub.FROM_TO_PATTERN "from 2 gallons to 1 gallon"
  = Some [(4, "g"); (3, "1"); (2, "gallons"); (1, "2")]%nat
  /\ PubTerms.matched_old_unit [(4, "g"); (3, "1"); (2, "gallons"); (1, "2")]%nat
     = "gal"
  /\ PubTerms.matched_new_unit [(4, "g"); (3, "1"); (2, "gallons"); (1, "2")]%nat
     = "g".
Proof.
  assert (Hm : Re.search Pub.FROM_TO_PATTERN "from 2 gallons to 1 gallon"
               = Some [(4, "g"); (3, "1"); (2, "gallons"); (1, "2")]%nat)
    by (vm_compute; reflexivity).
  split; [exact Hm|]. split; [vm_compute; reflexivity|].
  exact (proj2 (proj1 (closing_unit_g "from 2 gallons to 1 gallon"
                         [(4, "g"); (3, "1"); (2, "gallons"); (1, "2")]%nat "g")
                      Hm eq_refl eq_refl)).
Defined.

